(** * Gateway context builder, proxy sanitizer and summarizer: a shallow embedding

    The development follows the Python sources
    - [app/api/v1/routes_gateway_ctx.py]  (keyword handling, evidence scorer,
      context cache, JSON-RPC dispatcher),
    - [app/api/v1/routes_openai_proxy.py] (tool-thread sanitization),
    - [app/services/summarizer.py]        (summary sanitization, mojibake repair).

    Conventions.
    - A Python [str] is a sequence of Unicode code points: [pystr := list Z].
      Literals are written as UTF-8 text and decoded by [u].
    - A Python [float] is an IEEE-754 binary64 number: Rocq's primitive
      [float].  Comparisons are taken on the exact values ([fval]).
    - Functions of the sources keep their names, leading underscore included. *)

From Stdlib Require Import ZArith QArith List Bool Lia String Ascii Floats Uint63 DecimalString.
From stdpp Require Import base decidable option list sorting gmap.

Open Scope Z_scope.

#[global] Set Warnings "-inexact-float,-register-all".

(* ================================================================== *)
(** * Python strings *)
(* ================================================================== *)

Abbreviation pystr := (list Z) (only parsing).

(** ** UTF-8 literals *)

Definition bytes_of_string (s : string) : list Z :=
  map (fun a => Z.of_nat (nat_of_ascii a)) (list_ascii_of_string s).

(** [utf8_go pending acc bs]: [pending] continuation bytes are still owed to
    the code point accumulated in [acc]. *)
Fixpoint utf8_go (pending : nat) (acc : Z) (bs : list Z) : list Z :=
  match bs with
  | [] => []
  | b :: bs' =>
      match pending with
      | O =>
          if b <? 128 then b :: utf8_go O 0 bs'
          else if b <? 224 then utf8_go 1 (b - 192) bs'
          else if b <? 240 then utf8_go 2 (b - 224) bs'
          else utf8_go 3 (b - 240) bs'
      | S O => (acc * 64 + (b - 128)) :: utf8_go O 0 bs'
      | S k => utf8_go k (acc * 64 + (b - 128)) bs'
      end
  end.

(** The code points of a literal written in UTF-8. *)
Definition u (s : string) : pystr := utf8_go O 0 (bytes_of_string s).

(** ** Elementary operations *)

Definition pystr_eqb (a b : pystr) : bool := bool_decide (a = b).

(** [ch in chars] for a string used as a set of characters. *)
Definition char_in (ch : Z) (chars : pystr) : bool := existsb (Z.eqb ch) chars.

(** [s.count(ch)] for a one-character needle. *)
Definition count_char (ch : Z) (s : pystr) : Z :=
  Z.of_nat (length (List.filter (Z.eqb ch) s)).

(** [str.isspace] on one code point (the table of [_PyUnicode_IsWhitespace]). *)
Definition py_isspace (c : Z) : bool :=
  ((9 <=? c) && (c <=? 13)) || ((28 <=? c) && (c <=? 32))
  || (c =? 133) || (c =? 160) || (c =? 5760)
  || ((8192 <=? c) && (c <=? 8202))
  || (c =? 8232) || (c =? 8233) || (c =? 8239) || (c =? 8287) || (c =? 12288).

Fixpoint drop_while (p : Z -> bool) (s : pystr) : pystr :=
  match s with
  | [] => []
  | c :: s' => if p c then drop_while p s' else s
  end.

(** [s.lstrip(chars)], [s.rstrip(chars)], [s.strip(chars)] by predicate. *)
Definition lstrip_by (p : Z -> bool) (s : pystr) : pystr := drop_while p s.
Definition rstrip_by (p : Z -> bool) (s : pystr) : pystr := rev (drop_while p (rev s)).
Definition strip_by (p : Z -> bool) (s : pystr) : pystr := rstrip_by p (lstrip_by p s).

(** [s.strip()] *)
Definition py_strip (s : pystr) : pystr := strip_by py_isspace s.

(** Truth value of a string: [bool(s)]. *)
Definition str_truthy (s : pystr) : bool :=
  match s with [] => false | _ => true end.

(* ================================================================== *)
(** * routes_gateway_ctx.py: keyword handling *)
(* ================================================================== *)

Definition _QMARK : Z := 63.

(** The separator characters of [" ,，;；|/\t\r\n"]. *)
Definition kw_separators : pystr := u " ,，;；|/" ++ [9; 13; 10].

(** [sum(1 for ch in kw if ch not in " ,，;；|/\t\r\n")] *)
Definition non_separator_count (kw : pystr) : Z :=
  Z.of_nat (length (List.filter (fun ch => negb (char_in ch kw_separators)) kw)).

(** [_looks_garbled_keyword].  The final test [(q / total) >= 0.4] divides two
    integers (correctly rounded) and compares with the double nearest to 2/5;
    for counts below 2^53 this is the exact comparison [2/5 <= q/total],
    written here without division. *)
Definition _looks_garbled_keyword (keyword : pystr) : bool :=
  let kw := py_strip keyword in
  if negb (str_truthy kw) then false
  else
    let q := count_char _QMARK kw in
    if q =? 0 then false
    else
      let total := non_separator_count kw in
      if total <=? 0 then true
      else 4 * total <=? 10 * q.

(** The detector as the specification words it: the string is non-empty and
    the ratio of question marks to non-separator characters is at least 0.4
    (the ratio exists only when there is a non-separator character). *)
Definition garbled_ratio_ok (s : pystr) : Prop :=
  0 < non_separator_count s /\ 4 * non_separator_count s <= 10 * count_char _QMARK s.

Definition garbled_as_specified (s : pystr) : bool :=
  str_truthy s
  && (0 <? non_separator_count s)
  && (4 * non_separator_count s <=? 10 * count_char _QMARK s).

(* ================================================================== *)
(** * Python values and the parts of the runtime taken as given *)
(* ================================================================== *)

(** Values as [json] decoding produces them (and as the handlers build
    them): [None], booleans, integers, floats, strings, lists and
    dictionaries (insertion-ordered, keys are strings). *)
Inductive pyval : Type :=
| PNone
| PBool (b : bool)
| PInt (z : Z)
| PFloat (f : float)
| PStr (s : pystr)
| PList (items : list pyval)
| PDict (entries : list (pystr * pyval)).

Inductive codec := Latin1 | Cp1252.
Inductive decode_errors := Strict | Replace.

(** What the sources use of the Python runtime and cannot be written down
    here in full (Unicode tables, codecs, number parsing and printing).
    Every definition below is parametric in it. *)
Class PyRuntime := {
  (** [s.lower()] *)
  unicode_lower : pystr -> pystr;
  (** [\w] of [re] on [str] patterns: alphanumeric or underscore. *)
  unicode_is_word : Z -> bool;
  (** [s.encode(src, errors="strict")]; [None] is [UnicodeEncodeError]. *)
  str_encode : codec -> pystr -> option (list Z);
  (** [b.decode("utf-8", errors=...)]; [None] is [UnicodeDecodeError]. *)
  bytes_decode_utf8 : decode_errors -> list Z -> option pystr;
  (** [str(v)] for a float, a list or a dictionary. *)
  str_of_compound : pyval -> pystr;
  (** [int(s)] for a string; [None] is [ValueError]. *)
  int_of_str : pystr -> option Z;
  (** [float(s)] for a string; [None] is [ValueError]. *)
  float_of_str : pystr -> option float;
  (** [int(datetime.fromisoformat(s).timestamp())]; [None] when it raises. *)
  iso_timestamp : pystr -> option Z
}.

(* ================================================================== *)
(** * summarizer.py: mojibake repair *)
(* ================================================================== *)

Definition in_range (lo hi c : Z) : bool := (lo <=? c) && (c <=? hi).

Definition count_if (p : Z -> bool) (s : pystr) : Z :=
  Z.of_nat (length (List.filter p s)).

(** ["一" <= ch <= "鿿"]: U+4E00 .. U+9FFF. *)
Definition is_cjk (c : Z) : bool := in_range 19968 40959 c.

(** [U+0080 <= ch <= U+009F] *)
Definition is_c1_ctrl (c : Z) : bool := in_range 128 159 c.

Definition _count_cjk_chars (s : pystr) : Z := count_if is_cjk s.

Definition _strip_ctrl (s : pystr) : pystr :=
  List.filter (fun ch => negb (is_c1_ctrl ch)) s.

(** The markers of [_mojibake_score], each one character. *)
Definition mojibake_markers : pystr := u "ÃÂæäåçð" ++ [133; 157; 159].

Definition sumZ (l : list Z) : Z := fold_right Z.add 0 l.

Definition _mojibake_score (text : pystr) : Z :=
  if negb (str_truthy text) then 0
  else sumZ (map (fun m => count_char m text) mojibake_markers).

Definition _ctrl_char_count (text : pystr) : Z := count_if is_c1_ctrl text.

Definition bad_latin_chars : pystr := u "æåçÃÂ".

(** The loop of [_bad_latin_run_count], state [(run_count, in_run)]. *)
Definition bad_latin_step (st : Z * bool) (ch : Z) : Z * bool :=
  let '(run_count, in_run) := st in
  if char_in ch bad_latin_chars
  then (if in_run then run_count else run_count + 1, true)
  else (run_count, false).

Definition _bad_latin_run_count (text : pystr) : Z :=
  fst (fold_left bad_latin_step text (0, false)).

Definition _looks_mojibake_text (text : pystr) : bool :=
  (0 <? _mojibake_score text) || (0 <? _ctrl_char_count text).

(** The first element on which [f] succeeds (a loop that returns from
    inside a [try]). *)
Fixpoint first_some {A B} (f : A -> option B) (l : list A) : option B :=
  match l with
  | [] => None
  | x :: l' => match f x with Some y => Some y | None => first_some f l' end
  end.

Section WithRuntime.
Context `{R : PyRuntime}.

Definition _try_recode (s : pystr) (src : codec) : option pystr :=
  let byte_candidates := omap (str_encode src) [s; _strip_ctrl s] in
  first_some
    (fun b =>
       first_some
         (fun decode_errors =>
            match bytes_decode_utf8 decode_errors b with
            | Some t => Some (_strip_ctrl t)
            | None => None
            end)
         [Strict; Replace])
    byte_candidates.

(** [metrics(s)] followed by [ordering_key]: the tuple
    [(cjk, -markers, -(ctrl + replacement), -bad_runs, -replacement)]. *)
Definition repair_ordering_key (s : pystr) : list Z :=
  let cjk_count := _count_cjk_chars s in
  let mojibake_markers := _mojibake_score s in
  let replacement_count := count_char 65533 s in
  let ctrl_count := _ctrl_char_count s in
  let bad_latin_runs := _bad_latin_run_count s in
  [cjk_count; - mojibake_markers; - (ctrl_count + replacement_count);
   - bad_latin_runs; - replacement_count].

(** [a > b] on tuples of integers. *)
Fixpoint tuple_gt (a b : list Z) : bool :=
  match a, b with
  | x :: a', y :: b' => if x =? y then tuple_gt a' b' else y <? x
  | _ :: _, [] => true
  | [], _ => false
  end.

Definition str_in (s : pystr) (l : list pystr) : bool :=
  existsb (pystr_eqb s) l.

(** One round of the candidate search: what [next_round] holds after the
    two nested loops.  Sets are kept as duplicate-free lists in insertion
    order. *)
Definition repair_next_round (candidates : list pystr) : list pystr :=
  fold_left
    (fun next_round '(seed, src) =>
       match _try_recode seed src with
       | Some candidate =>
           if str_truthy candidate
              && negb (str_in candidate candidates)
              && negb (str_in candidate next_round)
           then next_round ++ [candidate]
           else next_round
       | None => next_round
       end)
    (flat_map (fun seed => [(seed, Latin1); (seed, Cp1252)]) candidates)
    [].

(** [for round_index in range(max_rounds)] with its [break]. *)
Fixpoint repair_rounds (max_rounds : nat) (candidates : list pystr) : list pystr :=
  match max_rounds with
  | O => candidates
  | S k =>
      match repair_next_round candidates with
      | [] => candidates
      | next_round => repair_rounds k (candidates ++ next_round)
      end
  end.

(** The selection loop: keep the cleaned candidate with the greatest key. *)
Definition repair_select (best : pystr) (candidates : list pystr) : pystr :=
  fold_left
    (fun best candidate =>
       let cleaned := _strip_ctrl candidate in
       if tuple_gt (repair_ordering_key cleaned) (repair_ordering_key best)
       then cleaned else best)
    candidates best.

(** [_maybe_repair_mojibake_text].  The debug events it pushes are not part of
    the returned text and are left out. *)
Definition _maybe_repair_mojibake_text (text : pystr) : pystr :=
  if negb (str_truthy text) then text
  else
    let bad_markers := u "ÃÂæäåçð" in
    if (2 <=? _count_cjk_chars text)
       && negb (existsb (fun m => char_in m text) bad_markers)
    then _strip_ctrl text
    else
      let original_score := _mojibake_score text in
      let max_rounds :=
        2 + (if 2 <? original_score then 1 else 0)
          + (if 5 <? original_score then 1 else 0) in
      let best := _strip_ctrl text in
      let candidates := repair_rounds (Z.to_nat max_rounds) [text] in
      let best := repair_select best candidates in
      if negb (_looks_mojibake_text text) then _strip_ctrl text
      else _strip_ctrl best.

End WithRuntime.

(* ================================================================== *)
(** * Operations on Python values *)
(* ================================================================== *)

(** Exceptions: the class and [str(e)]. *)
Inductive exn_class :=
  TypeError | AttributeError | ValueError | OverflowError | IndexError | RuntimeError
  | HTTPError.

Record pyexn := { exn_kind : exn_class; exn_text : pystr }.

(** The outcome of a call that may raise. *)
Inductive result (A : Type) : Type :=
| Ok (a : A)
| Raise (e : pyexn).
Arguments Ok {A} a.
Arguments Raise {A} e.

(** Sequencing: an exception cuts the rest short.  With these instances
    [x ← r; k] reads "run [r], name its value [x], go on with [k]". *)
#[export] Instance result_ret : MRet result := fun A a => Ok a.

#[export] Instance result_bind : MBind result := fun A B k r =>
  match r with
  | Ok a => k a
  | Raise e => Raise e
  end.

Definition is_ok {A} (r : result A) : bool :=
  match r with Ok _ => true | Raise _ => false end.

Abbreviation py_dict := (list (list Z * pyval)) (only parsing).

(** [d.get(k)]; an absent key reads as [None]. *)
Fixpoint dict_lookup (d : py_dict) (k : pystr) : option pyval :=
  match d with
  | [] => None
  | (k', v) :: d' => if pystr_eqb k' k then Some v else dict_lookup d' k
  end.

Definition dict_get (d : py_dict) (k : pystr) : pyval :=
  match dict_lookup d k with Some v => v | None => PNone end.

Definition dict_has (d : py_dict) (k : pystr) : bool :=
  match dict_lookup d k with Some _ => true | None => false end.

(** [d.get(k) is not None] *)
Definition dict_has_value (d : py_dict) (k : pystr) : bool :=
  match dict_lookup d k with
  | Some PNone | None => false
  | Some _ => true
  end.

(** [d[k] = v]: an existing key keeps its place, a new key goes last. *)
Fixpoint dict_set (d : py_dict) (k : pystr) (v : pyval) : py_dict :=
  match d with
  | [] => [(k, v)]
  | (k', v') :: d' =>
      if pystr_eqb k' k then (k', v) :: d' else (k', v') :: dict_set d' k v
  end.

(** [d.setdefault(k, v)] *)
Definition dict_setdefault (d : py_dict) (k : pystr) (v : pyval) : py_dict :=
  if dict_has d k then d else dict_set d k v.

(** [d.pop(k, None)] *)
Definition dict_pop (d : py_dict) (k : pystr) : py_dict :=
  List.filter (fun kv => negb (pystr_eqb (fst kv) k)) d.

(** [d.update(e)] *)
Definition dict_update (d e : py_dict) : py_dict :=
  fold_left (fun acc kv => dict_set acc (fst kv) (snd kv)) e d.

(** Exact value of a float scaled by 2^1074, [None] for NaN; the
    infinities sit beyond every finite value. *)
Definition fval (x : float) : option Z :=
  match Prim2SF x with
  | S754_zero _ => Some 0
  | S754_infinity s => Some (if s then - 2 ^ 2200 else 2 ^ 2200)
  | S754_nan => None
  | S754_finite s m e =>
      Some ((if s then -1 else 1) * Z.shiftl (Z.pos m) (e + 1074))
  end.

(** [x < y], [x <= y], [x == y] on floats: false as soon as one is NaN. *)
Definition flt (x y : float) : bool :=
  match fval x, fval y with Some a, Some b => a <? b | _, _ => false end.
Definition fle (x y : float) : bool :=
  match fval x, fval y with Some a, Some b => a <=? b | _, _ => false end.
Definition feq (x y : float) : bool :=
  match fval x, fval y with Some a, Some b => a =? b | _, _ => false end.

(** [bool(v)] *)
Definition truthy (v : pyval) : bool :=
  match v with
  | PNone => false
  | PBool b => b
  | PInt z => negb (z =? 0)
  | PFloat f => negb (feq f 0%float)
  | PStr s => str_truthy s
  | PList l => match l with [] => false | _ => true end
  | PDict d => match d with [] => false | _ => true end
  end.

(** [a or b] *)
Definition py_or (a b : pyval) : pyval := if truthy a then a else b.

Definition Z_to_pystr (z : Z) : pystr :=
  u (NilEmpty.string_of_int (Z.to_int z)).

Section ValuesWithRuntime.
Context `{R : PyRuntime}.

(** [str(v)] *)
Definition py_str (v : pyval) : pystr :=
  match v with
  | PStr s => s
  | PNone => u "None"
  | PBool true => u "True"
  | PBool false => u "False"
  | PInt z => Z_to_pystr z
  | _ => str_of_compound v
  end.

End ValuesWithRuntime.

(** ** Substrings *)

Fixpoint is_prefix (p s : pystr) : bool :=
  match p, s with
  | [], _ => true
  | _ :: _, [] => false
  | a :: p', b :: s' => (a =? b) && is_prefix p' s'
  end.

(** [p in s] on strings. *)
Fixpoint str_contains (p s : pystr) : bool :=
  is_prefix p s
  || match s with
     | [] => false
     | _ :: s' => str_contains p s'
     end.

(** [s.replace(old, new)] for a non-empty [old]: occurrences are taken from
    the left and do not overlap.  [skip] counts the characters of a match that
    are still to be passed over. *)
Fixpoint replace_go (old new : pystr) (skip : nat) (s : pystr) : pystr :=
  match s with
  | [] => []
  | c :: s' =>
      match skip with
      | S k => replace_go old new k s'
      | O =>
          if is_prefix old s
          then new ++ replace_go old new (length old - 1) s'
          else c :: replace_go old new O s'
      end
  end.

(** [s.replace(old, new)]; an empty [old] matches before every character
    and at the end. *)
Definition str_replace (old new s : pystr) : pystr :=
  match old with
  | [] => flat_map (fun c => new ++ [c]) s ++ new
  | _ => replace_go old new O s
  end.

(** [s.strip(chars)] *)
Definition str_strip_chars (chars s : pystr) : pystr :=
  strip_by (fun c => char_in c chars) s.

(** [x == s] for a string [s]. *)
Definition val_is_str (v : pyval) (s : pystr) : bool :=
  match v with PStr t => pystr_eqb t s | _ => false end.

Definition not_iterable (v : pyval) : pyexn :=
  {| exn_kind := TypeError;
     exn_text := u "argument of type '"
                 ++ match v with
                    | PInt _ => u "int" | PBool _ => u "bool"
                    | PFloat _ => u "float" | _ => u "NoneType"
                    end
                 ++ u "' is not iterable" |}.

(** [p in container] for a string [p]. *)
Definition py_contains (p : pystr) (container : pyval) : result bool :=
  match container with
  | PStr s => Ok (str_contains p s)
  | PList l => Ok (existsb (fun x => val_is_str x p) l)
  | PDict d => Ok (dict_has d p)
  | v => Raise (not_iterable v)
  end.

Definition no_attribute (v : pyval) (attr : pystr) : pyexn :=
  {| exn_kind := AttributeError;
     exn_text := u "'"
                 ++ match v with
                    | PNone => u "NoneType" | PBool _ => u "bool"
                    | PInt _ => u "int" | PFloat _ => u "float"
                    | PStr _ => u "str" | PList _ => u "list"
                    | PDict _ => u "dict"
                    end
                 ++ u "' object has no attribute '" ++ attr ++ u "'" |}.

(** [v.strip()], [v.replace(old, new)]: only strings have these methods. *)
Definition py_strip_method (v : pyval) : result pystr :=
  match v with
  | PStr s => Ok (py_strip s)
  | _ => Raise (no_attribute v (u "strip"))
  end.

Definition py_replace_method (v : pyval) (old new : pystr) : result pystr :=
  match v with
  | PStr s => Ok (str_replace old new s)
  | _ => Raise (no_attribute v (u "replace"))
  end.

(* ================================================================== *)
(** * summarizer.py: summary sanitization *)
(* ================================================================== *)

Definition HELP_SEEKING_HINTS : list pystr :=
  map u ["借钱"; "借我"; "转账"; "打钱"; "资助"; "赞助"; "给我钱"; "求助"; "救济";
         "能不能给"; "能否给"; "帮我出"; "帮我付"; "你出钱"; "帮我转"; "给点钱"]%string.

Definition _has_help_seeking (transcript : pystr) : bool :=
  existsb (fun h => str_contains h transcript) HELP_SEEKING_HINTS.

Definition _default_summary_schema : pyval :=
  PDict [(u "goal", PStr (u "当前在推进什么"));
         (u "state", PStr (u "进度到哪/现在什么状态"));
         (u "open_loops", PList [PStr (u "未完成事项/待决定点")]);
         (u "constraints", PList [PStr (u "硬约束：工具/时间/边界/要求")]);
         (u "tone_notes", PList [PStr (u "语气与互动基调提示（很短）")])].

Definition bad_goal_phrases : list pystr :=
  map u ["寻求经济上的帮助"; "寻求经济帮助"; "请求经济帮助"; "求助对方"; "让对方出钱"]%string.

Definition bad_state_phrases : list pystr :=
  map u ["愿意提供帮助"; "表示愿意提供帮助"; "同意提供帮助"; "已提供帮助"; "答应提供帮助"]%string.

(** The characters of [.strip("，。;； ")]. *)
Definition summary_trim_chars : pystr := u "，。;； ".

(** A loop whose body may raise. *)
Fixpoint fold_result {A B} (f : A -> B -> result A) (l : list B) (a : A) : result A :=
  match l with
  | [] => Ok a
  | x :: l' => a' ← f a x; fold_result f l' a'
  end.

Section SummaryWithRuntime.
Context `{R : PyRuntime}.

(** [if not isinstance(obj[k], list): obj[k] = [str(obj[k])]] *)
Definition coerce_list_field (obj : py_dict) (k : pystr) : py_dict :=
  match dict_get obj k with
  | PList _ => obj
  | v => dict_set obj k (PList [PStr (py_str v)])
  end.

(** The body of the loops over [bad_goal_phrases] and [bad_state_phrases]:
    [if p in (obj.get(key) or ''):
         obj[key] = (obj[key] or '').replace(p, '').strip("，。;； ")] *)
Definition strip_phrase (key : pystr) (obj : py_dict) (p : pystr) : result py_dict :=
  hit ← py_contains p (py_or (dict_get obj key) (PStr []));
  if (hit : bool) then
    s ← py_replace_method (py_or (dict_get obj key) (PStr [])) p [];
    Ok (dict_set obj key (PStr (str_strip_chars summary_trim_chars s)))
  else Ok obj.

(** The list comprehension over [obj["open_loops"]]. *)
Definition clean_loop_item (x : pyval) : pyval :=
  PStr (str_strip_chars summary_trim_chars
          (str_replace (u "需要解决经济困难的具体方案") (u "需要明确下一步安排/计划")
                       (py_str x))).

Definition fill_if_empty (obj : py_dict) (key : pystr) (dflt : pystr) : py_dict :=
  if truthy (dict_get obj key) then obj else dict_set obj key (PStr dflt).

Definition _sanitize_summary (transcript : pystr) (obj : pyval) : result pyval :=
  match obj with
  | PDict obj =>
      let want_help := _has_help_seeking transcript in
      let obj := dict_setdefault obj (u "goal") (PStr []) in
      let obj := dict_setdefault obj (u "state") (PStr []) in
      let obj := dict_setdefault obj (u "open_loops") (PList []) in
      let obj := dict_setdefault obj (u "constraints") (PList []) in
      let obj := dict_setdefault obj (u "tone_notes") (PList []) in
      let obj := coerce_list_field obj (u "open_loops") in
      let obj := coerce_list_field obj (u "constraints") in
      let obj := coerce_list_field obj (u "tone_notes") in
      obj ← (if want_help then Ok obj
             else
               obj ← fold_result (strip_phrase (u "goal")) bad_goal_phrases obj;
               obj ← fold_result (strip_phrase (u "state")) bad_state_phrases obj;
               let cleaned_loops :=
                 match dict_get obj (u "open_loops") with
                 | PList l => map clean_loop_item l
                 | _ => []
                 end in
               Ok (dict_set obj (u "open_loops") (PList cleaned_loops)));
      let obj :=
        fill_if_empty obj (u "goal")
          (u "概括本段对话的显式主题（若无明确目标则写‘闲聊/状态更新’）") in
      let obj :=
        fill_if_empty obj (u "state")
          (u "概括当前显式进展（若无进展则写‘无明显推进’）") in
      Ok (PDict obj)
  | _ => Ok _default_summary_schema
  end.

End SummaryWithRuntime.

(** The phrases the sanitization pass bans from the summary. *)
Definition banned_phrases : list pystr := bad_goal_phrases ++ bad_state_phrases.

(** Does a value hold a string in which some banned phrase occurs? *)
Definition has_banned_phrase (v : pyval) : bool :=
  match v with
  | PStr s => existsb (fun p => str_contains p s) banned_phrases
  | _ => false
  end.

(* ================================================================== *)
(** * routes_openai_proxy.py: tool-thread sanitization *)
(* ================================================================== *)

(** [(m.get(k) or '').strip()] *)
Definition get_stripped (m : py_dict) (k : pystr) : result pystr :=
  py_strip_method (py_or (dict_get m k) (PStr [])).

(** [strip_last_assistant_tool_fields] on the list read from its end: the
    first message whose role is exactly "assistant" loses [tool_calls] and
    [function_call]. *)
Fixpoint strip_first_assistant (rev_cleaned : list py_dict) : list py_dict :=
  match rev_cleaned with
  | [] => []
  | m :: ms =>
      if val_is_str (dict_get m (u "role")) (u "assistant")
      then dict_pop (dict_pop m (u "tool_calls")) (u "function_call") :: ms
      else m :: strip_first_assistant ms
  end.

Definition strip_last_assistant_tool_fields (cleaned : list py_dict) : list py_dict :=
  rev (strip_first_assistant (rev cleaned)).

(** The ids collected from [tool_calls]: for each dictionary [t] of the
    list, [(t.get("id") or '').strip()] when it is not empty. *)
Fixpoint tool_call_ids (tc : list pyval) : result (list pystr) :=
  match tc with
  | [] => Ok []
  | PDict t :: tc' =>
      _id ← get_stripped t (u "id");
      ids ← tool_call_ids tc';
      Ok (if str_truthy _id then _id :: ids else ids)
  | _ :: tc' => tool_call_ids tc'
  end.

Definition is_blank_content (content : pyval) : bool :=
  match content with
  | PNone => true
  | PStr s => negb (str_truthy (py_strip s))
  | _ => false
  end.

(** One turn of the loop over [messages]; the state is [(cleaned, pending)]. *)
Definition sanitize_step (st : list py_dict * gset pystr) (m : pyval)
  : result (list py_dict * gset pystr) :=
  let '(cleaned, pending) := st in
  match m with
  | PDict m =>
      role ← get_stripped m (u "role");
      if pystr_eqb role (u "tool") then
        tcid ← get_stripped m (u "tool_call_id");
        if str_truthy tcid && bool_decide (tcid ∈ pending)
        then Ok (cleaned ++ [m], pending ∖ {[tcid]})
        else Ok (cleaned, pending)
      else
        let '(cleaned, pending) :=
          if bool_decide (pending ≠ ∅)
          then (strip_last_assistant_tool_fields cleaned, ∅)
          else (cleaned, pending) in
        if pystr_eqb role (u "assistant") && dict_has_value m (u "tool_calls") then
          ids ← match py_or (dict_get m (u "tool_calls")) (PList []) with
                | PList tc => tool_call_ids tc
                | _ => Ok []
                end;
          Ok (cleaned ++ [m], list_to_set ids)
        else if pystr_eqb role (u "assistant") && dict_has_value m (u "function_call") then
          if is_blank_content (dict_get m (u "content"))
          then Ok (cleaned, pending)
          else Ok (cleaned ++ [m], pending)
        else Ok (cleaned ++ [m], pending)
  | _ => Ok (cleaned, pending)
  end.

Definition _sanitize_messages_for_upstream (messages : pyval)
  : result (list py_dict) :=
  match messages with
  | PList messages =>
      st ← fold_result sanitize_step messages ([], ∅);
      let '(cleaned, pending) := st in
      Ok (if bool_decide (pending ≠ ∅)
          then strip_last_assistant_tool_fields cleaned
          else cleaned)
  | _ => Ok []
  end.

(** ** The property the sanitization is meant to establish *)

(** The ids in the [tool_calls] of a message, as the sanitizer reads them. *)
Definition message_call_ids (m : py_dict) : list pystr :=
  match dict_get m (u "tool_calls") with
  | PList tc => match tool_call_ids tc with Ok ids => ids | Raise _ => [] end
  | _ => []
  end.

Definition role_is (m : py_dict) (r : pystr) : bool :=
  val_is_str (dict_get m (u "role")) r.

(** [tool_threads_ok last_assistant msgs]: every message of role "tool"
    carries a [tool_call_id] found among the tool calls of the nearest
    assistant message before it ([last_assistant] for the part already
    passed). *)
Fixpoint tool_threads_ok (last_assistant : option py_dict) (msgs : list py_dict) : bool :=
  match msgs with
  | [] => true
  | m :: ms =>
      if role_is m (u "tool") then
        match last_assistant, dict_get m (u "tool_call_id") with
        | Some a, PStr tcid =>
            str_in (py_strip tcid) (message_call_ids a) && tool_threads_ok last_assistant ms
        | _, _ => false
        end
      else if role_is m (u "assistant") then tool_threads_ok (Some m) ms
      else tool_threads_ok last_assistant ms
  end.

(* ================================================================== *)
(** * Floats as Python uses them *)
(* ================================================================== *)

(** The double holding a natural number below 2^63, rounded to nearest
    (exact below 2^53). *)
Definition float_of_nonneg (n : Z) : float := PrimFloat.of_uint63 (Uint63.of_Z n).

(** [a / b] rounded to the nearest integer, ties to even ([0 <= a], [0 < b]). *)
Definition div_half_even (a b : Z) : Z :=
  let q := a / b in
  let r := a mod b in
  if 2 * r <? b then q
  else if b <? 2 * r then q + 1
  else if Z.even q then q else q + 1.

(** [round(x, ndigits)] for [0 <= ndigits], as CPython computes it: the exact
    binary value of [x] is rounded half-even to [ndigits] decimals, and the
    decimal obtained is read back as the nearest double.  Once
    [|x| * 10^ndigits >= 2^53] the spacing of doubles exceeds [10^-ndigits] and
    the result is [x] itself; NaN and the infinities are returned as they
    are. *)
Definition py_round (ndigits : Z) (x : float) : float :=
  match Prim2SF x with
  | S754_finite s m e =>
      let n := if 0 <=? e then Z.pos m * 10 ^ ndigits * 2 ^ e
               else div_half_even (Z.pos m * 10 ^ ndigits) (2 ^ (- e)) in
      if 2 ^ 53 <=? n then x
      else
        let r := (float_of_nonneg n / float_of_nonneg (10 ^ ndigits))%float in
        if s then (- r)%float else r
  | _ => x
  end.

(** [round(x, 6)] *)
Definition py_round6 (x : float) : float := py_round 6 x.

(** [float(n)] for an integer; [None] is [OverflowError]. *)
Definition float_of_int (z : Z) : option float :=
  let f := SF2Prim (binary_normalize prec emax z 0 false) in
  match Prim2SF f with
  | S754_infinity _ => None
  | _ => Some f
  end.

Section FloatsWithRuntime.
Context `{R : PyRuntime}.

(** [_safe_float(v, default)]: [float(v)], or [default] when it raises. *)
Definition _safe_float (v : pyval) (default : float) : float :=
  match v with
  | PFloat f => f
  | PInt z => match float_of_int z with Some f => f | None => default end
  | PBool b => if b then 1%float else 0%float
  | PStr s => match float_of_str s with Some f => f | None => default end
  | _ => default
  end.

End FloatsWithRuntime.

(* ================================================================== *)
(** * routes_gateway_ctx.py: evidence scorer *)
(* ================================================================== *)

(** The settings read from the environment when the module is loaded. *)
Record config := {
  DIFY_API_KEY : pystr;
  DEFAULT_MCP_PROTOCOL_VERSION : pystr;
  CTX_MAX : Z;
  RETRIEVAL_TOP_N : Z;
  RETRIEVAL_PROFILE_VERSION : pystr;
  GARBLED_KW_REPAIR_ENABLED : bool;
  CACHE_TTL_SECS : float;
  MAX_CACHE_SIZE : Z
}.

(** The defaults of the sources, with some API key set. *)
Definition default_config : config := {|
  DIFY_API_KEY := u "key";
  DEFAULT_MCP_PROTOCOL_VERSION := u "2025-06-18";
  CTX_MAX := 400;
  RETRIEVAL_TOP_N := 3;
  RETRIEVAL_PROFILE_VERSION := u "v1.0.0";
  GARBLED_KW_REPAIR_ENABLED := true;
  CACHE_TTL_SECS := 20%float;
  MAX_CACHE_SIZE := 256
|}.

Definition W_KEYWORD : float := 0.40%float.
Definition W_VECTOR : float := 0.40%float.
Definition W_RECENCY : float := 0.10%float.
Definition W_TYPE : float := 0.10%float.

Definition _type_boost (source_type : pystr) : float :=
  if pystr_eqb source_type (u "current_input") then 1.3%float
  else if pystr_eqb source_type (u "s4") then 1.2%float
  else if pystr_eqb source_type (u "s60") then 1.1%float
  else if pystr_eqb source_type (u "keyword") || pystr_eqb source_type (u "vector")
       then 1.0%float
  else 0.6%float.

Definition _source_priority (source_type : pystr) : Z :=
  if pystr_eqb source_type (u "current_input") then 4
  else if pystr_eqb source_type (u "s4") then 3
  else if pystr_eqb source_type (u "s60") then 2
  else 1.

(** [_recency_score(ts)]; [now] is the reading [int(time.time())]. *)
Definition _recency_score (now : Z) (ts : Z) : float :=
  if ts =? 0 then 0.0%float
  else
    let age := Z.max 0 (now - ts) in
    let day := 86400 in
    if age <=? day then 1.0%float
    else if age <=? 7 * day then 0.8%float
    else if age <=? 30 * day then 0.6%float
    else 0.3%float.

(** A candidate as the adapters hand it to the scorer.  [metadata] and
    [reason] may come from the retrieval response as they are. *)
Record candidate := {
  c_id : pystr;
  c_source_type : pystr;
  c_source_id : pystr;
  c_text : pystr;
  c_chunk_id : pystr;
  c_metadata : pyval;
  c_reason : pyval;
  c_ts : Z;
  c_keyword : float;
  c_vector : float
}.

Record score_raw := {
  sr_keyword : float;
  sr_vector : float;
  sr_recency : float;
  sr_type_boost : float
}.

(** The unified evidence record. *)
Record evidence := {
  ev_id : pystr;
  ev_source_type : pystr;
  ev_source_id : pystr;
  ev_text : pystr;
  ev_score_raw : score_raw;
  ev_score_final : float;
  ev_reason : pyval;
  ev_ts : Z;
  ev_meta : py_dict
}.

Definition str_or (s dflt : pystr) : pystr := if str_truthy s then s else dflt.

(** [{**x}] inside a dictionary display. *)
Definition mapping_entries (x : pyval) : result py_dict :=
  match x with
  | PDict d => Ok d
  | v => Raise {| exn_kind := TypeError;
                  exn_text := u "'"
                    ++ match v with
                       | PNone => u "NoneType" | PBool _ => u "bool"
                       | PInt _ => u "int" | PFloat _ => u "float"
                       | PStr _ => u "str" | _ => u "list"
                       end
                    ++ u "' object is not a mapping" |}
  end.

(** The weighted sum, before rounding. *)
Definition weighted_score (raw : score_raw) : float :=
  (W_KEYWORD * sr_keyword raw + W_VECTOR * sr_vector raw
   + W_RECENCY * sr_recency raw + W_TYPE * sr_type_boost raw)%float.

Section ScorerWithRuntime.
Context `{R : PyRuntime}.

(** The four raw scores of a candidate, as the scoring loop fills [raw]. *)
Definition raw_scores (now : Z) (item : candidate) : score_raw :=
  {| sr_keyword := _safe_float (PFloat (c_keyword item)) 0.0;
     sr_vector := _safe_float (PFloat (c_vector item)) 0.0;
     sr_recency := _recency_score now (c_ts item);
     sr_type_boost := _type_boost (c_source_type item) |}.

(** The body of the scoring loop of [_score_and_rank_candidates]. *)
Definition score_candidate (now : Z) (idx : nat) (item : candidate) : result evidence :=
  let raw := raw_scores now item in
  let score_final := weighted_score raw in
  extra ← mapping_entries (py_or (c_metadata item) (PDict []));
  Ok {| ev_id := str_or (c_id item) (u "ev_" ++ Z_to_pystr (Z.of_nat idx));
        ev_source_type := str_or (c_source_type item) (u "unknown");
        ev_source_id := c_source_id item;
        ev_text := c_text item;
        ev_score_raw := raw;
        ev_score_final := py_round6 score_final;
        ev_reason := py_or (c_reason item) (PStr []);
        ev_ts := c_ts item;
        ev_meta :=
          dict_update
            [(u "source_name", PStr (u "anchor_rag"));
             (u "chunk_id", PStr (c_chunk_id item));
             (u "source_priority", PInt (_source_priority (c_source_type item)))]
            extra |}.

End ScorerWithRuntime.

(** ** Sorting *)

(** [list.sort(key=..., reverse=True)]: a stable sort into descending
    order; elements that do not compare keep their order.  [lt a b] is
    [key(a) < key(b)].  (For keys that are totally ordered, which excludes NaN,
    the result of a stable sort does not depend on the algorithm.) *)
Fixpoint insert_desc {A} (lt : A -> A -> bool) (x : A) (l : list A) : list A :=
  match l with
  | [] => [x]
  | y :: l' => if lt x y then y :: insert_desc lt x l' else x :: l
  end.

Definition sort_desc {A} (lt : A -> A -> bool) (l : list A) : list A :=
  fold_right (insert_desc lt) [] l.

(** [a < b] on the key tuples [(score_final, source_priority, recency)]:
    the first components that differ decide. *)
Definition rank_key_lt (a b : evidence) : bool :=
  if negb (feq (ev_score_final a) (ev_score_final b))
  then flt (ev_score_final a) (ev_score_final b)
  else
    let pa := _source_priority (ev_source_type a) in
    let pb := _source_priority (ev_source_type b) in
    if negb (pa =? pb) then pa <? pb
    else
      let ra := sr_recency (ev_score_raw a) in
      let rb := sr_recency (ev_score_raw b) in
      if negb (feq ra rb) then flt ra rb else false.

(** The key of the final sort: [score_final] alone. *)
Definition score_lt (a b : evidence) : bool :=
  flt (ev_score_final a) (ev_score_final b).

(** ** Token sets *)

(** [re.sub(r"[class]+", " ", t)]: every maximal run of characters of the
    class becomes one space. *)
Fixpoint squash_runs (in_class : Z -> bool) (in_run : bool) (t : pystr) : pystr :=
  match t with
  | [] => []
  | c :: t' =>
      if in_class c
      then (if in_run then squash_runs in_class true t'
            else 32 :: squash_runs in_class true t')
      else c :: squash_runs in_class false t'
  end.

(** [t.split()]: the maximal runs of non-whitespace characters. *)
Fixpoint split_ws (cur : pystr) (t : pystr) : list pystr :=
  match t with
  | [] => match cur with [] => [] | _ => [cur] end
  | c :: t' =>
      if py_isspace c
      then match cur with [] => split_ws [] t' | _ => cur :: split_ws [] t' end
      else split_ws (cur ++ [c]) t'
  end.

Definition is_lower_alnum (c : Z) : bool := in_range 97 122 c || in_range 48 57 c.

(** [re.findall(r"[a-z0-9]+|[一-鿿]", nt)]: [cur] is the run of
    [a-z0-9] being read. *)
Fixpoint find_tokens (cur : pystr) (nt : pystr) : list pystr :=
  let flush := match cur with [] => [] | _ => [cur] end in
  match nt with
  | [] => flush
  | c :: nt' =>
      if is_lower_alnum c then find_tokens (cur ++ [c]) nt'
      else if is_cjk c then flush ++ [c] :: find_tokens [] nt'
      else flush ++ find_tokens [] nt'
  end.

Section TokensWithRuntime.
Context `{R : PyRuntime}.

Definition _normalize_text_for_dedupe (text : pystr) : pystr :=
  let t := unicode_lower (py_strip text) in
  if negb (str_truthy t) then []
  else
    let t := squash_runs (fun c => negb (unicode_is_word c) || (c =? 95)) false t in
    py_strip (squash_runs py_isspace false t).

Definition _tokenize_for_jaccard (text : pystr) : gset pystr :=
  let nt := _normalize_text_for_dedupe text in
  if negb (str_truthy nt) then ∅
  else
    match find_tokens [] nt with
    | [] => list_to_set (split_ws [] nt)
    | tokens => list_to_set tokens
    end.

End TokensWithRuntime.

(** [_jaccard_similarity].  The quotient [inter / union] is kept exact; below
    2^50 elements the comparison [> 0.9] of the rounded quotient with the
    double nearest to 0.9 has the same outcome as on the exact values. *)
Definition _jaccard_similarity (a b : gset pystr) : Q :=
  if bool_decide (a = ∅) && bool_decide (b = ∅) then 1
  else if bool_decide (a = ∅) || bool_decide (b = ∅) then 0
  else
    let inter := Z.of_nat (size (a ∩ b)) in
    let union := Z.of_nat (size (a ∪ b)) in
    if union <=? 0 then 0
    else inter # Z.to_pos union.

(** [_jaccard_similarity(a, b) > 0.9] *)
Definition near_duplicate (a b : gset pystr) : bool :=
  negb (Qle_bool (_jaccard_similarity a b) (9 # 10)).

(** ** Merging duplicates *)

(** [list(x)] *)
Definition py_list (x : pyval) : result (list pyval) :=
  match x with
  | PList l => Ok l
  | PStr s => Ok (map (fun c => PStr [c]) s)
  | PDict d => Ok (map (fun kv => PStr (fst kv)) d)
  | v => Raise {| exn_kind := TypeError;
                  exn_text := u "'"
                    ++ match v with
                       | PNone => u "NoneType" | PBool _ => u "bool"
                       | PInt _ => u "int" | _ => u "float"
                       end
                    ++ u "' object is not iterable" |}
  end.

Definition _dup_payload (ev : evidence) : pyval :=
  PDict [(u "id", PStr (ev_id ev));
         (u "source_type", PStr (ev_source_type ev));
         (u "source_id", PStr (ev_source_id ev));
         (u "chunk_id", py_or (dict_get (ev_meta ev) (u "chunk_id")) (PStr []));
         (u "score_final", py_or (PFloat (ev_score_final ev)) (PFloat 0.0));
         (u "reason", py_or (ev_reason ev) (PStr []))].

Definition set_meta (ev : evidence) (meta : py_dict) : evidence :=
  {| ev_id := ev_id ev; ev_source_type := ev_source_type ev;
     ev_source_id := ev_source_id ev; ev_text := ev_text ev;
     ev_score_raw := ev_score_raw ev; ev_score_final := ev_score_final ev;
     ev_reason := ev_reason ev; ev_ts := ev_ts ev; ev_meta := meta |}.

Definition _merge_duplicate (kept incoming : evidence) : result evidence :=
  let k_score := ev_score_final kept in
  let i_score := ev_score_final incoming in
  let '(keeper, dup) :=
    if flt k_score i_score then (incoming, kept) else (kept, incoming) in
  let keeper_meta := ev_meta keeper in
  keeper_dups ← py_list (py_or (dict_get keeper_meta (u "duplicates")) (PList []));
  let keeper_dups := keeper_dups ++ [_dup_payload dup] in
  Ok (set_meta keeper (dict_set keeper_meta (u "duplicates") (PList keeper_dups))).

(** ** Post-processing *)

Section PostprocessWithRuntime.
Context `{R : PyRuntime}.

(** The key of step 1:
    [(str(ev.get("source_id") or ''), str(ev["meta"].get("chunk_id") or ''))] *)
Definition dedupe_key (ev : evidence) : pystr * pystr :=
  (ev_source_id ev, py_str (py_or (dict_get (ev_meta ev) (u "chunk_id")) (PStr []))).

Definition index_error : pyexn :=
  {| exn_kind := IndexError; exn_text := u "list index out of range" |}.

(** [l[i]] *)
Definition list_item {A} (l : list A) (i : nat) : result A :=
  match l !! i with Some x => Ok x | None => Raise index_error end.

(** One turn of step 1; the state is [(by_source_chunk, key_index)]. *)
Definition key_dedupe_step
    (st : list evidence * gmap (pystr * pystr) nat) (ev : evidence)
  : result (list evidence * gmap (pystr * pystr) nat) :=
  let '(by_source_chunk, key_index) := st in
  let ev2 := set_meta ev (dict_setdefault (ev_meta ev) (u "duplicates") (PList [])) in
  let key := dedupe_key ev2 in
  match key_index !! key with
  | None => Ok (by_source_chunk ++ [ev2], <[key := length by_source_chunk]> key_index)
  | Some idx =>
      kept ← list_item by_source_chunk idx;
      merged ← _merge_duplicate kept ev2;
      Ok (<[idx := merged]> by_source_chunk, key_index)
  end.

(** The inner loop of step 2: the first index whose token set is a near
    duplicate of [cur_tokens]. *)
Fixpoint find_duplicate_idx (cur_tokens : gset pystr) (token_sets : list (gset pystr))
    (i : nat) : option nat :=
  match token_sets with
  | [] => None
  | seen_tokens :: rest =>
      if near_duplicate cur_tokens seen_tokens then Some i
      else find_duplicate_idx cur_tokens rest (S i)
  end.

(** One turn of step 2; the state is [(deduped, token_sets)]. *)
Definition text_dedupe_step
    (st : list evidence * list (gset pystr)) (ev : evidence)
  : result (list evidence * list (gset pystr)) :=
  let '(deduped, token_sets) := st in
  let cur_tokens := _tokenize_for_jaccard (ev_text ev) in
  match find_duplicate_idx cur_tokens token_sets 0 with
  | None => Ok (deduped ++ [ev], token_sets ++ [cur_tokens])
  | Some duplicate_idx =>
      kept ← list_item deduped duplicate_idx;
      merged ← _merge_duplicate kept ev;
      Ok (<[duplicate_idx := merged]> deduped,
          <[duplicate_idx := _tokenize_for_jaccard (ev_text merged)]> token_sets)
  end.

(** [l[:n]] *)
Definition slice_to {A} (l : list A) (n : Z) : list A :=
  if 0 <=? n then take (Z.to_nat n) l
  else take (length l - Z.to_nat (- n)) l.

Definition _postprocess_candidates (scored : list evidence) (top_n : Z)
  : result (list evidence) :=
  st1 ← fold_result key_dedupe_step scored ([], ∅);
  let by_source_chunk := fst st1 in
  st2 ← fold_result text_dedupe_step by_source_chunk ([], []);
  let deduped := fst st2 in
  Ok (slice_to (sort_desc score_lt deduped) top_n).

(** [for idx, item in enumerate(candidates)]; [clock idx] is the reading
    of [int(time.time())] when candidate [idx] is scored. *)
Fixpoint score_all (clock : nat -> Z) (idx : nat) (candidates : list candidate)
  : result (list evidence) :=
  match candidates with
  | [] => Ok []
  | item :: rest =>
      out ← score_candidate (clock idx) idx item;
      outs ← score_all clock (S idx) rest;
      Ok (out :: outs)
  end.

Definition _score_and_rank_candidates (cfg : config) (clock : nat -> Z)
    (candidates : list candidate) (top_n : Z) : result (list evidence) :=
  scored ← score_all clock 0 candidates;
  let scored := sort_desc rank_key_lt scored in
  let n := Z.max 1 (if top_n =? 0 then RETRIEVAL_TOP_N cfg else top_n) in
  _postprocess_candidates scored n.

End PostprocessWithRuntime.

(* ================================================================== *)
(** * routes_gateway_ctx.py: keywords, snippets, grounding *)
(* ================================================================== *)

(** [sep.join(parts)] *)
Fixpoint str_join (sep : pystr) (parts : list pystr) : pystr :=
  match parts with
  | [] => []
  | [p] => p
  | p :: rest => p ++ sep ++ str_join sep rest
  end.

(** [s.split(sep)] for a one-character separator. *)
Fixpoint split_on (sep : Z) (cur : pystr) (s : pystr) : list pystr :=
  match s with
  | [] => [cur]
  | c :: s' => if c =? sep then cur :: split_on sep [] s' else split_on sep (cur ++ [c]) s'
  end.

(** [_CJK_RE.findall(t)]: the maximal runs of U+4E00..U+9FFF. *)
Fixpoint cjk_runs (cur : pystr) (t : pystr) : list pystr :=
  match t with
  | [] => match cur with [] => [] | _ => [cur] end
  | c :: t' =>
      if is_cjk c then cjk_runs (cur ++ [c]) t'
      else match cur with [] => cjk_runs [] t' | _ => cur :: cjk_runs [] t' end
  end.

Definition _STOP_TOKENS : list pystr :=
  map u ["哥哥"; "哥"; "类"; "神代"; "喵"; "猫咪"; "小猫咪"; "宝宝"; "亲"; "抱"; "mua";
         "啾"; "嘿嘿"]%string.

Definition filler_words : list pystr :=
  map u ["就是"; "然后"; "那个"; "这个"; "怎么"; "为什么"; "可以"; "不要"; "不是"]%string.

(** The loop of [_derive_kw_from_text]; it stops once [k] candidates are
    collected. *)
Fixpoint derive_loop (k : Z) (cands : list pystr) (seqs : list pystr) : list pystr :=
  match seqs with
  | [] => cands
  | s :: rest =>
      let s := py_strip s in
      if negb (str_truthy s) then derive_loop k cands rest
      else if str_in s _STOP_TOKENS then derive_loop k cands rest
      else if Z.of_nat (length s) <? 2 then derive_loop k cands rest
      else if str_in s filler_words then derive_loop k cands rest
      else
        let cands := if str_in s cands then cands else cands ++ [s] in
        if k <=? Z.of_nat (length cands) then cands else derive_loop k cands rest
  end.

Definition _derive_kw_from_text (text : pystr) (k : Z) : pystr :=
  let t := py_strip text in
  if negb (str_truthy t) then []
  else
    match derive_loop k [] (cjk_runs [] t) with
    | [] => []
    | cands => str_join (u ",") cands
    end.

Definition _EMO_MARKERS : list pystr :=
  map u ["哥哥"; "类"; "喵"; "猫咪"; "小猫咪"; "宝宝"; "亲"; "抱"; "mua"; "啾"; "嘿嘿";
         "🥺"; "😙"; "😗"; "😽"; "😭"; "🥰"; "💖"; "🖤"]%string.

Definition _is_emo_chitchat (text : pystr) : bool :=
  let t := py_strip text in
  if negb (str_truthy t) then false
  else existsb (fun m => str_contains m t) _EMO_MARKERS.

Definition _truncate_ctx (cfg : config) (text : pystr) : pystr :=
  let t := str_replace [13] [] (py_strip text) in
  if negb (str_truthy t) then []
  else if Z.of_nat (length t) <=? CTX_MAX cfg then t
  else rstrip_by py_isspace (slice_to t (CTX_MAX cfg)) ++ u "…".

Definition _compute_grounding_mode (evidence : list evidence) : pystr :=
  match evidence with
  | [] => u "none"
  | first :: _ =>
      let top1 := ev_score_final first in
      let valid_evidence_count :=
        Z.of_nat (length (List.filter (fun ev => str_truthy (py_strip (ev_text ev)))
                                      evidence)) in
      if flt top1 0.45%float && (valid_evidence_count <? 2) then u "weak"
      else u "strong"
  end.

(** Remove duplicates, keeping first occurrences. *)
Fixpoint uniq_strings (seen : list pystr) (parts : list pystr) : list pystr :=
  match parts with
  | [] => []
  | p :: rest =>
      if str_in p seen then uniq_strings seen rest
      else p :: uniq_strings (seen ++ [p]) rest
  end.

Definition _normalize_kw (keyword : pystr) : pystr :=
  let kw := py_strip keyword in
  if negb (str_truthy kw) then []
  else
    let kw := str_replace (u "；") (u ",")
                (str_replace (u ";") (u ",") (str_replace (u "，") (u ",") kw)) in
    let parts := List.filter str_truthy (map py_strip (split_on 44 [] kw)) in
    str_join (u ",") (uniq_strings [] parts).

(* ================================================================== *)
(** * routes_gateway_ctx.py: retrieval responses and candidates *)
(* ================================================================== *)

(** What [_extract_outputs] returns. *)
Record outputs := {
  o_result : pystr;
  o_chat_text : pystr;
  o_vector_candidates : list pyval
}.

Definition as_dict (v : pyval) : option py_dict :=
  match v with PDict d => Some d | _ => None end.

(** The record [_build_evidence_item] returns ([score_raw] and
    [score_final] are the constant 1.0). *)
Record evidence_item := {
  ei_id : pystr;
  ei_source_type : pystr;
  ei_source_id : pystr;
  ei_text : pystr;
  ei_reason : pystr;
  ei_ts : Z;
  ei_source_name : pystr;
  ei_keyword_used : pystr;
  ei_chunk_id : pystr
}.

Definition _build_evidence_item (index : nat) (source_type source_id text keyword_used : pystr)
    (ts : Z) : evidence_item :=
  {| ei_id := u "ev_" ++ Z_to_pystr (Z.of_nat index);
     ei_source_type := source_type;
     ei_source_id := source_id;
     ei_text := text;
     ei_reason := if pystr_eqb source_type (u "keyword")
                  then u "keyword_hit" else u "fallback_hit";
     ei_ts := ts;
     ei_source_name := u "anchor_rag";
     ei_keyword_used := keyword_used;
     ei_chunk_id := [] |}.

Definition _build_gateway_evidence (now_ts : Z)
    (primary_keyword primary_text fallback_keyword fallback_text : pystr)
  : list evidence_item :=
  let evidence :=
    if str_truthy primary_text
    then [_build_evidence_item 0 (u "keyword") primary_keyword primary_text
            primary_keyword now_ts]
    else [] in
  if str_truthy fallback_text
  then evidence ++ [_build_evidence_item (length evidence) (u "fallback") fallback_keyword
                      fallback_text fallback_keyword now_ts]
  else evidence.

Definition int_type_error (v : pyval) : pyexn :=
  {| exn_kind := TypeError;
     exn_text := u "int() argument must be a string, a bytes-like object or a real number, not '"
                 ++ match v with
                    | PNone => u "NoneType" | PList _ => u "list" | _ => u "dict"
                    end
                 ++ u "'" |}.

(** The integer part of a float; [None] for NaN and the infinities. *)
Definition float_trunc (f : float) : option Z :=
  match Prim2SF f with
  | S754_zero _ => Some 0
  | S754_finite s m e =>
      let a := if 0 <=? e then Z.pos m * 2 ^ e else Z.pos m / 2 ^ (- e) in
      Some (if s then - a else a)
  | _ => None
  end.

Section AdaptersWithRuntime.
Context `{R : PyRuntime}.

(** [int(v)] *)
Definition py_int (v : pyval) : result Z :=
  match v with
  | PInt z => Ok z
  | PBool b => Ok (if b then 1 else 0)
  | PFloat f =>
      match float_trunc f with
      | Some z => Ok z
      | None =>
          match Prim2SF f with
          | S754_nan =>
              Raise {| exn_kind := ValueError;
                       exn_text := u "cannot convert float NaN to integer" |}
          | _ =>
              Raise {| exn_kind := OverflowError;
                       exn_text := u "cannot convert float infinity to integer" |}
          end
      end
  | PStr s =>
      match int_of_str s with
      | Some z => Ok z
      | None => Raise {| exn_kind := ValueError;
                         exn_text := u "invalid literal for int() with base 10: '"
                                     ++ s ++ u "'" |}
      end
  | v => Raise (int_type_error v)
  end.

Definition _extract_outputs (dify_resp : pyval) : outputs :=
  let outs : py_dict :=
    match dify_resp with
    | PDict resp =>
        match as_dict (dict_get resp (u "data")) with
        | Some data =>
            match as_dict (dict_get data (u "outputs")) with
            | Some o => o
            | None =>
                match as_dict (dict_get resp (u "outputs")) with
                | Some o => o
                | None => []
                end
            end
        | None =>
            match as_dict (dict_get resp (u "outputs")) with
            | Some o => o
            | None => []
            end
        end
    | _ => []
    end in
  {| o_result := py_str (py_or (dict_get outs (u "result")) (PStr []));
     o_chat_text := py_str (py_or (dict_get outs (u "chat_text")) (PStr []));
     o_vector_candidates :=
       match dict_get outs (u "vector_candidates") with
       | PList l => l
       | _ => []
       end |}.

(** [_adapt_keyword_candidates]: the items carry no [score], [keyword],
    [chunk_id] or [metadata] key, so these read as absent. *)
Definition _adapt_keyword_candidates (now_ts : Z) (raw_candidates : list evidence_item)
  : list candidate :=
  imap
    (fun idx item =>
       let score := _safe_float PNone 1.0 in
       {| c_id := str_or (ei_id item) (u "kw_" ++ Z_to_pystr (Z.of_nat idx));
          c_source_type := u "keyword";
          c_source_id := ei_source_id item;
          c_text := ei_text item;
          c_chunk_id := [];
          c_metadata := PDict [];
          c_reason := PStr (str_or (ei_reason item) (u "keyword_hit"));
          c_ts := if ei_ts item =? 0 then now_ts else ei_ts item;
          c_keyword := score;
          c_vector := 0.0 |})
    raw_candidates.

(** [a or b or c] *)
Definition py_or3 (a b c : pyval) : pyval := py_or a (py_or b c).

(** The loop of [_adapt_vector_candidates]; entries that are not
    dictionaries are skipped, [idx] counts them all the same. *)
Fixpoint adapt_vector_loop (now_ts : Z) (idx : nat) (raw_candidates : list pyval)
  : result (list candidate) :=
  match raw_candidates with
  | [] => Ok []
  | PDict item :: rest =>
      let doc_id := py_str (py_or (dict_get item (u "doc_id"))
                             (py_or3 (dict_get item (u "document_id"))
                                     (dict_get item (u "id")) (PStr []))) in
      let chunk_id := py_str (py_or3 (dict_get item (u "chunk_id"))
                                     (dict_get item (u "segment_id")) (PStr [])) in
      let text := py_str (py_or3 (dict_get item (u "text"))
                                 (dict_get item (u "content")) (PStr [])) in
      let score := _safe_float (dict_get item (u "score")) 0.0 in
      ts ← py_int (py_or (dict_get item (u "ts")) (PInt now_ts));
      tail ← adapt_vector_loop now_ts (S idx) rest;
      Ok ({| c_id := u "vec_" ++ Z_to_pystr (Z.of_nat idx);
             c_source_type := u "vector";
             c_source_id := doc_id;
             c_text := text;
             c_chunk_id := chunk_id;
             c_metadata := py_or (dict_get item (u "metadata")) (PDict []);
             c_reason := py_or (dict_get item (u "reason")) (PStr (u "vector_hit"));
             c_ts := ts;
             c_keyword := 0.0;
             c_vector := score |} :: tail)
  | _ :: rest => adapt_vector_loop now_ts (S idx) rest
  end.

Definition _adapt_vector_candidates (now_ts : Z) (raw_candidates : list pyval)
  : result (list candidate) :=
  adapt_vector_loop now_ts 0 raw_candidates.

(** [_parse_iso_ts]; [now_ts] stands for [int(time.time())]. *)
Definition _parse_iso_ts (now_ts : Z) (created_at : pystr) : Z :=
  if negb (str_truthy created_at) then now_ts
  else match iso_timestamp (str_replace (u "Z") (u "+00:00") created_at) with
       | Some ts => ts
       | None => now_ts
       end.

(** [v.get(...)] on a value that must be a dictionary. *)
Definition need_dict (v : pyval) : result py_dict :=
  match v with
  | PDict d => Ok d
  | v => Raise (no_attribute v (u "get"))
  end.

(** One turn of [for source_type in ("s4", "s60")]. *)
Definition summary_candidate (now_ts : Z) (summaries : py_dict) (source_type upper : pystr)
  : result (list candidate) :=
  item ← need_dict (py_or (dict_get summaries source_type) (PDict []));
  let summary := dict_get item (u "summary") in
  if negb (truthy summary) then Ok []
  else
    Ok [{| c_id := source_type ++ u "_0";
           c_source_type := source_type;
           c_source_id := source_type;
           c_text := py_str summary;
           c_chunk_id := [];
           c_metadata :=
             PDict [(u "source_name", PStr (u "memory_summary"));
                    (u "range", py_or (dict_get item (u "range")) (PList []));
                    (u "model", py_or (dict_get item (u "model")) (PStr []))];
           c_reason := PStr (u "来自" ++ upper ++ u "的事实约束");
           c_ts := _parse_iso_ts now_ts
                     (py_str (py_or (dict_get item (u "created_at")) (PStr [])));
           c_keyword := 0.0;
           c_vector := 0.0 |}].

Definition _build_summary_candidates (now_ts : Z) (summaries : py_dict) (text : pystr)
  : result (list candidate) :=
  let out :=
    if str_truthy text
    then [{| c_id := u "input_0";
             c_source_type := u "current_input";
             c_source_id := u "current_input";
             c_text := text;
             c_chunk_id := [];
             c_metadata := PDict [(u "source_name", PStr (u "gateway_input"))];
             c_reason := PStr (u "当前输入事实优先");
             c_ts := now_ts;
             c_keyword := 0.0;
             c_vector := 0.0 |}]
    else [] in
  s4 ← summary_candidate now_ts summaries (u "s4") (u "S4");
  s60 ← summary_candidate now_ts summaries (u "s60") (u "S60");
  Ok (out ++ s4 ++ s60).

End AdaptersWithRuntime.

(* ================================================================== *)
(** * routes_gateway_ctx.py: the context cache and the JSON-RPC handler *)
(* ================================================================== *)

(** The result object [res_obj].  The error path builds it without the
    retrieval fields and with [error]. *)
Record res_obj := {
  r_keyword : pystr;
  r_keyword_primary : pystr;
  r_keyword_used : pystr;
  r_ctx : option pystr;
  r_raw : option outputs;
  r_evidence : option (list evidence);
  r_used_evidence_ids : option (list pystr);
  r_retrieval_profile_version : pystr;
  r_ms_dify_primary : option float;
  r_ms_dify_used : option float;
  r_error : option pystr;
  r_cache_hit : bool;
  r_cache_miss_reason : pystr;
  r_grounding_mode : pystr
}.

(** A cache entry [(stored_at, snippet, res_obj)]. *)
Record cache_entry := {
  stored_at : float;
  snippet : pystr;
  cached_result : res_obj
}.

(** [_cache]: a dictionary, in insertion order. *)
Abbreviation cache := (list (list Z * cache_entry)) (only parsing).

Fixpoint cache_get (c : cache) (key : pystr) : option cache_entry :=
  match c with
  | [] => None
  | (k, e) :: c' => if pystr_eqb k key then Some e else cache_get c' key
  end.

(** [_cache[key] = entry] *)
Fixpoint cache_put (c : cache) (key : pystr) (entry : cache_entry) : cache :=
  match c with
  | [] => [(key, entry)]
  | (k, e) :: c' =>
      if pystr_eqb k key then (k, entry) :: c' else (k, e) :: cache_put c' key entry
  end.

(** [_cache.pop(key, None)] *)
Definition cache_pop (c : cache) (key : pystr) : cache :=
  List.filter (fun ke => negb (pystr_eqb (fst ke) key)) c.

(** [min(_cache.items(), key=lambda kv: kv[1][0])[0]]: the first entry
    with the least time stamp. *)
Definition oldest_key (c : cache) : option pystr :=
  match c with
  | [] => None
  | first :: rest =>
      Some (fst (fold_left
                   (fun best kv =>
                      if flt (stored_at (snd kv)) (stored_at (snd best)) then kv else best)
                   rest first))
  end.

(** The eviction after a write. *)
Definition evict_if_over (cfg : config) (c : cache) : cache :=
  if MAX_CACHE_SIZE cfg <? Z.of_nat (length c)
  then match oldest_key c with
       | Some k => cache_pop c k
       | None => c
       end
  else c.

Definition _has_cache_for_other_profile (c : cache) (user keyword profile_version : pystr)
  : bool :=
  let prefix := user ++ u "||" ++ keyword ++ u "||" in
  let legacy_key := user ++ u "||" ++ keyword in
  existsb
    (fun ke =>
       let key := fst ke in
       pystr_eqb key legacy_key
       || (is_prefix prefix key
           && (let other_profile := drop (length prefix) key in
               str_truthy other_profile
               && negb (pystr_eqb other_profile profile_version))))
    c.

(** What a request reads from outside the process: the clock, the timers
    and the retrieval service.  [w_http_post keyword user] is the POST of
    [_call_dify_anchor] with [raise_for_status] and [json]. *)
Record world := {
  w_now : float;
  w_now_write : float;
  w_now_ts : Z;
  w_clock : nat -> Z;
  w_ms_primary : float;
  w_ms_fallback : float;
  w_http_post : pystr -> pystr -> result pyval
}.

Definition _call_dify_anchor (cfg : config) (w : world) (keyword user : pystr)
  : result pyval :=
  if negb (str_truthy (DIFY_API_KEY cfg))
  then Raise {| exn_kind := RuntimeError;
                exn_text := u "Missing env DIFY_API_KEY (or DIFY_WORKFLOW_API_KEY)" |}
  else w_http_post w keyword user.

Record debug_fields := {
  d_cache_hit : bool;
  d_cache_miss_reason : pystr;
  d_keyword_primary : pystr;
  d_keyword_used : pystr;
  d_grounding_mode : pystr
}.

Definition _debug_fields (cache_hit : bool) (cache_miss_reason keyword_primary keyword_used : pystr)
    (evidence : list evidence) : debug_fields :=
  {| d_cache_hit := cache_hit;
     d_cache_miss_reason := cache_miss_reason;
     d_keyword_primary := keyword_primary;
     d_keyword_used := keyword_used;
     d_grounding_mode := _compute_grounding_mode evidence |}.

(** [res_obj.update(debug)] *)
Definition update_debug (r : res_obj) (d : debug_fields) : res_obj :=
  {| r_keyword := r_keyword r;
     r_keyword_primary := d_keyword_primary d;
     r_keyword_used := d_keyword_used d;
     r_ctx := r_ctx r; r_raw := r_raw r; r_evidence := r_evidence r;
     r_used_evidence_ids := r_used_evidence_ids r;
     r_retrieval_profile_version := r_retrieval_profile_version r;
     r_ms_dify_primary := r_ms_dify_primary r;
     r_ms_dify_used := r_ms_dify_used r;
     r_error := r_error r;
     r_cache_hit := d_cache_hit d;
     r_cache_miss_reason := d_cache_miss_reason d;
     r_grounding_mode := d_grounding_mode d |}.

Definition set_profile_version (r : res_obj) (v : pystr) : res_obj :=
  {| r_keyword := r_keyword r;
     r_keyword_primary := r_keyword_primary r;
     r_keyword_used := r_keyword_used r;
     r_ctx := r_ctx r; r_raw := r_raw r; r_evidence := r_evidence r;
     r_used_evidence_ids := r_used_evidence_ids r;
     r_retrieval_profile_version := v;
     r_ms_dify_primary := r_ms_dify_primary r;
     r_ms_dify_used := r_ms_dify_used r;
     r_error := r_error r;
     r_cache_hit := r_cache_hit r;
     r_cache_miss_reason := r_cache_miss_reason r;
     r_grounding_mode := r_grounding_mode r |}.

(** The MCP tool result of [_mcp_wrap_text]:
    [{"content": [{"type": "text", "text": ...}], "isError": ..., "data": ...}] *)
Record tool_result := {
  content_text : pystr;
  isError : bool;
  data : res_obj
}.

Definition _mcp_wrap_text (res : res_obj) (text_out : pystr) (is_error : bool) : tool_result :=
  {| content_text := text_out; isError := is_error; data := res |}.

Inductive rpc_payload :=
| InitializeResult (protocolVersion : pystr)
| ToolsListResult
| ToolCallResult (t : tool_result).

Inductive rpc_response :=
| RpcResult (id : pyval) (payload : rpc_payload)
| RpcError (id : pyval) (code : Z) (message : pystr).

Definition _jsonrpc_result (_id : pyval) (payload : rpc_payload) : rpc_response :=
  RpcResult _id payload.

Definition _jsonrpc_error (_id : pyval) (code : Z) (message : pystr) : rpc_response :=
  RpcError _id code message.

Definition SUPPORTED_VERSIONS : list pystr :=
  map u ["2025-11-25"; "2025-06-18"; "2025-03-26"; "2024-11-05"; "2024-10-07"]%string.

Definition default_pv (cfg : config) : pystr :=
  if str_in (DEFAULT_MCP_PROTOCOL_VERSION cfg) SUPPORTED_VERSIONS
  then DEFAULT_MCP_PROTOCOL_VERSION cfg else u "2025-06-18".

(** The emotional and the neutral fallback keyword. *)
Definition fallback_keyword_for (text : pystr) : pystr :=
  if _is_emo_chitchat text then u "哥哥,小猫咪" else u "哥哥,撒娇".

Section HandlerWithRuntime.
Context `{R : PyRuntime}.

(** [header_pv] is the request header [MCP-Protocol-Version] (empty when
    absent). *)
Definition _negotiate_protocol_version (cfg : config) (header_pv : pystr) (params : py_dict)
  : pystr :=
  let pv := py_strip (py_str (py_or (dict_get params (u "protocolVersion")) (PStr []))) in
  if str_truthy pv && str_in pv SUPPORTED_VERSIONS then pv
  else
    let hv := py_strip header_pv in
    if str_truthy hv && str_in hv SUPPORTED_VERSIONS then hv
    else default_pv cfg.

(** Steps 1.1 to 2 of the tool call: the primary keyword.  (Step 1.2 tests
    for a function [_is_garbage_kw] that the module does not define, and does
    nothing.) *)
Definition resolve_primary_keyword (cfg : config) (keyword text : pystr) : pystr :=
  let keyword :=
    if negb (str_truthy keyword)
       || (GARBLED_KW_REPAIR_ENABLED cfg && _looks_garbled_keyword keyword)
    then _derive_kw_from_text text 2
    else keyword in
  let keyword := if negb (str_truthy keyword) then fallback_keyword_for text else keyword in
  _normalize_kw keyword.

Definition cache_key_of (cfg : config) (user primary_keyword : pystr) : pystr :=
  user ++ u "||" ++ primary_keyword ++ u "||" ++ RETRIEVAL_PROFILE_VERSION cfg.

(** [cache_miss_reason], from the probe of the cache. *)
Definition miss_reason (cfg : config) (w : world) (c : cache) (user primary_keyword : pystr)
  : pystr :=
  match cache_get c (cache_key_of cfg user primary_keyword) with
  | Some hit =>
      if flt (CACHE_TTL_SECS cfg) (w_now w - stored_at hit)%float
      then u "expired" else u "bypassed"
  | None =>
      if _has_cache_for_other_profile c user primary_keyword (RETRIEVAL_PROFILE_VERSION cfg)
      then u "profile_changed" else u "not_found"
  end.

(** [(outs.get("result") or '').strip() or (outs.get("chat_text") or '').strip()] *)
Definition picked_text (outs : outputs) : pystr :=
  str_or (py_strip (o_result outs)) (py_strip (o_chat_text outs)).

(** The body of the [try] of the cache-miss path, up to the result object:
    the retrieval call, the fallback call, the candidates and the scoring. *)
Definition retrieval_attempt (cfg : config) (w : world)
    (text user : pystr) (summaries : py_dict)
    (primary_keyword cache_miss_reason : pystr) : result (pystr * res_obj) :=
  dify ← _call_dify_anchor cfg w primary_keyword user;
  let ms_dify := w_ms_primary w in
  let outs := _extract_outputs dify in
  let ctx := _truncate_ctx cfg (picked_text outs) in
  let primary_hit_text := ctx in
  second ←
    (if negb (str_truthy ctx) then
       let fallback_keyword := _normalize_kw (fallback_keyword_for text) in
       if str_truthy fallback_keyword && negb (pystr_eqb fallback_keyword primary_keyword)
       then
         dify2 ← _call_dify_anchor cfg w fallback_keyword user;
         let outs2 := _extract_outputs dify2 in
         let ctx2 := _truncate_ctx cfg (picked_text outs2) in
         if str_truthy ctx2
         then Ok (fallback_keyword, ctx2, fallback_keyword, ctx2, outs2, w_ms_fallback w)
         else Ok (fallback_keyword, [], primary_keyword, ctx, outs, ms_dify)
       else Ok (fallback_keyword, [], primary_keyword, ctx, outs, ms_dify)
     else Ok ([], [], primary_keyword, ctx, outs, ms_dify));
  let '(fallback_keyword, fallback_hit_text, used_keyword, ctx, outs, ms_dify_used) :=
    second in
  let keyword_candidates :=
    _build_gateway_evidence (w_now_ts w) primary_keyword primary_hit_text
      fallback_keyword fallback_hit_text in
  let keyword_unified := _adapt_keyword_candidates (w_now_ts w) keyword_candidates in
  let vector_unified :=
    match _adapt_vector_candidates (w_now_ts w) (o_vector_candidates outs) with
    | Ok l => l
    | Raise _ => []
    end in
  summary_unified ← _build_summary_candidates (w_now_ts w) summaries text;
  evidence ← _score_and_rank_candidates cfg (w_clock w)
               (keyword_unified ++ vector_unified ++ summary_unified)
               (RETRIEVAL_TOP_N cfg);
  let used_evidence_ids := List.filter str_truthy (map ev_id evidence) in
  let res :=
    {| r_keyword := used_keyword;
       r_keyword_primary := primary_keyword;
       r_keyword_used := used_keyword;
       r_ctx := Some ctx;
       r_raw := Some outs;
       r_evidence := Some evidence;
       r_used_evidence_ids := Some used_evidence_ids;
       r_retrieval_profile_version := RETRIEVAL_PROFILE_VERSION cfg;
       r_ms_dify_primary := Some (py_round 1 ms_dify);
       r_ms_dify_used := Some (py_round 1 ms_dify_used);
       r_error := None;
       r_cache_hit := false;
       r_cache_miss_reason := [];
       r_grounding_mode := [] |} in
  Ok (ctx, update_debug res
             (_debug_fields false cache_miss_reason primary_keyword used_keyword evidence)).

(** The result object of the [except] branch. *)
Definition error_result (cfg : config) (primary_keyword cache_miss_reason : pystr) (e : pyexn)
  : res_obj :=
  update_debug
    {| r_keyword := primary_keyword;
       r_keyword_primary := primary_keyword;
       r_keyword_used := primary_keyword;
       r_ctx := None; r_raw := None; r_evidence := None; r_used_evidence_ids := None;
       r_retrieval_profile_version := RETRIEVAL_PROFILE_VERSION cfg;
       r_ms_dify_primary := None; r_ms_dify_used := None;
       r_error := Some (exn_text e);
       r_cache_hit := false;
       r_cache_miss_reason := [];
       r_grounding_mode := [] |}
    (_debug_fields false cache_miss_reason primary_keyword primary_keyword []).

(** The arguments of the tool call:
    [str(arguments.get("keyword") or '').strip()] and the like. *)
Definition arg_keyword (arguments : py_dict) : pystr :=
  py_strip (py_str (py_or (dict_get arguments (u "keyword")) (PStr []))).
Definition arg_text (arguments : py_dict) : pystr :=
  py_strip (py_str (py_or (dict_get arguments (u "text")) (PStr []))).
Definition arg_user (arguments : py_dict) : pystr :=
  py_strip (py_str (py_or (dict_get arguments (u "user")) (PStr (u "mcp")))).
Definition arg_summaries (arguments : py_dict) : py_dict :=
  match dict_get arguments (u "summaries") with PDict d => d | _ => [] end.

(** The cache key of a request. *)
Definition request_cache_key (cfg : config) (arguments : py_dict) : pystr :=
  cache_key_of cfg (arg_user arguments)
    (resolve_primary_keyword cfg (arg_keyword arguments) (arg_text arguments)).

(** [hit and (now - hit[0] <= CACHE_TTL_SECS)]: the entry, when it is fresh. *)
Definition fresh_hit (cfg : config) (w : world) (c : cache) (cache_key : pystr)
  : option cache_entry :=
  match cache_get c cache_key with
  | Some hit =>
      if fle (w_now w - stored_at hit)%float (CACHE_TTL_SECS cfg) then Some hit else None
  | None => None
  end.

(** The tool call proper, from the arguments on: the new cache and the
    tool result. *)
Definition gateway_ctx_call (cfg : config) (w : world) (c : cache) (arguments : py_dict)
  : list (list Z * cache_entry) * tool_result :=
  let keyword := arg_keyword arguments in
  let text := arg_text arguments in
  let user := arg_user arguments in
  let summaries := arg_summaries arguments in
  let primary_keyword := resolve_primary_keyword cfg keyword text in
  let cache_key := cache_key_of cfg user primary_keyword in
  let cache_miss_reason := miss_reason cfg w c user primary_keyword in
  match fresh_hit cfg w c cache_key with
  | Some hit =>
      let ctx := snippet hit in
      let res := cached_result hit in
      let evidence_cached :=
        match r_evidence res with Some l => l | None => [] end in
      let debug := _debug_fields true cache_miss_reason primary_keyword
                     (str_or (r_keyword res) primary_keyword) evidence_cached in
      let res := update_debug
                   (set_profile_version res (RETRIEVAL_PROFILE_VERSION cfg)) debug in
      (* the cached dictionary itself is updated *)
      (cache_put c cache_key
         {| stored_at := stored_at hit; snippet := ctx; cached_result := res |},
       _mcp_wrap_text res ctx false)
  | None =>
      match retrieval_attempt cfg w text user summaries primary_keyword cache_miss_reason with
      | Ok (ctx, res) =>
          let c := cache_put c cache_key
                     {| stored_at := w_now_write w; snippet := ctx;
                        cached_result := res |} in
          (evict_if_over cfg c, _mcp_wrap_text res ctx false)
      | Raise e =>
          (c, _mcp_wrap_text (error_result cfg primary_keyword cache_miss_reason e)
                             (exn_text e) true)
      end
  end.

(** What handling one message leaves behind: the response (or the exception
    that escapes), the cache, and [request.state.mcp_pv] when it was set. *)
Record handled := {
  h_response : result (option rpc_response);
  h_cache : cache;
  h_pv : option pystr
}.

(** [None if is_notification else response] *)
Definition reply (is_notification : bool) (r : rpc_response) : option rpc_response :=
  if is_notification then None else Some r.

(** [msg.get("method", '')] *)
Definition msg_method (msg : py_dict) : pyval :=
  match dict_lookup msg (u "method") with Some m => m | None => PStr [] end.

(** [msg.get("params", {}) or {}], which must then answer [.get]. *)
Definition msg_params (msg : py_dict) : result py_dict :=
  need_dict (py_or (match dict_lookup msg (u "params") with
                    | Some p => p | None => PDict [] end)
                   (PDict [])).

(** [params.get("arguments", {}) or {}], which must then answer [.get]. *)
Definition call_arguments (params : py_dict) : result py_dict :=
  need_dict (py_or (match dict_lookup params (u "arguments") with
                    | Some a => a | None => PDict [] end)
                   (PDict [])).

Definition _handle_jsonrpc (cfg : config) (w : world) (header_pv : pystr) (c : cache)
    (msg : py_dict) : handled :=
  let _id := dict_get msg (u "id") in
  let method := msg_method msg in
  let is_notification := negb (dict_has msg (u "id")) in
  match msg_params msg with
  | Raise e => {| h_response := Raise e; h_cache := c; h_pv := None |}
  | Ok params =>
      let pv := _negotiate_protocol_version cfg header_pv params in
      let done r c := {| h_response := Ok (reply is_notification r);
                         h_cache := c; h_pv := Some pv |} in
      if val_is_str method (u "initialize") then
        done (_jsonrpc_result _id (InitializeResult pv)) c
      else if val_is_str method (u "tools/list") then
        done (_jsonrpc_result _id ToolsListResult) c
      else if negb (val_is_str method (u "tools/call")) then
        done (_jsonrpc_error _id (-32601) (u "Method not found: " ++ py_str method)) c
      else
        let name := dict_get params (u "name") in
        if negb (val_is_str name (u "gateway_ctx")) then
          done (_jsonrpc_error _id (-32601) (u "Unknown tool: " ++ py_str name)) c
        else
          match call_arguments params with
          | Raise e => {| h_response := Raise e; h_cache := c; h_pv := Some pv |}
          | Ok arguments =>
              let '(c', t) := gateway_ctx_call cfg w c arguments in
              done (_jsonrpc_result _id (ToolCallResult t)) c'
          end
  end.

(** ** The HTTP endpoint *)

Inductive http_body :=
| NoBody
| InfoBody
| RpcBody (r : rpc_response)
| BatchBody (rs : list rpc_response).

Record http_response := {
  status_code : Z;
  mcp_protocol_version : pystr;
  body : http_body
}.

(** An incoming request: the method, the header [MCP-Protocol-Version], and
    the decoded JSON body ([None] when decoding fails). *)
Record http_request := {
  req_method : pystr;
  req_header_pv : pystr;
  req_json : option pyval
}.

(** The loop over a batch; [worlds i] is what message [i] reads from
    outside.  The state is the cache, [request.state.mcp_pv] and the
    results; an exception that escapes ends the loop and leaves the cache as
    it then is. *)
Fixpoint handle_batch (cfg : config) (worlds : nat -> world) (header_pv : pystr)
    (i : nat) (msgs : list pyval)
    (c : list (list Z * cache_entry)) (pv : option (list Z)) (results : list rpc_response)
  : list (list Z * cache_entry) * option (list Z) * result (list rpc_response) :=
  match msgs with
  | [] => (c, pv, Ok results)
  | PDict msg :: rest =>
      let h := _handle_jsonrpc cfg (worlds i) header_pv c msg in
      let pv := match h_pv h with Some p => Some p | None => pv end in
      match h_response h with
      | Raise e => (h_cache h, pv, Raise e)
      | Ok r =>
          let results := match r with Some r => results ++ [r] | None => results end in
          handle_batch cfg worlds header_pv (S i) rest (h_cache h) pv results
      end
  | _ :: rest => handle_batch cfg worlds header_pv (S i) rest c pv results
  end.

Definition pv_or_default (cfg : config) (pv : option pystr) : pystr :=
  match pv with Some p => p | None => default_pv cfg end.

(** [gateway_ctx_mcp]: the response, or the exception that escapes the
    handler, and the cache afterwards. *)
Definition gateway_ctx_mcp (cfg : config) (worlds : nat -> world) (c : cache)
    (request : http_request) : result http_response * cache :=
  if str_in (req_method request) [u "GET"; u "OPTIONS"] then
    (Ok {| status_code := 200; mcp_protocol_version := default_pv cfg; body := InfoBody |}, c)
  else
    match req_json request with
    | None =>
        (Ok {| status_code := 200; mcp_protocol_version := default_pv cfg;
               body := RpcBody (_jsonrpc_error PNone (-32700) (u "Parse error")) |}, c)
    | Some (PList msgs) =>
        match handle_batch cfg worlds (req_header_pv request) 0 msgs c None [] with
        | (c', pv, Ok results) =>
            (Ok {| status_code := 200; mcp_protocol_version := pv_or_default cfg pv;
                   body := BatchBody results |}, c')
        | (c', _, Raise e) => (Raise e, c')
        end
    | Some v =>
        let msg := match v with PDict d => d | _ => [] end in
        let h := _handle_jsonrpc cfg (worlds 0%nat) (req_header_pv request) c msg in
        match h_response h with
        | Raise e => (Raise e, h_cache h)
        | Ok None =>
            (Ok {| status_code := 204;
                   mcp_protocol_version := pv_or_default cfg (h_pv h);
                   body := NoBody |}, h_cache h)
        | Ok (Some resp) =>
            (Ok {| status_code := 200;
                   mcp_protocol_version := pv_or_default cfg (h_pv h);
                   body := RpcBody resp |}, h_cache h)
        end
    end.

End HandlerWithRuntime.

(* ================================================================== *)
(** * A reference runtime, to run the definitions on examples *)
(* ================================================================== *)

(** Encoders as in CPython: Latin-1 maps U+0000..U+00FF to the byte of the
    same value; CP-1252 differs on the bytes 0x80..0x9F. *)
Definition latin1_encode (s : pystr) : option (list Z) :=
  if forallb (in_range 0 255) s then Some s else None.

Definition cp1252_high : list (Z * Z) :=
  [(8364, 128); (8218, 130); (402, 131); (8222, 132); (8230, 133); (8224, 134);
   (8225, 135); (710, 136); (8240, 137); (352, 138); (8249, 139); (338, 140);
   (381, 142); (8216, 145); (8217, 146); (8220, 147); (8221, 148); (8226, 149);
   (8211, 150); (8212, 151); (732, 152); (8482, 153); (353, 154); (8250, 155);
   (339, 156); (382, 158); (376, 159)].

Definition cp1252_encode_char (c : Z) : option Z :=
  if in_range 0 127 c || in_range 160 255 c then Some c
  else match List.find (fun p => fst p =? c) cp1252_high with
       | Some p => Some (snd p)
       | None => None
       end.

Definition cp1252_encode (s : pystr) : option (list Z) :=
  mapM cp1252_encode_char s.

Definition is_cont (b : Z) : bool := in_range 128 191 b.

(** One step of the UTF-8 decoder: the code point read (or [None] for an
    ill-formed sequence) and the number of bytes it spans. *)
Definition utf8_step (bs : list Z) : option Z * nat :=
  match bs with
  | [] => (None, 0%nat)
  | b1 :: r1 =>
      if b1 <? 128 then (Some b1, 1%nat)
      else if b1 <? 194 then (None, 1%nat)
      else if b1 <? 224 then
        match r1 with
        | b2 :: _ =>
            if is_cont b2 then (Some ((b1 - 192) * 64 + (b2 - 128)), 2%nat)
            else (None, 1%nat)
        | [] => (None, 1%nat)
        end
      else if b1 <? 240 then
        let lo := if b1 =? 224 then 160 else 128 in
        let hi := if b1 =? 237 then 159 else 191 in
        match r1 with
        | b2 :: r2 =>
            if in_range lo hi b2 then
              match r2 with
              | b3 :: _ =>
                  if is_cont b3
                  then (Some (((b1 - 224) * 64 + (b2 - 128)) * 64 + (b3 - 128)), 3%nat)
                  else (None, 2%nat)
              | [] => (None, 2%nat)
              end
            else (None, 1%nat)
        | [] => (None, 1%nat)
        end
      else if b1 <? 245 then
        let lo := if b1 =? 240 then 144 else 128 in
        let hi := if b1 =? 244 then 143 else 191 in
        match r1 with
        | b2 :: r2 =>
            if in_range lo hi b2 then
              match r2 with
              | b3 :: r3 =>
                  if is_cont b3 then
                    match r3 with
                    | b4 :: _ =>
                        if is_cont b4
                        then (Some ((((b1 - 240) * 64 + (b2 - 128)) * 64
                                      + (b3 - 128)) * 64 + (b4 - 128)), 4%nat)
                        else (None, 3%nat)
                    | [] => (None, 3%nat)
                    end
                  else (None, 2%nat)
              | [] => (None, 2%nat)
              end
            else (None, 1%nat)
        | [] => (None, 1%nat)
        end
      else (None, 1%nat)
  end.

Fixpoint utf8_decode_fuel (fuel : nat) (errors : decode_errors) (bs : list Z)
  : option pystr :=
  match fuel with
  | O => Some []
  | S k =>
      match bs with
      | [] => Some []
      | _ =>
          let '(cp, n) := utf8_step bs in
          match cp, errors with
          | Some c, _ => option_map (cons c) (utf8_decode_fuel k errors (skipn n bs))
          | None, Replace =>
              option_map (cons 65533) (utf8_decode_fuel k errors (skipn n bs))
          | None, Strict => None
          end
      end
  end.

Definition utf8_decode (errors : decode_errors) (bs : list Z) : option pystr :=
  utf8_decode_fuel (length bs) errors bs.

(** ASCII decimal parsing: an optional sign followed by digits. *)
Definition digits_value (ds : pystr) : option Z :=
  match ds with
  | [] => None
  | _ =>
      if forallb (in_range 48 57) ds
      then Some (fold_left (fun acc d => acc * 10 + (d - 48)) ds 0)
      else None
  end.

Definition ascii_int_of_str (s : pystr) : option Z :=
  match py_strip s with
  | 45 :: ds => option_map Z.opp (digits_value ds)
  | 43 :: ds => digits_value ds
  | ds => digits_value ds
  end.

(** The reference runtime: exact on text made of ASCII, kana (U+3041..U+3096,
    U+30A1..U+30FA) and CJK ideographs (case mapping and word characters of
    other scripts are not reproduced), with the real Latin-1, CP-1252 and
    UTF-8 codecs; [str()] of compound values yields a placeholder, only
    integer literals are parsed as numbers, and no ISO timestamp is parsed. *)
#[export] Instance reference_runtime : PyRuntime := {|
  unicode_lower := map (fun c => if in_range 65 90 c then c + 32 else c);
  unicode_is_word := fun c =>
    in_range 48 57 c || in_range 65 90 c || in_range 97 122 c || (c =? 95)
    || in_range 12353 12438 c || in_range 12449 12538 c || is_cjk c;
  str_encode := fun src s =>
    match src with Latin1 => latin1_encode s | Cp1252 => cp1252_encode s end;
  bytes_decode_utf8 := utf8_decode;
  str_of_compound := fun _ => u "<value>";
  int_of_str := ascii_int_of_str;
  float_of_str := fun s =>
    option_map (fun z => SF2Prim (binary_normalize prec emax z 0 false))
               (ascii_int_of_str s);
  iso_timestamp := fun _ => None
|}.

(* ================================================================== *)
(** * Example data *)
(* ================================================================== *)

(** A retrieval service that is down. *)
Definition service_unavailable : pyexn :=
  {| exn_kind := HTTPError; exn_text := u "Server error '503 Service Unavailable'" |}.

Definition failing_world : world := {|
  w_now := 200%float;
  w_now_write := 201%float;
  w_now_ts := 200;
  w_clock := fun _ => 200;
  w_ms_primary := 12.5%float;
  w_ms_fallback := 7.5%float;
  w_http_post := fun _ _ => Raise service_unavailable
|}.

(** A retrieval response with a snippet and one vector candidate whose
    timestamp is an ISO date, not a number. *)
Definition response_with_iso_ts : pyval :=
  PDict [(u "data",
          PDict [(u "outputs",
                  PDict [(u "result", PStr (u "喵~ 今天也要抱抱"));
                         (u "vector_candidates",
                          PList [PDict [(u "doc_id", PStr (u "doc-1"));
                                        (u "text", PStr (u "猫咪喜欢晒太阳"));
                                        (u "score", PFloat 0.8);
                                        (u "ts", PStr (u "2024-05-01T10:00:00Z"))]])])])].

Definition answering_world : world := {|
  w_now := 200%float;
  w_now_write := 201%float;
  w_now_ts := 200;
  w_clock := fun _ => 200;
  w_ms_primary := 12.5%float;
  w_ms_fallback := 7.5%float;
  w_http_post := fun _ _ => Ok response_with_iso_ts
|}.

Definition example_arguments : list (list Z * pyval) :=
  [(u "keyword", PStr (u "猫咪,晒太阳")); (u "text", PStr (u "猫咪今天晒太阳了吗"));
   (u "user", PStr (u "alice"))].

Definition example_params : list (list Z * pyval) :=
  [(u "name", PStr (u "gateway_ctx")); (u "arguments", PDict example_arguments)].

(** A [tools/call] request for [gateway_ctx]. *)
Definition example_call : list (list Z * pyval) :=
  [(u "jsonrpc", PStr (u "2.0")); (u "id", PInt 7); (u "method", PStr (u "tools/call"));
   (u "params", PDict example_params)].

(** The entry an earlier call left under the key of [example_call], written
    at time 100. *)
Definition stale_entry : cache_entry := {|
  stored_at := 100%float;
  snippet := u "喵~";
  cached_result :=
    {| r_keyword := u "猫咪,晒太阳";
       r_keyword_primary := u "猫咪,晒太阳";
       r_keyword_used := u "猫咪,晒太阳";
       r_ctx := Some (u "喵~");
       r_raw := None;
       r_evidence := Some [];
       r_used_evidence_ids := Some [];
       r_retrieval_profile_version := u "v1.0.0";
       r_ms_dify_primary := Some 10%float;
       r_ms_dify_used := Some 10%float;
       r_error := None;
       r_cache_hit := false;
       r_cache_miss_reason := u "not_found";
       r_grounding_mode := u "none" |}
|}.

Definition stale_cache : list (list Z * cache_entry) :=
  [(u "alice||猫咪,晒太阳||v1.0.0", stale_entry)].

(** Notifications: messages without [id]. *)
Definition initialized_notification : pyval :=
  PDict [(u "jsonrpc", PStr (u "2.0")); (u "method", PStr (u "notifications/initialized"))].

Definition initialize_request : pyval :=
  PDict [(u "jsonrpc", PStr (u "2.0")); (u "id", PInt 1); (u "method", PStr (u "initialize"))].

Definition post_request (json : pyval) : http_request :=
  {| req_method := u "POST"; req_header_pv := []; req_json := Some json |}.

(** A thread in which only one of two tool calls was answered. *)
Definition assistant_two_calls : pyval :=
  PDict [(u "role", PStr (u "assistant")); (u "content", PNone);
         (u "tool_calls", PList [PDict [(u "id", PStr (u "call_a"))];
                                 PDict [(u "id", PStr (u "call_b"))]])].

Definition tool_answer_a : pyval :=
  PDict [(u "role", PStr (u "tool")); (u "tool_call_id", PStr (u "call_a"));
         (u "content", PStr (u "42"))].

Definition user_follow_up : pyval :=
  PDict [(u "role", PStr (u "user")); (u "content", PStr (u "thanks"))].

(** A summary whose [state] carries a phrase banned from [goal]. *)
Definition summary_with_banned_state : pyval :=
  PDict [(u "goal", PStr (u "倾诉近况"));
         (u "state", PStr (u "用户寻求经济帮助"));
         (u "open_loops", PList []); (u "constraints", PList []);
         (u "tone_notes", PList [])].

(** A summary in which cutting a banned phrase joins its surroundings into
    the same phrase. *)
Definition summary_with_nested_goal : pyval :=
  PDict [(u "goal", PStr (u "寻求经济寻求经济帮助帮助"));
         (u "state", PStr (u "闲聊"))].

(** A transcript with no help-seeking phrase. *)
Definition plain_transcript : list Z := u "最近手头有点紧，不过我自己能解决".

(** Candidates: a keyword hit, a vector hit with nearly the same text, two
    vector hits of one chunk, and two texts without any token. *)
Definition example_candidate (id source_type source_id text chunk_id : string)
    (keyword vector : float) : candidate :=
  {| c_id := u id; c_source_type := u source_type; c_source_id := u source_id;
     c_text := u text; c_chunk_id := u chunk_id; c_metadata := PDict [];
     c_reason := PStr (u "hit"); c_ts := 100;
     c_keyword := keyword; c_vector := vector |}.

Definition example_candidates : list candidate :=
  [example_candidate "kw_0" "keyword" "猫咪" "小猫咪 喜欢 睡觉 hello world" EmptyString 1 0;
   example_candidate "vec_0" "vector" "doc1" "小猫咪 喜欢 睡觉 hello world!" "c1" 0 0.9;
   example_candidate "vec_1" "vector" "doc1" "other text entirely" "c1" 0 0.5;
   example_candidate "vec_2" "vector" "doc2" "!!!" "c1" 0 0.5;
   example_candidate "vec_3" "vector" "doc3" EmptyString "c1" 0 0.2;
   example_candidate "input_0" "current_input" "current_input" "我想聊聊猫咪" EmptyString 0 0].

(** Two greetings written in hiragana, from different documents. *)
Definition kana_candidates : list candidate :=
  [example_candidate "vec_0" "vector" "doc1" "こんにちは" "c1" 0 0.9;
   example_candidate "vec_1" "vector" "doc2" "さようなら" "c1" 0 0.5].


(* ================================================================== *)
(** * Notions used in the statements and in the proofs *)
(* ================================================================== *)

(** A float that is a number: any value but NaN. *)
Definition is_number (x : float) : Prop := fval x <> None.

(** A scored record whose key compares consistently: its score and its
    recency are numbers. *)
Definition ranked_ok (ev : evidence) : Prop :=
  is_number (ev_score_final ev) /\ is_number (sr_recency (ev_score_raw ev)).

(** Scores that never increase along the list. *)
Definition score_desc (l : list evidence) : Prop :=
  StronglySorted (fun a b => flt (ev_score_final a) (ev_score_final b) = false) l.

(** Two records that differ at most in the bookkeeping of their [meta]. *)
Definition same_record (a b : evidence) : Prop :=
  ev_source_id a = ev_source_id b
  /\ ev_text a = ev_text b
  /\ ev_score_final a = ev_score_final b
  /\ dict_get (ev_meta a) (u "chunk_id") = dict_get (ev_meta b) (u "chunk_id").

(** Token sets that are pairwise no near duplicates. *)
Definition far (a b : gset pystr) : Prop := near_duplicate a b = false.

Section NotionsWithRuntime.
Context `{R : PyRuntime}.

(** The tokens as the specification words them: the runs of [a-z0-9] and the
    single CJK code points of the normalized text, and nothing else. *)
Definition tokens_as_specified (text : pystr) : gset pystr :=
  list_to_set (find_tokens [] (_normalize_text_for_dedupe text)).

(** The token set of a record. *)
Definition tokens_of (ev : evidence) : gset pystr := _tokenize_for_jaccard (ev_text ev).

(** Every record of [by_source_chunk] is found in [key_index] at its own
    position. *)
Definition keys_indexed (bsc : list evidence) (ki : gmap (pystr * pystr) nat) : Prop :=
  forall i b, bsc !! i = Some b -> ki !! dedupe_key b = Some i.

(** What step 1 maintains: the list is, record for record, a subsequence of
    the records passed so far, and the index is accurate. *)
Definition key_dedupe_inv (pre : list evidence)
    (st : list evidence * gmap (pystr * pystr) nat) : Prop :=
  (exists sub, sublist sub pre /\ Forall2 same_record (fst st) sub)
  /\ keys_indexed (fst st) (snd st).

(** What step 2 maintains: the kept records are a subsequence of the records
    passed so far, [token_sets] holds their token sets, and no two of those are
    near duplicates. *)
Definition text_dedupe_inv (pre : list evidence)
    (st : list evidence * list (gset pystr)) : Prop :=
  (exists sub, sublist sub pre /\ Forall2 same_record (fst st) sub)
  /\ snd st = tokens_of <$> fst st
  /\ StronglySorted far (snd st).

(** The score the scoring loop computes for a candidate. *)
Definition candidate_score (now : Z) (item : candidate) : float :=
  py_round6 (weighted_score (raw_scores now item)).



End NotionsWithRuntime.

(** ** Records without tokens through the two steps *)

(** The copy of a record that step 1 of the post-processing works on:
    [ev2 = dict(ev); ev2["meta"] = dict(...); ev2["meta"].setdefault("duplicates", [])]. *)
Definition with_duplicates_entry (ev : evidence) : evidence :=
  set_meta ev (dict_setdefault (ev_meta ev) (u "duplicates") (PList [])).

Section MergedNotions.
Context `{R : PyRuntime}.





End MergedNotions.

(* ================================================================== *)
(** * Notions on keywords used in the statements *)
(* ================================================================== *)

(** A string that does not begin with a character of the class [p]. *)
Definition starts_clean (p : Z -> bool) (s : pystr) : bool :=
  match s with [] => true | c :: _ => negb (p c) end.

(** A string that [strip] leaves as it is: no character of the class at
    either end. *)
Definition trimmed (p : Z -> bool) (s : pystr) : bool :=
  starts_clean p s && starts_clean p (rev s).

(** The four separators [_normalize_kw] unifies: [,] [，] [;] [；]. *)
Definition kw_list_separators : pystr := [44; 65292; 59; 65307].

(** One keyword of a normalized list: not empty, trimmed, free of
    separators. *)
Definition clean_part (p : pystr) : Prop :=
  p <> [] /\ trimmed py_isspace p = true
  /\ forall c, In c p -> ~ In c kw_list_separators.

(** A keyword [_derive_kw_from_text] may pick: a run of at least two CJK
    ideographs that is neither a stop token nor a filler word. *)
Definition derivable (s : pystr) : Prop :=
  (2 <= length s)%nat /\ forallb is_cjk s = true
  /\ str_in s _STOP_TOKENS = false /\ str_in s filler_words = false.

(* ================================================================== *)
(** * Notions on ranked evidence used in the statements *)
(* ================================================================== *)

(** A candidate whose metadata the scorer can merge: absent (or falsy), or
    a dictionary that does not itself carry a [duplicates] entry. *)
Definition plain_metadata (item : candidate) : Prop :=
  truthy (c_metadata item) = false
  \/ exists d, c_metadata item = PDict d /\ dict_has d (u "duplicates") = false.

(** [b] scores at least as high as [a]. *)
Definition dominates (b a : evidence) : Prop :=
  flt (ev_score_final b) (ev_score_final a) = false.

(** Every record of [pre] is matched by a record of [l] that scores at least
    as high, and all the scores are numbers. *)
Definition dominated (pre l : list evidence) : Prop :=
  Forall (fun b => is_number (ev_score_final b)) l
  /\ Forall (fun a => is_number (ev_score_final a)) pre
  /\ forall a, a ∈ pre -> exists b, b ∈ l /\ dominates b a.

(** Every record of [l] is, up to the bookkeeping in [meta], a record of
    [pre]. *)
Definition from_records (pre l : list evidence) : Prop :=
  Forall (fun b => exists a, a ∈ pre /\ same_record b a) l.

(** The [duplicates] entry of a record is a list. *)
Definition has_duplicates_list (ev : evidence) : Prop :=
  exists l, dict_get (ev_meta ev) (u "duplicates") = PList l.

(** One turn of either deduplication loop, seen on the list of kept
    records: the incoming record (up to bookkeeping) is appended, or it is
    merged into a kept one. *)
Definition merge_or_append (l : list evidence) (ev : evidence) (l' : list evidence) : Prop :=
  exists ev', same_record ev' ev
    /\ (l' = l ++ [ev']
        \/ exists idx kept merged,
             l !! idx = Some kept /\ _merge_duplicate kept ev' = Ok merged
             /\ l' = <[idx := merged]> l).

(* ================================================================== *)
(** * Notions on responses used in the statements *)
(* ================================================================== *)

(** The [id] member of a JSON-RPC response. *)
Definition response_id (r : rpc_response) : pyval :=
  match r with
  | RpcResult id _ => id
  | RpcError id _ _ => id
  end.

(** The [id] of a batch element that asks for an answer: a dictionary with
    an [id] key. *)
Definition request_id (m : pyval) : option pyval :=
  match m with
  | PDict msg => if dict_has msg (u "id") then Some (dict_get msg (u "id")) else None
  | _ => None
  end.

(* ================================================================== *)
(** * Example data for the handler *)
(* ================================================================== *)

(** The retrieval service down again, fourteen seconds after the entry of
    [answering_world] was written. *)
Definition service_down_later : world := {|
  w_now := 215%float;
  w_now_write := 216%float;
  w_now_ts := 215;
  w_clock := fun _ => 215;
  w_ms_primary := 3.5%float;
  w_ms_fallback := 3.5%float;
  w_http_post := fun _ _ => Raise service_unavailable
|}.


(* ================================================================== *)
(** * Notions on requests used in the statements *)
(* ================================================================== *)



(* ================================================================== *)
(** * routes_openai_proxy.py: helpers of the chat endpoint *)
(* ================================================================== *)

(** Library functions the proxy calls and that are taken as given. *)
Class PyLibrary := {
  (** [json.dumps(v, ensure_ascii=False)] *)
  json_dumps : pyval -> list Z
}.

Section ProxyWithLibrary.
Context `{L : PyLibrary}.

(** The loop of [_last_user_text] over [reversed(messages)]: the content of
    the first message whose role is exactly "user"; an element that is not a
    dictionary has no [get]. *)
Fixpoint last_user_loop (reversed_messages : list pyval) : result (list Z) :=
  match reversed_messages with
  | [] => Ok []
  | m :: rest =>
      d ← need_dict m;
      if val_is_str (dict_get d (u "role")) (u "user")
      then Ok (match dict_get d (u "content") with
               | PStr c => c
               | c => json_dumps c
               end)
      else last_user_loop rest
  end.

Definition _last_user_text (messages : list pyval) : result (list Z) :=
  last_user_loop (rev messages).

End ProxyWithLibrary.

(** [_inject_system]: the blocks that are neither empty nor blank are joined
    into one system message put before the others. *)
Definition _inject_system (messages : list pyval) (system_blocks : list (list Z))
  : list pyval :=
  let blocks :=
    List.filter (fun b => str_truthy b && str_truthy (py_strip b)) system_blocks in
  match blocks with
  | [] => messages
  | _ =>
      PDict [(u "role", PStr (u "system"));
             (u "content", PStr (str_join [10; 10] blocks))] :: messages
  end.

(** [s.endswith(suffix)] *)
Definition ends_with (suffix s : list Z) : bool := is_prefix (rev suffix) (rev s).

Definition _build_upstream_url (upstream_base : list Z) : list Z :=
  let base := rstrip_by (fun c => char_in c (u "/")) (py_strip upstream_base) in
  let base := if negb (str_truthy base) then u "https://api.openai.com" else base in
  if ends_with (u "/chat/completions") base then base
  else if ends_with (u "/v1") base then base ++ u "/chat/completions"
  else base ++ u "/v1/chat/completions".

(** The settings of the proxy read from the environment. *)
Record proxy_config := {
  TOOL_EMPTY_CONTENT_COMPAT : bool;
  TOOL_EMPTY_CONTENT_PLACEHOLDER : list Z
}.

(** [isinstance(content, str) and not content.strip()] *)
Definition is_blank_str (content : pyval) : bool :=
  match content with
  | PStr s => negb (str_truthy (py_strip s))
  | _ => false
  end.

Definition _apply_tool_empty_content_compat (pcfg : proxy_config) (data : pyval) : pyval :=
  if negb (TOOL_EMPTY_CONTENT_COMPAT pcfg) then data
  else
    match data with
    | PDict d =>
        match py_or (dict_get d (u "choices")) (PList []) with
        | PList (first :: rest) =>
            let c0 := match first with PDict c => c | _ => [] end in
            match dict_get c0 (u "message") with
            | PDict msg =>
                if negb (truthy (PDict msg)) then data
                else
                  let finish_reason := dict_get c0 (u "finish_reason") in
                  let has_tool_calls := truthy (dict_get msg (u "tool_calls")) in
                  let content := dict_get msg (u "content") in
                  if val_is_str finish_reason (u "tool_calls") && has_tool_calls
                     && is_blank_str content
                  then
                    let out_msg :=
                      dict_set msg (u "content")
                        (PStr (TOOL_EMPTY_CONTENT_PLACEHOLDER pcfg)) in
                    let out_c0 := dict_set c0 (u "message") (PDict out_msg) in
                    let out_choices := PDict out_c0 :: rest in
                    PDict (dict_set d (u "choices") (PList out_choices))
                  else data
            | _ => data
            end
        | _ => data
        end
    | _ => data
    end.

(* ================================================================== *)
(** * Notions on message lists used in the statements *)
(* ================================================================== *)

(** The elements of a JSON list that are objects. *)
Definition dict_messages (messages : list pyval) : list (list (list Z * pyval)) :=
  omap as_dict messages.

(** A message the tool-thread sanitization has no business with: its role,
    trimmed, is neither "tool" nor "assistant". *)
Definition bystander (m : list (list Z * pyval)) : bool :=
  match get_stripped m (u "role") with
  | Ok role => negb (pystr_eqb role (u "tool")) && negb (pystr_eqb role (u "assistant"))
  | Raise _ => false
  end.

(** A message whose role is exactly "user". *)
Definition is_user_message (m : list (list Z * pyval)) : bool :=
  val_is_str (dict_get m (u "role")) (u "user").

(* ================================================================== *)
(** * Example data for the proxy *)
(* ================================================================== *)

(** A stand-in for [json.dumps] on the examples. *)
#[export] Instance reference_library : PyLibrary := {|
  json_dumps := fun _ => u "<json>"
|}.

(* ================================================================== *)
(** * summarizer.py: repair of decoded objects, debug events, windows *)
(* ================================================================== *)

Section RepairObjWithRuntime.
Context `{R : PyRuntime}.

(** [_repair_mojibake_in_obj]: strings are repaired, lists and dictionaries
    are rebuilt around their repaired members (the keys are kept as they
    are), anything else is returned as it is. *)
Fixpoint _repair_mojibake_in_obj (obj : pyval) : pyval :=
  match obj with
  | PStr s => PStr (_maybe_repair_mojibake_text s)
  | PList items => PList (map _repair_mojibake_in_obj items)
  | PDict entries =>
      PDict (map (fun kv => (fst kv, _repair_mojibake_in_obj (snd kv))) entries)
  | v => v
  end.

End RepairObjWithRuntime.

(** ** The buffer of debug events *)

(** [collections.deque(maxlen=200).append]: once the buffer is full the
    oldest element goes. *)
Definition deque_append {A} (maxlen : nat) (q : list A) (x : A) : list A :=
  drop (length (q ++ [x]) - maxlen) (q ++ [x]).

Definition DEBUG_EVENTS_MAXLEN : nat := 200.

(** [_push_debug_event]; [now_iso] is [_now().isoformat()], [events] the
    buffer [_DEBUG_EVENTS].  Whatever is raised while the payload is built is
    swallowed, and the buffer stays as it is. *)
Definition _push_debug_event (now_iso : list Z) (events : list (list (list Z * pyval)))
    (event : pyval) : list (list (list Z * pyval)) :=
  match mapping_entries (py_or event (PDict [])) with
  | Ok entries =>
      deque_append DEBUG_EVENTS_MAXLEN events
        (dict_update [(u "ts", PStr now_iso)] entries)
  | Raise _ => events
  end.

(** [l[-n:]] for [0 < n]. *)
Definition take_last {A} (n : Z) (l : list A) : list A :=
  drop (length l - Z.to_nat n) l.

(** [x.get("session_id") in (None, session_id)] for a string [session_id]. *)
Definition event_visible (session_id : list Z) (x : list (list Z * pyval)) : bool :=
  match dict_get x (u "session_id") with
  | PNone => true
  | PStr s => pystr_eqb s session_id
  | _ => false
  end.

(** [get_recent_debug_events]; [session_id] is [None] or a string. *)
Definition get_recent_debug_events (events : list (list (list Z * pyval)))
    (session_id : option (list Z)) (limit : Z) : list (list (list Z * pyval)) :=
  let items := events in
  let items :=
    match session_id with
    | Some sid => if str_truthy sid then List.filter (event_visible sid) items else items
    | None => items
    end in
  if 0 <? limit then take_last limit items else items.

(** ** The window of user turns *)

(** The loop of [_resolve_scope_user_turns] over the rows read back from the
    query, oldest first: the distinct [user_turn] values in the order in which
    they first occur; rows without one are passed over. *)
Fixpoint ordered_user_turns (seen : list Z) (rows : list (option Z)) : list Z :=
  match rows with
  | [] => []
  | None :: rest => ordered_user_turns seen rest
  | Some ut :: rest =>
      if existsb (Z.eqb ut) seen then ordered_user_turns seen rest
      else ut :: ordered_user_turns (ut :: seen) rest
  end.

(** [l[start:]] *)
Definition slice_from {A} (l : list A) (start : Z) : list A :=
  if 0 <=? start then drop (Z.to_nat start) l
  else drop (length l - Z.to_nat (- start)) l.

(** [_resolve_scope_user_turns] from the result of its query on:
    [user_turn_rows] holds the [user_turn] of the rows the query returned
    (newest first, as ordered by [turn_id] descending). *)
Definition _resolve_scope_user_turns (user_turn_rows : list (option Z))
    (window_user_turn : Z) : list Z :=
  match ordered_user_turns [] (rev user_turn_rows) with
  | [] => []
  | ordered => slice_from ordered (- window_user_turn)
  end.

(** ** Transcripts *)

Section TranscriptWithRuntime.
Context `{R : PyRuntime}.

(** [_render_transcript]: a message is its role and its content; each one
    gives the line [f"{role}: {m.content}"]. *)
Definition _render_transcript (msgs : list (pyval * pyval)) : list Z :=
  str_join [10] (map (fun m => py_str (fst m) ++ u ": " ++ py_str (snd m)) msgs).

End TranscriptWithRuntime.

(* ================================================================== *)
(** * Notions on summaries used in the statements *)
(* ================================================================== *)

(** Every string inside a value (the keys of dictionaries apart) satisfies
    [P]. *)
Fixpoint all_strings (P : list Z -> bool) (v : pyval) : bool :=
  match v with
  | PStr s => P s
  | PList items => forallb (all_strings P) items
  | PDict entries => forallb (fun kv => all_strings P (snd kv)) entries
  | _ => true
  end.

(** A field of a summary that the sanitization can search: a string, or a
    value that counts as false. *)
Definition searchable (v : pyval) : Prop :=
  truthy v = false \/ exists s, v = PStr s.

Definition is_list_value (v : pyval) : Prop := exists l, v = PList l.

(** The shape the sanitization promises. *)
Definition summary_shape (d : list (list Z * pyval)) : Prop :=
  truthy (dict_get d (u "goal")) = true
  /\ truthy (dict_get d (u "state")) = true
  /\ is_list_value (dict_get d (u "open_loops"))
  /\ is_list_value (dict_get d (u "constraints"))
  /\ is_list_value (dict_get d (u "tone_notes")).

(* ================================================================== *)
(** * 6f8c0b1a2d34_add_traceability_fields.py: the migration *)
(* ================================================================== *)

(** The database as the migration sees it: the columns of each table, and the
    indexes by name.  An operation that the database refuses gives [None]. *)

Inductive sa_type := sa_String | sa_Integer.

(** [sa.Column(name, type, nullable=..., server_default=...)] *)
Record sa_column := Column {
  col_name : list Z;
  col_type : sa_type;
  col_nullable : bool;
  col_server_default : option (list Z)
}.

Record db_index := {
  ix_table : list Z;
  ix_columns : list (list Z);
  ix_unique : bool
}.

Record db_schema := {
  sc_tables : gmap (list Z) (gmap (list Z) sa_column);
  sc_indexes : gmap (list Z) db_index
}.

(** [op.add_column(table, column)]: the table exists and has no column of
    that name. *)
Definition add_column (s : db_schema) (table : list Z) (column : sa_column)
  : option db_schema :=
  cols ← sc_tables s !! table;
  match cols !! col_name column with
  | Some _ => None
  | None =>
      Some {| sc_tables := <[table := <[col_name column := column]> cols]> (sc_tables s);
              sc_indexes := sc_indexes s |}
  end.

(** [op.create_index(name, table, columns, unique=...)]: the name is free, the
    table exists and has the columns. *)
Definition create_index (s : db_schema) (name table : list Z)
    (columns : list (list Z)) (unique : bool) : option db_schema :=
  cols ← sc_tables s !! table;
  match sc_indexes s !! name with
  | Some _ => None
  | None =>
      if forallb (fun c => bool_decide (is_Some (cols !! c))) columns
      then Some {| sc_tables := sc_tables s;
                   sc_indexes := <[name := {| ix_table := table;
                                              ix_columns := columns;
                                              ix_unique := unique |}]> (sc_indexes s) |}
      else None
  end.

(** [op.drop_index(name, table_name=table)]: the index exists on that table. *)
Definition drop_index (s : db_schema) (name table : list Z) : option db_schema :=
  ix ← sc_indexes s !! name;
  if bool_decide (ix_table ix = table)
  then Some {| sc_tables := sc_tables s; sc_indexes := delete name (sc_indexes s) |}
  else None.

(** An index of [table] that covers [column]. *)
Definition index_covers (table column : list Z) (ix : db_index) : bool :=
  bool_decide (ix_table ix = table) && bool_decide (column ∈ ix_columns ix).

(** [op.drop_column(table, name)]: the table has the column, and no index
    covers it any more. *)
Definition drop_column (s : db_schema) (table name : list Z) : option db_schema :=
  cols ← sc_tables s !! table;
  match cols !! name with
  | None => None
  | Some _ =>
      if existsb (fun kv => index_covers table name (snd kv)) (map_to_list (sc_indexes s))
      then None
      else Some {| sc_tables := <[table := delete name cols]> (sc_tables s);
                   sc_indexes := sc_indexes s |}
  end.

(** A [for] loop whose body may be refused. *)
Fixpoint for_each {A B} (body : A -> B -> option A) (l : list B) (a : A) : option A :=
  match l with
  | [] => Some a
  | x :: rest => a' ← body a x; for_each body rest a'
  end.

Definition upgrade (s : db_schema) : option db_schema :=
  s ← add_column s (u "messages") (Column (u "thread_id") sa_String true None);
  s ← add_column s (u "messages") (Column (u "memory_id") sa_String true None);
  s ← add_column s (u "messages") (Column (u "agent_id") sa_String true None);
  s ← create_index s (u "ix_messages_thread_id") (u "messages") [u "thread_id"] false;
  s ← create_index s (u "ix_messages_memory_id") (u "messages") [u "memory_id"] false;
  s ← create_index s (u "ix_messages_agent_id") (u "messages") [u "agent_id"] false;
  for_each
    (fun s table =>
       s ← add_column s table (Column (u "scope_type") sa_String true None);
       s ← add_column s table (Column (u "thread_id") sa_String true None);
       s ← add_column s table (Column (u "memory_id") sa_String true None);
       s ← add_column s table (Column (u "agent_id") sa_String true None);
       s ← add_column s table (Column (u "summary_version") sa_Integer true (Some (u "1")));
       s ← add_column s table (Column (u "dedupe_key") sa_String true None);
       s ← create_index s (u "ix_" ++ table ++ u "_scope_type") table [u "scope_type"] false;
       s ← create_index s (u "ix_" ++ table ++ u "_thread_id") table [u "thread_id"] false;
       s ← create_index s (u "ix_" ++ table ++ u "_memory_id") table [u "memory_id"] false;
       s ← create_index s (u "ix_" ++ table ++ u "_agent_id") table [u "agent_id"] false;
       create_index s (u "ix_" ++ table ++ u "_dedupe_key") table [u "dedupe_key"] false)
    [u "summaries_s4"; u "summaries_s60"] s.

Definition downgrade (s : db_schema) : option db_schema :=
  s ← for_each
        (fun s table =>
           s ← drop_index s (u "ix_" ++ table ++ u "_dedupe_key") table;
           s ← drop_index s (u "ix_" ++ table ++ u "_agent_id") table;
           s ← drop_index s (u "ix_" ++ table ++ u "_memory_id") table;
           s ← drop_index s (u "ix_" ++ table ++ u "_thread_id") table;
           s ← drop_index s (u "ix_" ++ table ++ u "_scope_type") table;
           s ← drop_column s table (u "dedupe_key");
           s ← drop_column s table (u "summary_version");
           s ← drop_column s table (u "agent_id");
           s ← drop_column s table (u "memory_id");
           s ← drop_column s table (u "thread_id");
           drop_column s table (u "scope_type"))
        [u "summaries_s60"; u "summaries_s4"] s;
  s ← drop_index s (u "ix_messages_agent_id") (u "messages");
  s ← drop_index s (u "ix_messages_memory_id") (u "messages");
  s ← drop_index s (u "ix_messages_thread_id") (u "messages");
  s ← drop_column s (u "messages") (u "agent_id");
  s ← drop_column s (u "messages") (u "memory_id");
  drop_column s (u "messages") (u "thread_id").

(** ** Notions used in the statements *)

(** Every index stands on columns that its table has. *)
Definition index_valid (s : db_schema) (ix : db_index) : Prop :=
  exists cols, sc_tables s !! ix_table ix = Some cols
               /\ forall c, c ∈ ix_columns ix -> is_Some (cols !! c).

Definition indexes_valid (s : db_schema) : Prop :=
  forall name ix, sc_indexes s !! name = Some ix -> index_valid s ix.

(** The operations of a migration, as data, and their effect in turn. *)
Inductive operation :=
  | AddColumn (table : list Z) (column : sa_column)
  | CreateIndex (name table : list Z) (columns : list (list Z)) (unique : bool)
  | DropIndex (name table : list Z)
  | DropColumn (table name : list Z).

Definition perform (s : db_schema) (o : operation) : option db_schema :=
  match o with
  | AddColumn t c => add_column s t c
  | CreateIndex n t cs uq => create_index s n t cs uq
  | DropIndex n t => drop_index s n t
  | DropColumn t c => drop_column s t c
  end.

(** The operation that takes back an addition. *)
Definition undo (o : operation) : operation :=
  match o with
  | AddColumn t c => DropColumn t (col_name c)
  | CreateIndex n t _ _ => DropIndex n t
  | other => other
  end.

Definition is_addition (o : operation) : bool :=
  match o with AddColumn _ _ | CreateIndex _ _ _ _ => true | _ => false end.

Definition upgrade_operations : list operation :=
  [AddColumn (u "messages") (Column (u "thread_id") sa_String true None);
   AddColumn (u "messages") (Column (u "memory_id") sa_String true None);
   AddColumn (u "messages") (Column (u "agent_id") sa_String true None);
   CreateIndex (u "ix_messages_thread_id") (u "messages") [u "thread_id"] false;
   CreateIndex (u "ix_messages_memory_id") (u "messages") [u "memory_id"] false;
   CreateIndex (u "ix_messages_agent_id") (u "messages") [u "agent_id"] false]
  ++ concat (map (fun table =>
       [AddColumn table (Column (u "scope_type") sa_String true None);
        AddColumn table (Column (u "thread_id") sa_String true None);
        AddColumn table (Column (u "memory_id") sa_String true None);
        AddColumn table (Column (u "agent_id") sa_String true None);
        AddColumn table (Column (u "summary_version") sa_Integer true (Some (u "1")));
        AddColumn table (Column (u "dedupe_key") sa_String true None);
        CreateIndex (u "ix_" ++ table ++ u "_scope_type") table [u "scope_type"] false;
        CreateIndex (u "ix_" ++ table ++ u "_thread_id") table [u "thread_id"] false;
        CreateIndex (u "ix_" ++ table ++ u "_memory_id") table [u "memory_id"] false;
        CreateIndex (u "ix_" ++ table ++ u "_agent_id") table [u "agent_id"] false;
        CreateIndex (u "ix_" ++ table ++ u "_dedupe_key") table [u "dedupe_key"] false])
       [u "summaries_s4"; u "summaries_s60"]).

(** A database before the migration: the three tables with their keys, and
    the index of the messages by session. *)
Definition schema_before : db_schema :=
  {| sc_tables :=
       <[u "messages" := <[u "session_id" := Column (u "session_id") sa_String false None]>
                         (<[u "id" := Column (u "id") sa_Integer false None]> ∅)]>
       (<[u "summaries_s4" := <[u "id" := Column (u "id") sa_Integer false None]> ∅]>
       (<[u "summaries_s60" := <[u "id" := Column (u "id") sa_Integer false None]> ∅]> ∅));
     sc_indexes :=
       <[u "ix_messages_session_id" :=
           {| ix_table := u "messages"; ix_columns := [u "session_id"]; ix_unique := false |}]> ∅ |}.

(* ================================================================== *)
(** * Theorems *)
(* ================================================================== *)

(** ** Basic facts on strings *)

Lemma str_truthy_false (s : pystr) : str_truthy s = false <-> s = [].
Proof. destruct s; simpl; split; congruence. Qed.

Lemma count_char_nonneg ch s : 0 <= count_char ch s.
Proof. unfold count_char. lia. Qed.

Lemma filter_length_le_both (p q : Z -> bool) (s : pystr) :
  (forall c, p c = true -> q c = true) ->
  (length (List.filter p s) <= length (List.filter q s))%nat.
Proof.
  intros Hpq. induction s as [|c s IH]; simpl; [lia|].
  destruct (p c) eqn:Hp.
  - rewrite (Hpq c Hp). simpl. lia.
  - destruct (q c); simpl; lia.
Qed.

Lemma drop_while_filter_le (p q : Z -> bool) (s : pystr) :
  (length (List.filter q (drop_while p s)) <= length (List.filter q s))%nat.
Proof.
  induction s as [|c s IH]; simpl; [lia|].
  destruct (p c); simpl; destruct (q c); simpl; lia.
Qed.

Lemma filter_rev_length (q : Z -> bool) (s : pystr) :
  length (List.filter q (rev s)) = length (List.filter q s).
Proof.
  induction s as [|c s IH]; simpl; [reflexivity|].
  rewrite List.filter_app, List.length_app, IH. simpl.
  destruct (q c); simpl; lia.
Qed.

Lemma strip_by_filter_le (p q : Z -> bool) (s : pystr) :
  (length (List.filter q (strip_by p s)) <= length (List.filter q s))%nat.
Proof.
  unfold strip_by, rstrip_by, lstrip_by.
  rewrite filter_rev_length.
  etransitivity; [apply drop_while_filter_le|].
  rewrite filter_rev_length. apply drop_while_filter_le.
Qed.

Lemma count_char_strip_le ch s : count_char ch (py_strip s) <= count_char ch s.
Proof.
  unfold count_char, py_strip.
  pose proof (strip_by_filter_le py_isspace (Z.eqb ch) s). lia.
Qed.

(** A question mark is not a separator, so it is counted in [total]. *)
Lemma qmark_le_non_separator s : count_char _QMARK s <= non_separator_count s.
Proof.
  unfold count_char, non_separator_count.
  apply inj_le, filter_length_le_both.
  intros c Hc. apply Z.eqb_eq in Hc. subst c. reflexivity.
Qed.

(** ** Garbled-keyword detection *)

(** The detector, read on the trimmed keyword. *)
Lemma looks_garbled_iff (keyword : pystr) :
  _looks_garbled_keyword keyword = true <->
  py_strip keyword <> [] /\ garbled_ratio_ok (py_strip keyword).
Proof.
  unfold _looks_garbled_keyword, garbled_ratio_ok.
  pose proof (qmark_le_non_separator (py_strip keyword)) as Hle.
  pose proof (count_char_nonneg _QMARK (py_strip keyword)) as Hq.
  destruct (py_strip keyword) as [|c kw] eqn:Hkw; simpl str_truthy; simpl negb.
  - split; [discriminate | intros [H _]; congruence].
  - destruct (Z.eqb_spec (count_char _QMARK (c :: kw)) 0) as [Hz|Hz].
    + split; [discriminate | intros [_ [H1 H2]]; lia].
    + destruct (Z.leb_spec (non_separator_count (c :: kw)) 0) as [Ht|Ht]; [lia|].
      rewrite Z.leb_le. split; [intros H; split; [discriminate | lia] | intros [_ [_ H]]; exact H].
Qed.

Lemma garbled_as_specified_iff (s : pystr) :
  garbled_as_specified s = true <-> s <> [] /\ garbled_ratio_ok s.
Proof.
  unfold garbled_as_specified, garbled_ratio_ok.
  rewrite !andb_true_iff, Z.ltb_lt, Z.leb_le.
  destruct s; simpl; split; intros H; try tauto; try (split; [discriminate | tauto]).
  destruct H as [[H _] _]; discriminate.
Qed.

(** C7, where the statement fails: on a keyword padded with ideographic
    spaces (U+3000, whitespace but not a separator) the string as given has
    ratio 2/6 < 0.4, yet the detector trims it first and answers true. *)
Lemma garbled_untrimmed_counterexample :
  _looks_garbled_keyword (u "??" ++ [12288; 12288; 12288; 12288]) = true
  /\ garbled_as_specified (u "??" ++ [12288; 12288; 12288; 12288]) = false.
Proof. split; vm_compute; reflexivity. Qed.

(** C7 (amended): the detector returns true exactly when the keyword, once
    leading and trailing whitespace is trimmed, is non-empty and the ratio of
    '?' to non-separator characters of the trimmed keyword is at least 0.4;
    a keyword with no '?' is never garbled; "??,???" is garbled and
    "abc,??,d" is not. *)
Theorem garbled_detection_on_trimmed_keyword :
  (forall keyword,
      _looks_garbled_keyword keyword = true <->
      garbled_as_specified (py_strip keyword) = true)
  /\ (forall keyword,
         count_char _QMARK keyword = 0 -> _looks_garbled_keyword keyword = false)
  /\ _looks_garbled_keyword (u "??,???") = true
  /\ _looks_garbled_keyword (u "abc,??,d") = false.
Proof.
  split; [|split; [|split; vm_compute; reflexivity]].
  - intros keyword. rewrite looks_garbled_iff, garbled_as_specified_iff. reflexivity.
  - intros keyword Hq.
    destruct (_looks_garbled_keyword keyword) eqn:E; [|reflexivity].
    apply looks_garbled_iff in E. destruct E as [_ [H1 H2]].
    pose proof (count_char_strip_le _QMARK keyword).
    pose proof (count_char_nonneg _QMARK (py_strip keyword)). lia.
Qed.

(** The ratio of "abc,??,d": two question marks over six non-separators. *)
Example garbled_ratio_abc :
  count_char _QMARK (u "abc,??,d") = 2 /\ non_separator_count (u "abc,??,d") = 6.
Proof. split; vm_compute; reflexivity. Qed.

(** ** Mojibake repair *)

Lemma strip_ctrl_id (s : pystr) :
  (forall c, In c s -> ~ (128 <= c <= 159)) -> _strip_ctrl s = s.
Proof.
  intros H. unfold _strip_ctrl. induction s as [|c s IH]; simpl; [reflexivity|].
  assert (Hc : is_c1_ctrl c = false).
  { unfold is_c1_ctrl, in_range. apply andb_false_iff.
    specialize (H c (or_introl eq_refl)).
    destruct (Z.leb_spec 128 c); [right; apply Z.leb_gt; lia | left; reflexivity]. }
  rewrite Hc. simpl. f_equal. apply IH. intros d Hd. apply H. right. exact Hd.
Qed.

Lemma ctrl_count_zero (s : pystr) :
  (forall c, In c s -> ~ (128 <= c <= 159)) -> _ctrl_char_count s = 0.
Proof.
  intros H. unfold _ctrl_char_count, count_if.
  induction s as [|c s IH]; simpl; [reflexivity|].
  assert (Hc : is_c1_ctrl c = false).
  { unfold is_c1_ctrl, in_range. apply andb_false_iff.
    specialize (H c (or_introl eq_refl)).
    destruct (Z.leb_spec 128 c); [right; apply Z.leb_gt; lia | left; reflexivity]. }
  rewrite Hc. apply IH. intros d Hd. apply H. right. exact Hd.
Qed.

(** C5: a text with no mojibake marker and no C1 control character comes
    back from the repair unchanged, whatever the codecs would produce. *)
Theorem mojibake_repair_non_regression `{R : PyRuntime} (t : pystr) :
  _mojibake_score t = 0 ->
  (forall c, In c t -> ~ (128 <= c <= 159)) ->
  _maybe_repair_mojibake_text t = t.
Proof.
  intros Hscore Hctrl.
  unfold _maybe_repair_mojibake_text.
  destruct (negb (str_truthy t)); [reflexivity|].
  destruct (_ && _); [apply strip_ctrl_id; exact Hctrl|].
  cbv zeta.
  unfold _looks_mojibake_text.
  rewrite Hscore, (ctrl_count_zero t Hctrl). simpl.
  apply strip_ctrl_id; exact Hctrl.
Qed.

(** The non-regression theorem at the text "hello 世界" under the reference
    runtime. *)
Lemma mojibake_repair_non_regression_witness :
  _maybe_repair_mojibake_text (u "hello 世界") = u "hello 世界".
Proof.
  apply (@mojibake_repair_non_regression reference_runtime (u "hello 世界")).
  - vm_compute. reflexivity.
  - intros c Hc. vm_compute in Hc. intuition lia.
Defined.

(** The repair at work: "你好" read through Latin-1 is restored. *)
Example mojibake_repair_latin1 :
  _maybe_repair_mojibake_text [228; 189; 160; 229; 165; 189] = u "你好".
Proof. vm_compute. reflexivity. Qed.

(** ** Evidence scoring *)

Lemma pystr_eqb_eq (a b : pystr) : pystr_eqb a b = true <-> a = b.
Proof. unfold pystr_eqb. apply bool_decide_eq_true. Qed.

Lemma pystr_eqb_neq (a b : pystr) : pystr_eqb a b = false <-> a <> b.
Proof. unfold pystr_eqb. apply bool_decide_eq_false. Qed.

Lemma pystr_eqb_refl (a : pystr) : pystr_eqb a a = true.
Proof. apply pystr_eqb_eq. reflexivity. Qed.

(** The type-boost table. *)
Lemma type_boost_table :
  _type_boost (u "current_input") = 1.3%float
  /\ _type_boost (u "s4") = 1.2%float
  /\ _type_boost (u "s60") = 1.1%float
  /\ _type_boost (u "keyword") = 1.0%float
  /\ _type_boost (u "vector") = 1.0%float
  /\ (forall source_type,
         source_type <> u "current_input" -> source_type <> u "s4" ->
         source_type <> u "s60" -> source_type <> u "keyword" ->
         source_type <> u "vector" -> _type_boost source_type = 0.6%float).
Proof.
  repeat (split; [vm_compute; reflexivity|]).
  intros st H1 H2 H3 H4 H5. unfold _type_boost.
  apply pystr_eqb_neq in H1, H2, H3, H4, H5.
  rewrite H1, H2, H3, H4, H5. reflexivity.
Qed.

(** The recency table, on the age [max(0, now - ts)] of a record. *)
Lemma recency_table (now ts : Z) :
  _recency_score now 0 = 0.0%float
  /\ (ts <> 0 ->
      let age := Z.max 0 (now - ts) in
      (age <= 86400 -> _recency_score now ts = 1.0%float)
      /\ (86400 < age <= 7 * 86400 -> _recency_score now ts = 0.8%float)
      /\ (7 * 86400 < age <= 30 * 86400 -> _recency_score now ts = 0.6%float)
      /\ (30 * 86400 < age -> _recency_score now ts = 0.3%float)).
Proof.
  split; [reflexivity|].
  intros Hts age. unfold _recency_score.
  destruct (Z.eqb_spec ts 0) as [|_]; [contradiction|].
  fold age.
  repeat split; intros H;
    repeat match goal with
           | |- context [?a <=? ?b] => destruct (Z.leb_spec a b); try lia
           end; reflexivity.
Qed.

(** C1: the score of a candidate is the weighted sum
    0.40*keyword + 0.40*vector + 0.10*recency + 0.10*type_boost rounded to six
    decimals, with the type boost and the recency read from the two tables
    (1.3 / 1.2 / 1.1 / 1.0 / 1.0 / 0.6, and 1.0 / 0.8 / 0.6 / 0.3 by age,
    0.0 for a zero timestamp). *)
Theorem score_final_weighted_sum `{R : PyRuntime}
    (now : Z) (idx : nat) (item : candidate) (ev : evidence) :
  score_candidate now idx item = Ok ev ->
  let keyword := c_keyword item in
  let vector := c_vector item in
  let recency := sr_recency (ev_score_raw ev) in
  let type_boost := sr_type_boost (ev_score_raw ev) in
  ev_score_final ev
  = py_round6 (0.40 * keyword + 0.40 * vector + 0.10 * recency + 0.10 * type_boost)%float
  /\ sr_keyword (ev_score_raw ev) = keyword
  /\ sr_vector (ev_score_raw ev) = vector
  (* type boost *)
  /\ (c_source_type item = u "current_input" -> type_boost = 1.3%float)
  /\ (c_source_type item = u "s4" -> type_boost = 1.2%float)
  /\ (c_source_type item = u "s60" -> type_boost = 1.1%float)
  /\ (c_source_type item = u "keyword" \/ c_source_type item = u "vector" ->
      type_boost = 1.0%float)
  /\ (c_source_type item <> u "current_input" -> c_source_type item <> u "s4" ->
      c_source_type item <> u "s60" -> c_source_type item <> u "keyword" ->
      c_source_type item <> u "vector" -> type_boost = 0.6%float)
  (* recency *)
  /\ (c_ts item = 0 -> recency = 0.0%float)
  /\ (c_ts item <> 0 ->
      let age := Z.max 0 (now - c_ts item) in
      (age <= 86400 -> recency = 1.0%float)
      /\ (86400 < age <= 7 * 86400 -> recency = 0.8%float)
      /\ (7 * 86400 < age <= 30 * 86400 -> recency = 0.6%float)
      /\ (30 * 86400 < age -> recency = 0.3%float)).
Proof.
  intros Hev. unfold score_candidate in Hev.
  destruct (mapping_entries _) as [extra|e]; simpl in Hev; [|discriminate].
  injection Hev as <-. unfold raw_scores.
  cbn [ev_score_final ev_score_raw sr_recency sr_type_boost
       sr_keyword sr_vector _safe_float].
  destruct type_boost_table as (T1 & T2 & T3 & T4 & T5 & T6).
  destruct (recency_table now (c_ts item)) as (R0 & R1).
  split; [reflexivity|]. split; [reflexivity|]. split; [reflexivity|].
  split; [intros ->; exact T1|]. split; [intros ->; exact T2|].
  split; [intros ->; exact T3|].
  split; [intros [-> | ->]; [exact T4 | exact T5]|].
  split; [exact (T6 _)|].
  split; [intros ->; exact R0|].
  exact R1.
Qed.

(** A candidate whose metadata is a dictionary, or empty, is always scored. *)
Lemma score_candidate_returns `{R : PyRuntime} now idx item :
  (truthy (c_metadata item) = false \/ exists d, c_metadata item = PDict d) ->
  exists ev, score_candidate now idx item = Ok ev.
Proof.
  intros H. unfold score_candidate, py_or.
  destruct H as [H | [d H]].
  - rewrite H. simpl. eexists. reflexivity.
  - rewrite H. destruct (truthy (PDict d)); simpl; eexists; reflexivity.
Qed.

(** ** Loops that may raise *)

(** An invariant of [fold_result]: it is stated on the part of the list
    already passed, and the step may use where in the list it stands. *)
Lemma fold_result_inv {A B} (f : A -> B -> result A) (Inv : list B -> A -> Prop)
    (l : list B) (a0 a : A) :
  Inv [] a0 ->
  (forall pre x post a1 a2,
      l = pre ++ x :: post -> Inv pre a1 -> f a1 x = Ok a2 -> Inv (pre ++ [x]) a2) ->
  fold_result f l a0 = Ok a ->
  Inv l a.
Proof.
  intros H0 Hstep.
  assert (G : forall post pre a1,
             l = pre ++ post -> Inv pre a1 -> fold_result f post a1 = Ok a -> Inv l a).
  { induction post as [|x post IH]; intros pre a1 Hl Hpre Hfold; simpl in Hfold.
    - injection Hfold as <-. rewrite Hl, app_nil_r. exact Hpre.
    - destruct (f a1 x) as [a2|e] eqn:Hf; simpl in Hfold; [|discriminate].
      apply (IH (pre ++ [x]) a2); [| |exact Hfold].
      + rewrite <- app_assoc. exact Hl.
      + eapply Hstep; eauto. }
  intros Hfold. exact (G l [] a0 eq_refl H0 Hfold).
Qed.

(** ** Order on floats *)

Lemma flt_ge_trans (a b c : float) :
  is_number a -> is_number b -> is_number c ->
  flt a b = false -> flt b c = false -> flt a c = false.
Proof.
  unfold is_number, flt. intros Ha Hb Hc.
  destruct (fval a), (fval b), (fval c); try congruence.
  rewrite !Z.ltb_ge. lia.
Qed.

Lemma flt_asym (a b : float) : flt a b = true -> flt b a = false.
Proof.
  unfold flt. destruct (fval a), (fval b); try congruence.
  rewrite Z.ltb_lt, Z.ltb_ge. lia.
Qed.

Lemma feq_not_flt (a b : float) : feq a b = true -> flt a b = false.
Proof.
  unfold feq, flt. destruct (fval a), (fval b); try congruence.
  rewrite Z.eqb_eq, Z.ltb_ge. lia.
Qed.

(** ** Stable descending sort *)

Lemma insert_desc_perm {A} (lt : A -> A -> bool) x l :
  insert_desc lt x l ≡ₚ x :: l.
Proof.
  induction l as [|y l IH]; simpl; [reflexivity|].
  destruct (lt x y); [|reflexivity].
  rewrite IH. apply Permutation_swap.
Qed.

Lemma sort_desc_perm {A} (lt : A -> A -> bool) l : sort_desc lt l ≡ₚ l.
Proof.
  unfold sort_desc. induction l as [|x l IH]; simpl; [reflexivity|].
  rewrite insert_desc_perm, IH. reflexivity.
Qed.

Section SortDesc.
Context {A : Type} (lt : A -> A -> bool) (P : A -> Prop).
Hypothesis ge_trans : forall a b c,
    P a -> P b -> P c -> lt a b = false -> lt b c = false -> lt a c = false.
Hypothesis lt_asym : forall a b, lt a b = true -> lt b a = false.

Lemma insert_desc_sorted x l :
  P x -> Forall P l ->
  StronglySorted (fun a b => lt a b = false) l ->
  StronglySorted (fun a b => lt a b = false) (insert_desc lt x l).
Proof.
  intros Hx HP Hs. induction l as [|y l IH]; simpl.
  - repeat constructor.
  - apply StronglySorted_cons in Hs as [Hy Hs].
    inversion HP as [|? ? Py Pl]; subst.
    destruct (lt x y) eqn:Hxy.
    + apply StronglySorted_cons. split; [|apply IH; assumption].
      rewrite insert_desc_perm. constructor; [apply lt_asym; exact Hxy | exact Hy].
    + apply StronglySorted_cons. split.
      * constructor; [exact Hxy|].
        rewrite Forall_forall in Hy, Pl |- *. intros z Hz.
        apply (ge_trans x y z); auto.
      * apply StronglySorted_cons. split; assumption.
Qed.

Lemma sort_desc_sorted l :
  Forall P l -> StronglySorted (fun a b => lt a b = false) (sort_desc lt l).
Proof.
  unfold sort_desc. induction 1 as [|x l Hx Hl IH]; simpl; [constructor|].
  apply insert_desc_sorted; [exact Hx | | exact IH].
  fold (sort_desc lt l). rewrite sort_desc_perm. exact Hl.
Qed.
End SortDesc.

(** A symmetric pairwise property does not depend on the order of the list. *)
Lemma StronglySorted_perm_sym {A} (Rel : A -> A -> Prop) (l l' : list A) :
  (forall a b, Rel a b -> Rel b a) ->
  l ≡ₚ l' -> StronglySorted Rel l -> StronglySorted Rel l'.
Proof.
  intros Hsym Hp. induction Hp as [|x l l' Hp IH|x y l|l1 l2 l3 _ IH1 _ IH2]; intros Hs.
  - constructor.
  - apply StronglySorted_cons in Hs as [Hx Hs].
    apply StronglySorted_cons. split; [rewrite <- Hp; exact Hx | auto].
  - apply StronglySorted_cons in Hs as [Hy Hs].
    apply StronglySorted_cons in Hs as [Hx Hs].
    inversion Hy as [|? ? Hyx Hyl]; subst.
    apply StronglySorted_cons. split; [constructor; [apply Hsym; exact Hyx | exact Hx]|].
    apply StronglySorted_cons. split; assumption.
  - auto.
Qed.

Lemma StronglySorted_submseteq_sym {A} (Rel : A -> A -> Prop) (l l' : list A) :
  (forall a b, Rel a b -> Rel b a) ->
  l ⊆+ l' -> StronglySorted Rel l' -> StronglySorted Rel l.
Proof.
  intros Hsym Hsub Hs.
  destruct (submseteq_Permutation _ _ Hsub) as [k Hk].
  apply (StronglySorted_perm_sym Rel _ _ Hsym Hk) in Hs.
  eapply StronglySorted_app_1_l. exact Hs.
Qed.

Lemma StronglySorted_lookup_lt {A} (Rel : A -> A -> Prop) (l : list A) i j a b :
  StronglySorted Rel l -> (i < j)%nat -> l !! i = Some a -> l !! j = Some b -> Rel a b.
Proof.
  intros Hs. revert i j. induction Hs as [|x l Hs IH Hx]; intros i j Hij Hi Hj.
  - discriminate.
  - destruct j as [|j]; [lia|]. simpl in Hj.
    destruct i as [|i]; simpl in Hi.
    + injection Hi as <-. rewrite Forall_forall in Hx. apply Hx.
      eapply list_elem_of_lookup_2. exact Hj.
    + apply (IH i j); [lia | assumption | assumption].
Qed.

Lemma StronglySorted_lookup_sym {A} (Rel : A -> A -> Prop) (l : list A) i j a b :
  (forall a b, Rel a b -> Rel b a) ->
  StronglySorted Rel l -> i <> j -> l !! i = Some a -> l !! j = Some b -> Rel a b.
Proof.
  intros Hsym Hs Hij Hi Hj.
  destruct (Nat.lt_total i j) as [H | [H | H]]; [|contradiction|].
  - eapply StronglySorted_lookup_lt; eauto.
  - apply Hsym. eapply StronglySorted_lookup_lt; eauto.
Qed.

(** ** Ranking keys *)

Ltac float_order :=
  unfold rank_key_lt, score_lt, ranked_ok, is_number, feq, flt in *;
  repeat match goal with
         | H : _ /\ _ |- _ => destruct H
         end;
  repeat match goal with
         | |- context [fval ?x] =>
             let o := fresh "o" in set (o := fval x) in *; clearbody o
         | H : context [fval ?x] |- _ =>
             let o := fresh "o" in set (o := fval x) in *; clearbody o
         end;
  repeat match goal with
         | o : option Z |- _ => destruct o
         end;
  try congruence;
  repeat match goal with
         | |- context [?a =? ?b] => destruct (Z.eqb_spec a b)
         | H : context [?a =? ?b] |- _ => destruct (Z.eqb_spec a b)
         end;
  simpl in *;
  repeat match goal with
         | |- context [?a <? ?b] => destruct (Z.ltb_spec a b)
         | H : context [?a <? ?b] |- _ => destruct (Z.ltb_spec a b)
         end;
  try congruence; try lia.

Lemma rank_key_ge_trans (a b c : evidence) :
  ranked_ok a -> ranked_ok b -> ranked_ok c ->
  rank_key_lt a b = false -> rank_key_lt b c = false -> rank_key_lt a c = false.
Proof. intros Ha Hb Hc Hab Hbc. float_order. Qed.

Lemma rank_key_lt_asym (a b : evidence) :
  rank_key_lt a b = true -> rank_key_lt b a = false.
Proof. intros Hab. float_order. Qed.

Lemma rank_key_ge_score (a b : evidence) :
  ranked_ok a -> ranked_ok b ->
  rank_key_lt a b = false -> flt (ev_score_final a) (ev_score_final b) = false.
Proof. intros Ha Hb Hab. float_order. Qed.

Lemma StronglySorted_impl_Forall {A} (R1 R2 : A -> A -> Prop) (P : A -> Prop) l :
  (forall a b, P a -> P b -> R1 a b -> R2 a b) ->
  Forall P l -> StronglySorted R1 l -> StronglySorted R2 l.
Proof.
  intros Himp HP Hs. induction Hs as [|x l Hs IH Hx]; [constructor|].
  inversion HP as [|? ? Px Pl]; subst.
  constructor; [auto|].
  rewrite Forall_forall in Hx, Pl |- *. intros y Hy. apply Himp; auto.
Qed.

Lemma rank_sorted_score_desc (l : list evidence) :
  Forall ranked_ok l -> score_desc (sort_desc rank_key_lt l).
Proof.
  intros HP. unfold score_desc.
  apply (StronglySorted_impl_Forall (fun a b => rank_key_lt a b = false) _ ranked_ok).
  - intros a b. apply rank_key_ge_score.
  - rewrite sort_desc_perm. exact HP.
  - apply (sort_desc_sorted rank_key_lt ranked_ok).
    + apply rank_key_ge_trans.
    + apply rank_key_lt_asym.
    + exact HP.
Qed.

(** ** Dictionaries *)

Lemma dict_lookup_set_eq d k v : dict_lookup (dict_set d k v) k = Some v.
Proof.
  induction d as [|[k' v'] d IH]; simpl.
  - rewrite pystr_eqb_refl. reflexivity.
  - destruct (pystr_eqb k' k) eqn:E; simpl; rewrite E; [reflexivity | exact IH].
Qed.

Lemma dict_lookup_set_ne d k k' v :
  k <> k' -> dict_lookup (dict_set d k v) k' = dict_lookup d k'.
Proof.
  intros Hne. induction d as [|[k0 v0] d IH]; simpl.
  - apply pystr_eqb_neq in Hne. rewrite Hne. reflexivity.
  - destruct (pystr_eqb k0 k) eqn:E; simpl.
    + apply pystr_eqb_eq in E. subst k0.
      apply pystr_eqb_neq in Hne. rewrite Hne. reflexivity.
    + destruct (pystr_eqb k0 k'); [reflexivity | exact IH].
Qed.

Lemma dict_get_set_eq d k v : dict_get (dict_set d k v) k = v.
Proof. unfold dict_get. rewrite dict_lookup_set_eq. reflexivity. Qed.

Lemma dict_get_set_ne d k k' v :
  k <> k' -> dict_get (dict_set d k v) k' = dict_get d k'.
Proof. intros H. unfold dict_get. rewrite dict_lookup_set_ne by exact H. reflexivity. Qed.

Lemma dict_get_setdefault_ne d k k' v :
  k <> k' -> dict_get (dict_setdefault d k v) k' = dict_get d k'.
Proof.
  intros H. unfold dict_setdefault. destruct (dict_has d k); [reflexivity|].
  apply dict_get_set_ne. exact H.
Qed.

Lemma duplicates_not_chunk_id : u "duplicates" <> u "chunk_id".
Proof. vm_compute. discriminate. Qed.

(** ** Merging keeps the record *)

Lemma same_record_refl a : same_record a a.
Proof. repeat split. Qed.

Lemma same_record_trans a b c : same_record a b -> same_record b c -> same_record a c.
Proof.
  intros (H1 & H2 & H3 & H4) (G1 & G2 & G3 & G4).
  repeat split; congruence.
Qed.

Lemma same_record_sym a b : same_record a b -> same_record b a.
Proof. intros (H1 & H2 & H3 & H4). repeat split; congruence. Qed.

Lemma same_record_key `{R : PyRuntime} a b :
  same_record a b -> dedupe_key a = dedupe_key b.
Proof. intros (H1 & _ & _ & H4). unfold dedupe_key. rewrite H1, H4. reflexivity. Qed.

Lemma set_meta_duplicates_same ev v :
  same_record (set_meta ev (dict_set (ev_meta ev) (u "duplicates") v)) ev.
Proof.
  repeat split; simpl. apply dict_get_set_ne, duplicates_not_chunk_id.
Qed.

Lemma setdefault_duplicates_same ev v :
  same_record (set_meta ev (dict_setdefault (ev_meta ev) (u "duplicates") v)) ev.
Proof.
  repeat split; simpl. apply dict_get_setdefault_ne, duplicates_not_chunk_id.
Qed.

(** The merged record is the kept one or the incoming one, and it is the
    kept one unless the incoming score is strictly greater. *)
Lemma merge_duplicate_cases kept incoming merged :
  _merge_duplicate kept incoming = Ok merged ->
  (flt (ev_score_final kept) (ev_score_final incoming) = false /\ same_record merged kept)
  \/ (flt (ev_score_final kept) (ev_score_final incoming) = true
      /\ same_record merged incoming).
Proof.
  unfold _merge_duplicate. intros H.
  destruct (flt (ev_score_final kept) (ev_score_final incoming)).
  - right. split; [reflexivity|].
    destruct (py_list _) as [dups|e]; simpl in H; [|discriminate].
    injection H as <-. apply set_meta_duplicates_same.
  - left. split; [reflexivity|].
    destruct (py_list _) as [dups|e]; simpl in H; [|discriminate].
    injection H as <-. apply set_meta_duplicates_same.
Qed.

(** ** Near-duplicate test *)

Lemma jaccard_sym (a b : gset pystr) : _jaccard_similarity a b = _jaccard_similarity b a.
Proof.
  unfold _jaccard_similarity.
  rewrite (andb_comm (bool_decide (a = ∅))), (orb_comm (bool_decide (a = ∅))).
  assert (Hi : a ∩ b = b ∩ a) by apply intersection_comm_L.
  assert (Hu : a ∪ b = b ∪ a) by apply union_comm_L.
  rewrite Hi, Hu. reflexivity.
Qed.

Lemma near_duplicate_sym (a b : gset pystr) : near_duplicate a b = near_duplicate b a.
Proof. unfold near_duplicate. rewrite jaccard_sym. reflexivity. Qed.

Lemma far_sym a b : far a b -> far b a.
Proof. unfold far. rewrite near_duplicate_sym. auto. Qed.

Lemma find_duplicate_idx_None cur token_sets i :
  find_duplicate_idx cur token_sets i = None ->
  Forall (fun seen => near_duplicate cur seen = false) token_sets.
Proof.
  revert i. induction token_sets as [|s ts IH]; intros i H; simpl in H; [constructor|].
  destruct (near_duplicate cur s) eqn:E; [discriminate|].
  constructor; [exact E | eapply IH; exact H].
Qed.

Lemma find_duplicate_idx_Some cur token_sets i j :
  find_duplicate_idx cur token_sets i = Some j ->
  exists seen, token_sets !! (j - i)%nat = Some seen
               /\ near_duplicate cur seen = true /\ (i <= j)%nat.
Proof.
  revert i. induction token_sets as [|s ts IH]; intros i H; simpl in H; [discriminate|].
  destruct (near_duplicate cur s) eqn:E.
  - injection H as <-. exists s. rewrite Nat.sub_diag. auto.
  - destruct (IH _ H) as (seen & Hl & Hn & Hle).
    exists seen. replace (j - i)%nat with (S (j - S i)) by lia.
    simpl. split; [exact Hl | split; [exact Hn | lia]].
Qed.

(** ** The two deduplication steps *)

Lemma StronglySorted_sublist {A} (Rel : A -> A -> Prop) (l l' : list A) :
  sublist l l' -> StronglySorted Rel l' -> StronglySorted Rel l.
Proof.
  induction 1 as [|x l l' Hsub IH|x l l' Hsub IH]; intros Hs.
  - constructor.
  - apply StronglySorted_cons in Hs as [Hx Hs].
    apply StronglySorted_cons. split; [|auto].
    rewrite Forall_forall in Hx |- *. intros y Hy. apply Hx.
    eapply sublist_submseteq, elem_of_submseteq in Hsub; eauto.
  - apply StronglySorted_cons in Hs as [_ Hs]. auto.
Qed.

Lemma list_item_Ok {A} (l : list A) i x : list_item l i = Ok x -> l !! i = Some x.
Proof. unfold list_item. destruct (l !! i); [intros [= ->]; reflexivity | discriminate]. Qed.

Lemma score_desc_same (l k : list evidence) :
  Forall2 same_record l k -> score_desc k -> score_desc l.
Proof.
  unfold score_desc. intros HF. induction HF as [|x y l k Hxy HF IH]; intros Hs.
  - constructor.
  - apply StronglySorted_cons in Hs as [Hy Hs].
    apply StronglySorted_cons. split; [|auto].
    destruct Hxy as (_ & _ & Hsc & _). rewrite Hsc.
    clear IH Hs. induction HF as [|x' y' l k Hxy' HF IH]; [constructor|].
    inversion Hy; subst. constructor; [|auto].
    destruct Hxy' as (_ & _ & Hsc' & _). rewrite Hsc'. assumption.
Qed.

Section DedupSteps.
Context `{R : PyRuntime}.

Lemma same_record_tokens a b : same_record a b -> tokens_of a = tokens_of b.
Proof. intros (_ & H & _). unfold tokens_of. rewrite H. reflexivity. Qed.

Lemma keys_indexed_NoDup bsc ki :
  keys_indexed bsc ki -> NoDup (dedupe_key <$> bsc).
Proof.
  intros Hk. apply NoDup_alt. intros i j k Hi Hj.
  apply list_lookup_fmap_Some in Hi as (a & -> & Ha).
  apply list_lookup_fmap_Some in Hj as (b & Hab & Hb).
  apply Hk in Ha, Hb. rewrite Hab in Ha. congruence.
Qed.

Lemma key_dedupe_step_inv scored pre ev post st st' :
  score_desc scored ->
  scored = pre ++ ev :: post ->
  key_dedupe_inv pre st ->
  key_dedupe_step st ev = Ok st' ->
  key_dedupe_inv (pre ++ [ev]) st'.
Proof.
  intros Hdesc Hscored [(sub & Hsub & Hsame) Hidx] Hstep.
  destruct st as [bsc ki]. simpl in *. unfold key_dedupe_step in Hstep.
  set (ev2 := set_meta ev (dict_setdefault (ev_meta ev) (u "duplicates") (PList []))) in *.
  assert (Hev2 : same_record ev2 ev) by apply setdefault_duplicates_same.
  destruct (ki !! dedupe_key ev2) as [idx|] eqn:Hki.
  - destruct (list_item bsc idx) as [kept|e] eqn:Hkept; simpl in Hstep; [|discriminate].
    apply list_item_Ok in Hkept.
    destruct (_merge_duplicate kept ev2) as [merged|e] eqn:Hm; simpl in Hstep; [|discriminate].
    injection Hstep as <-.
    destruct (Forall2_lookup_l _ _ _ _ _ Hsame Hkept) as (p & Hp & Hkp).
    assert (Hge : flt (ev_score_final kept) (ev_score_final ev2) = false).
    { destruct Hkp as (_ & _ & -> & _). destruct Hev2 as (_ & _ & -> & _).
      subst scored. unfold score_desc in Hdesc.
      apply (StronglySorted_app_1_elem_of _ _ _ _ _ Hdesc).
      - eapply sublist_submseteq, elem_of_submseteq in Hsub; [exact Hsub|].
        eapply list_elem_of_lookup_2. exact Hp.
      - left. }
    destruct (merge_duplicate_cases _ _ _ Hm) as [[_ Hmk] | [Hlt _]]; [|congruence].
    split; simpl.
    + exists sub. split; [apply sublist_inserts_r; exact Hsub|].
      rewrite <- (list_insert_id sub idx p Hp).
      apply Forall2_insert; [exact Hsame|].
      eapply same_record_trans; eauto.
    + intros i b Hb.
      destruct (decide (i = idx)) as [->|Hne].
      * rewrite list_lookup_insert_eq in Hb by (eapply lookup_lt_Some; exact Hkept).
        injection Hb as <-.
        rewrite (same_record_key _ _ Hmk). apply Hidx. exact Hkept.
      * rewrite list_lookup_insert_ne in Hb by congruence. apply Hidx. exact Hb.
  - injection Hstep as <-. split; simpl.
    + exists (sub ++ [ev]). split; [apply sublist_app; [exact Hsub | reflexivity]|].
      apply Forall2_app; [exact Hsame | constructor; [exact Hev2 | constructor]].
    + intros i b Hb.
      apply lookup_app_Some in Hb as [Hb | [Hlen Hb]].
      * pose proof (Hidx _ _ Hb) as Hkb.
        rewrite lookup_insert_ne; [exact Hkb|].
        intros Heq. rewrite Heq in Hki. congruence.
      * destruct (i - length bsc)%nat as [|n] eqn:Hn; simpl in Hb; [|discriminate].
        injection Hb as <-. replace i with (length bsc) by lia.
        apply lookup_insert_eq.
Qed.

Lemma text_dedupe_step_inv bsc pre ev post st st' :
  score_desc bsc ->
  bsc = pre ++ ev :: post ->
  text_dedupe_inv pre st ->
  text_dedupe_step st ev = Ok st' ->
  text_dedupe_inv (pre ++ [ev]) st'.
Proof.
  intros Hdesc Hbsc ((sub & Hsub & Hsame) & Htok & Hfar) Hstep.
  destruct st as [deduped ts]. simpl in *. subst ts.
  unfold text_dedupe_step in Hstep. fold (tokens_of ev) in Hstep.
  destruct (find_duplicate_idx (tokens_of ev) (tokens_of <$> deduped) 0)
    as [i|] eqn:Hfind.
  - destruct (list_item deduped i) as [kept|e] eqn:Hkept; simpl in Hstep; [|discriminate].
    apply list_item_Ok in Hkept.
    destruct (_merge_duplicate kept ev) as [merged|e] eqn:Hm; simpl in Hstep; [|discriminate].
    injection Hstep as <-.
    destruct (Forall2_lookup_l _ _ _ _ _ Hsame Hkept) as (p & Hp & Hkp).
    assert (Hge : flt (ev_score_final kept) (ev_score_final ev) = false).
    { destruct Hkp as (_ & _ & -> & _).
      subst bsc. unfold score_desc in Hdesc.
      apply (StronglySorted_app_1_elem_of _ _ _ _ _ Hdesc).
      - eapply sublist_submseteq, elem_of_submseteq in Hsub; [exact Hsub|].
        eapply list_elem_of_lookup_2. exact Hp.
      - left. }
    destruct (merge_duplicate_cases _ _ _ Hm) as [[_ Hmk] | [Hlt _]]; [|congruence].
    assert (Hts : <[i := _tokenize_for_jaccard (ev_text merged)]> (tokens_of <$> deduped)
                  = tokens_of <$> (<[i := merged]> deduped)).
    { rewrite list_fmap_insert. reflexivity. }
    split; [|split]; simpl.
    + exists sub. split; [apply sublist_inserts_r; exact Hsub|].
      rewrite <- (list_insert_id sub i p Hp).
      apply Forall2_insert; [exact Hsame|].
      eapply same_record_trans; eauto.
    + exact Hts.
    + rewrite list_insert_id; [exact Hfar|].
      rewrite list_lookup_fmap, Hkept. simpl. f_equal.
      symmetry. apply (same_record_tokens _ _ Hmk).
  - injection Hstep as <-.
    apply find_duplicate_idx_None in Hfind.
    split; [|split]; simpl.
    + exists (sub ++ [ev]). split; [apply sublist_app; [exact Hsub | reflexivity]|].
      apply Forall2_app; [exact Hsame | constructor; [apply same_record_refl | constructor]].
    + rewrite fmap_app. reflexivity.
    + apply StronglySorted_app. split; [|split; [exact Hfar | repeat constructor]].
      intros x1 x2 Hx1 Hx2. apply list_elem_of_singleton in Hx2. subst x2.
      apply far_sym. rewrite Forall_forall in Hfind. apply Hfind. exact Hx1.
Qed.

End DedupSteps.

(** ** Deduplication is complete *)

Lemma recency_is_number now ts : is_number (_recency_score now ts).
Proof.
  unfold _recency_score, is_number.
  repeat match goal with
         | |- context [if ?c then _ else _] => destruct c
         end; vm_compute; discriminate.
Qed.

Lemma NoDup_submseteq_of {A} (l k : list A) : l ⊆+ k -> NoDup k -> NoDup l.
Proof.
  intros Hsub Hk. destruct (submseteq_Permutation _ _ Hsub) as [k' Hp].
  rewrite Hp in Hk. apply NoDup_app in Hk. tauto.
Qed.

Section DedupCompleteness.
Context `{R : PyRuntime}.

Lemma same_record_keys (l k : list evidence) :
  Forall2 same_record l k -> dedupe_key <$> l = dedupe_key <$> k.
Proof.
  induction 1 as [|x y l k Hxy _ IH]; [reflexivity|].
  rewrite !fmap_cons, (same_record_key _ _ Hxy), IH. reflexivity.
Qed.

Lemma slice_sort_submseteq (l : list evidence) (n : Z) :
  slice_to (sort_desc score_lt l) n ⊆+ l.
Proof.
  unfold slice_to.
  destruct (0 <=? n);
    (etransitivity; [apply submseteq_take | apply Permutation_submseteq, sort_desc_perm]).
Qed.

(** Post-processing a list whose scores never increase leaves no two
    records with the same key and no two near duplicates. *)
Lemma postprocess_dedup (scored : list evidence) (top_n : Z) (out : list evidence) :
  score_desc scored ->
  _postprocess_candidates scored top_n = Ok out ->
  NoDup (dedupe_key <$> out) /\ StronglySorted far (tokens_of <$> out).
Proof.
  intros Hdesc Hpost. unfold _postprocess_candidates in Hpost.
  destruct (fold_result key_dedupe_step scored ([], ∅)) as [st1|e] eqn:H1;
    simpl in Hpost; [|discriminate].
  destruct (fold_result text_dedupe_step (fst st1) ([], [])) as [st2|e] eqn:H2;
    simpl in Hpost; [|discriminate].
  injection Hpost as <-.
  (* step 1 *)
  assert (I1 : key_dedupe_inv scored st1).
  { apply (fold_result_inv key_dedupe_step key_dedupe_inv scored ([], ∅) st1); [| |exact H1].
    - split; [exists []; split; [reflexivity | constructor]|].
      intros i b Hb. discriminate.
    - intros pre x post a1 a2 Hl Hinv Hstep.
      eapply key_dedupe_step_inv; eauto. }
  destruct I1 as [(sub1 & Hsub1 & Hsame1) Hidx].
  assert (Hdesc1 : score_desc (fst st1)).
  { eapply score_desc_same; [exact Hsame1|].
    eapply StronglySorted_sublist; [exact Hsub1 | exact Hdesc]. }
  (* step 2 *)
  assert (I2 : text_dedupe_inv (fst st1) st2).
  { apply (fold_result_inv text_dedupe_step text_dedupe_inv (fst st1) ([], []) st2);
      [| |exact H2].
    - split; [exists []; split; [reflexivity | constructor]|].
      split; [reflexivity | constructor].
    - intros pre x post a1 a2 Hl Hinv Hstep.
      eapply text_dedupe_step_inv; eauto. }
  destruct I2 as [(sub2 & Hsub2 & Hsame2) [Htok Hfar]].
  pose proof (slice_sort_submseteq (fst st2) top_n) as Hout.
  split.
  - apply (NoDup_submseteq_of _ (dedupe_key <$> fst st2)).
    + apply fmap_submseteq. exact Hout.
    + rewrite (same_record_keys _ _ Hsame2).
      apply (sublist_NoDup _ (dedupe_key <$> fst st1)).
      * eapply keys_indexed_NoDup. exact Hidx.
      * apply fmap_sublist. exact Hsub2.
  - apply (StronglySorted_submseteq_sym far _ (tokens_of <$> fst st2)).
    + apply far_sym.
    + apply fmap_submseteq. exact Hout.
    + rewrite <- Htok. exact Hfar.
Qed.

Lemma score_all_ranked_ok clock k candidates scored :
  (forall i item, candidates !! i = Some item ->
                  is_number (candidate_score (clock (k + i)%nat) item)) ->
  score_all clock k candidates = Ok scored ->
  Forall ranked_ok scored.
Proof.
  revert k scored. induction candidates as [|item rest IH]; intros k scored Hnum Hs;
    simpl in Hs.
  - injection Hs as <-. constructor.
  - destruct (score_candidate (clock k) k item) as [out|e] eqn:Hout; simpl in Hs;
      [|discriminate].
    destruct (score_all clock (S k) rest) as [outs|e] eqn:Houts; simpl in Hs;
      [|discriminate].
    injection Hs as <-. constructor.
    + unfold score_candidate in Hout.
      destruct (mapping_entries _); simpl in Hout; [|discriminate].
      injection Hout as <-. split; simpl.
      * specialize (Hnum 0%nat item eq_refl). rewrite Nat.add_0_r in Hnum. exact Hnum.
      * apply recency_is_number.
    + apply (IH (S k)); [|exact Houts].
      intros i it Hit. specialize (Hnum (S i) it Hit).
      replace (S k + i)%nat with (k + S i)%nat by lia. exact Hnum.
Qed.

End DedupCompleteness.

(** C2, where the statement fails: two texts in hiragana have no run of
    [a-z0-9] and no CJK ideograph, so the token sets the statement describes are
    both empty, with similarity 1.0; the code falls back on the words of the
    text, finds two different words, and keeps both records. *)
Lemma kana_texts_counterexample :
  exists a b,
    _score_and_rank_candidates default_config (fun _ => 200) kana_candidates 3
    = Ok [a; b]
    /\ near_duplicate (tokens_as_specified (ev_text a))
                      (tokens_as_specified (ev_text b)) = true
    /\ near_duplicate (_tokenize_for_jaccard (ev_text a))
                      (_tokenize_for_jaccard (ev_text b)) = false.
Proof.
  do 2 eexists. split; [vm_compute; reflexivity|].
  split; vm_compute; reflexivity.
Qed.

(** C2 (amended): when every computed score is a number (no NaN), the
    records that the scorer returns after the two deduplication steps are
    pairwise distinct in [(source_id, chunk_id)] and no two of them have
    token sets of Jaccard similarity above 0.9, the token set being the one
    of [_tokenize_for_jaccard]: the runs of [a-z0-9] and the single CJK code
    points of the normalized text or, when there is none, its words. *)
Theorem dedup_completeness `{R : PyRuntime} (cfg : config) (clock : nat -> Z)
    (candidates : list candidate) (top_n : Z) (out : list evidence) :
  (forall i item, candidates !! i = Some item ->
                  is_number (candidate_score (clock i) item)) ->
  _score_and_rank_candidates cfg clock candidates top_n = Ok out ->
  NoDup (dedupe_key <$> out)
  /\ (forall i j a b,
         i <> j -> out !! i = Some a -> out !! j = Some b ->
         near_duplicate (_tokenize_for_jaccard (ev_text a))
                        (_tokenize_for_jaccard (ev_text b)) = false).
Proof.
  intros Hnum Hrun. unfold _score_and_rank_candidates in Hrun.
  destruct (score_all clock 0 candidates) as [scored|e] eqn:Hscored; simpl in Hrun;
    [|discriminate].
  assert (Hok : Forall ranked_ok scored).
  { eapply (score_all_ranked_ok clock 0%nat); [|exact Hscored]. exact Hnum. }
  destruct (postprocess_dedup _ _ _ (rank_sorted_score_desc scored Hok) Hrun)
    as [Hkeys Hfar].
  split; [exact Hkeys|].
  intros i j a b Hij Ha Hb.
  apply (StronglySorted_lookup_sym far (tokens_of <$> out) i j
           (tokens_of a) (tokens_of b) far_sym Hfar Hij).
  - rewrite list_lookup_fmap, Ha. reflexivity.
  - rewrite list_lookup_fmap, Hb. reflexivity.
Qed.

(** ** Records with an empty token set *)

Lemma jaccard_empty_empty : _jaccard_similarity ∅ ∅ = 1%Q.
Proof. reflexivity. Qed.



Section CountIf.
Context {A : Type} (P : A -> Prop) `{!forall x, Decision (P x)}.


End CountIf.

Section EmptyTokenSets.
Context `{R : PyRuntime}.


End EmptyTokenSets.







Section MergedRecords.
Context `{R : PyRuntime}.


Lemma with_duplicates_tokens ev : tokens_of (with_duplicates_entry ev) = tokens_of ev.
Proof. reflexivity. Qed.







End MergedRecords.


(** ** The context cache and the JSON-RPC handler *)

Lemma flt_not_fle (a b : float) : flt a b = true -> fle b a = false.
Proof.
  unfold flt, fle. destruct (fval a), (fval b); try discriminate.
  rewrite Z.ltb_lt, Z.leb_gt. auto.
Qed.

Lemma tools_call_not_initialize : val_is_str (PStr (u "tools/call")) (u "initialize") = false.
Proof. vm_compute. reflexivity. Qed.

Lemma tools_call_not_list : val_is_str (PStr (u "tools/call")) (u "tools/list") = false.
Proof. vm_compute. reflexivity. Qed.

Lemma tools_call_is_call : val_is_str (PStr (u "tools/call")) (u "tools/call") = true.
Proof. vm_compute. reflexivity. Qed.

Lemma gateway_ctx_is_name : val_is_str (PStr (u "gateway_ctx")) (u "gateway_ctx") = true.
Proof. vm_compute. reflexivity. Qed.

Section HandlerFacts.
Context `{R : PyRuntime}.

(** A [tools/call] of [gateway_ctx] goes through [gateway_ctx_call]. *)
Lemma handle_tools_call cfg w header_pv c msg params arguments :
  msg_method msg = PStr (u "tools/call") ->
  msg_params msg = Ok params ->
  dict_get params (u "name") = PStr (u "gateway_ctx") ->
  call_arguments params = Ok arguments ->
  let h := _handle_jsonrpc cfg w header_pv c msg in
  h_response h
  = Ok (reply (negb (dict_has msg (u "id")))
          (RpcResult (dict_get msg (u "id"))
             (ToolCallResult (snd (gateway_ctx_call cfg w c arguments)))))
  /\ h_cache h = fst (gateway_ctx_call cfg w c arguments).
Proof.
  intros Hm Hp Hn Ha. unfold _handle_jsonrpc.
  rewrite Hm, Hp, Hn, Ha.
  rewrite tools_call_not_initialize, tools_call_not_list, tools_call_is_call,
    gateway_ctx_is_name.
  simpl negb. cbv iota.
  destruct (gateway_ctx_call cfg w c arguments) as [c' t]. simpl. auto.
Qed.

(** A stale entry: no fresh hit, and the miss reason is "expired". *)
Lemma stale_entry_probe cfg w c user primary_keyword hit :
  cache_get c (cache_key_of cfg user primary_keyword) = Some hit ->
  flt (CACHE_TTL_SECS cfg) (w_now w - stored_at hit)%float = true ->
  fresh_hit cfg w c (cache_key_of cfg user primary_keyword) = None
  /\ miss_reason cfg w c user primary_keyword = u "expired".
Proof.
  intros Hget Hold. unfold fresh_hit, miss_reason.
  rewrite Hget, Hold, (flt_not_fle _ _ Hold). auto.
Qed.

(** What the cache-miss path does with the outcome of the retrieval. *)
Lemma gateway_ctx_call_miss cfg w c arguments :
  let key := request_cache_key cfg arguments in
  let primary := resolve_primary_keyword cfg (arg_keyword arguments) (arg_text arguments) in
  let reason := miss_reason cfg w c (arg_user arguments) primary in
  fresh_hit cfg w c key = None ->
  match retrieval_attempt cfg w (arg_text arguments) (arg_user arguments)
          (arg_summaries arguments) primary reason with
  | Ok (ctx, res) =>
      gateway_ctx_call cfg w c arguments
      = (evict_if_over cfg
           (cache_put c key {| stored_at := w_now_write w; snippet := ctx;
                               cached_result := res |}),
         _mcp_wrap_text res ctx false)
      /\ r_cache_hit res = false /\ r_cache_miss_reason res = reason
  | Raise e =>
      gateway_ctx_call cfg w c arguments
      = (c, _mcp_wrap_text (error_result cfg primary reason e) (exn_text e) true)
  end.
Proof.
  intros key primary reason Hmiss.
  unfold gateway_ctx_call. fold primary. fold reason.
  unfold request_cache_key in key. fold primary in key. fold key. rewrite Hmiss.
  destruct (retrieval_attempt _ _ _ _ _ _ _) as [[ctx res]|e] eqn:Hatt; [|reflexivity].
  split; [reflexivity|].
  unfold retrieval_attempt in Hatt.
  repeat match type of Hatt with
         | (mbind _ ?r = Ok _) => destruct r; simpl in Hatt; [|discriminate]
         | ((let '(_, _) := ?p in _) = Ok _) => destruct p
         end.
  injection Hatt as _ <-. simpl. auto.
Qed.

(** An exception of the retrieval call escapes the pipeline. *)
Lemma retrieval_attempt_call_failure cfg w text user summaries primary reason e :
  _call_dify_anchor cfg w primary user = Raise e ->
  retrieval_attempt cfg w text user summaries primary reason = Raise e.
Proof. intros H. unfold retrieval_attempt. rewrite H. reflexivity. Qed.

End HandlerFacts.

(** C3, where the statement fails: a request that finds a stale entry while
    the retrieval service is down is answered with the miss reason "expired",
    and the stale entry is still in the cache afterwards: nothing is evicted
    when the entry is read. *)
Lemma stale_entry_not_evicted_counterexample :
  let h := _handle_jsonrpc default_config failing_world [] stale_cache example_call in
  cache_get stale_cache (request_cache_key default_config example_arguments)
  = Some stale_entry
  /\ flt (CACHE_TTL_SECS default_config)
         (w_now failing_world - stored_at stale_entry)%float = true
  /\ (exists t,
         h_response h = Ok (Some (RpcResult (PInt 7) (ToolCallResult t)))
         /\ r_cache_miss_reason (data t) = u "expired")
  /\ cache_get (h_cache h) (request_cache_key default_config example_arguments)
     = Some stale_entry.
Proof.
  cbv zeta. split; [vm_compute; reflexivity|]. split; [vm_compute; reflexivity|].
  split; [|vm_compute; reflexivity].
  eexists. split; vm_compute; reflexivity.
Qed.

(** C3 (amended): a [tools/call] of [gateway_ctx] that finds, under its cache
    key, an entry older than the TTL is handled as a cache miss with
    [cache_miss_reason] "expired".  The stale entry is not removed when it is
    read: it stays as it is when the retrieval fails, and it is overwritten
    by the new entry (before the size cap is applied) when the retrieval
    succeeds. *)
Theorem expired_entry_is_a_miss `{R : PyRuntime}
    (cfg : config) (w : world) (header_pv : pystr) (c : list (list Z * cache_entry))
    (msg params arguments : list (list Z * pyval)) (hit : cache_entry) :
  msg_method msg = PStr (u "tools/call") ->
  msg_params msg = Ok params ->
  dict_get params (u "name") = PStr (u "gateway_ctx") ->
  call_arguments params = Ok arguments ->
  cache_get c (request_cache_key cfg arguments) = Some hit ->
  flt (CACHE_TTL_SECS cfg) (w_now w - stored_at hit)%float = true ->
  let h := _handle_jsonrpc cfg w header_pv c msg in
  exists t,
    h_response h
    = Ok (reply (negb (dict_has msg (u "id")))
            (RpcResult (dict_get msg (u "id")) (ToolCallResult t)))
    /\ r_cache_hit (data t) = false
    /\ r_cache_miss_reason (data t) = u "expired"
    /\ (isError t = true -> h_cache h = c)
    /\ (isError t = false ->
        h_cache h
        = evict_if_over cfg
            (cache_put c (request_cache_key cfg arguments)
               {| stored_at := w_now_write w; snippet := content_text t;
                  cached_result := data t |})).
Proof.
  intros Hm Hp Hn Ha Hget Hold h.
  destruct (handle_tools_call cfg w header_pv c msg params arguments Hm Hp Hn Ha)
    as [Hresp Hcache].
  fold h in Hresp, Hcache.
  destruct (stale_entry_probe cfg w c _ _ hit Hget Hold) as [Hfresh Hreason].
  pose proof (gateway_ctx_call_miss cfg w c arguments Hfresh) as Hcall.
  cbv zeta in Hcall. rewrite Hreason in Hcall.
  exists (snd (gateway_ctx_call cfg w c arguments)).
  split; [exact Hresp|]. rewrite Hcache.
  destruct (retrieval_attempt _ _ _ _ _ _ _) as [[ctx res]|e].
  - destruct Hcall as (-> & Hhit & Hwhy). simpl.
    repeat split; auto. discriminate.
  - rewrite Hcall. simpl. repeat split; auto. discriminate.
Qed.

(** The expiry theorem at [example_call], with the service down. *)
Lemma expired_entry_is_a_miss_witness :
  exists t,
    h_response (_handle_jsonrpc default_config failing_world [] stale_cache example_call)
    = Ok (Some (RpcResult (PInt 7) (ToolCallResult t)))
    /\ r_cache_miss_reason (data t) = u "expired".
Proof.
  destruct (@expired_entry_is_a_miss reference_runtime default_config failing_world []
              stale_cache example_call example_params example_arguments stale_entry)
    as (t & Hresp & _ & Hwhy & _);
    try (vm_compute; reflexivity).
  exists t. split; [exact Hresp | exact Hwhy].
Defined.




(** ** Notifications *)

Section Notifications.
Context `{R : PyRuntime}.

(** Whatever the method, a message is answered exactly when it has an
    [id]. *)
Lemma handle_jsonrpc_reply cfg w header_pv c msg r :
  h_response (_handle_jsonrpc cfg w header_pv c msg) = Ok r ->
  (r = None <-> dict_has msg (u "id") = false).
Proof.
  unfold _handle_jsonrpc.
  destruct (msg_params msg) as [params|e]; simpl; [|discriminate].
  assert (Hreply : forall x, (reply (negb (dict_has msg (u "id"))) x = None
                              <-> dict_has msg (u "id") = false)).
  { intros x. unfold reply. destruct (dict_has msg (u "id")); simpl; split; congruence. }
  repeat match goal with
         | |- context [if ?b then _ else _] => destruct b
         end;
    simpl; try (intros [= <-]; apply Hreply).
  destruct (call_arguments params) as [arguments|e]; simpl; [|discriminate].
  destruct (gateway_ctx_call cfg w c arguments) as [c' t]. simpl.
  intros [= <-]. apply Hreply.
Qed.

(** A POST whose body is one notification is answered 204, without a body. *)
Lemma single_notification_no_content cfg worlds c header_pv msg resp :
  dict_has msg (u "id") = false ->
  fst (gateway_ctx_mcp cfg worlds c
         {| req_method := u "POST"; req_header_pv := header_pv;
            req_json := Some (PDict msg) |}) = Ok resp ->
  status_code resp = 204 /\ body resp = NoBody.
Proof.
  intros Hid. unfold gateway_ctx_mcp.
  replace (str_in (u "POST") [u "GET"; u "OPTIONS"]) with false
    by (vm_compute; reflexivity).
  cbn [req_method req_json req_header_pv].
  destruct (h_response (_handle_jsonrpc cfg (worlds 0%nat) header_pv c msg))
    as [[r|]|e] eqn:Hr; simpl.
  - apply handle_jsonrpc_reply in Hr. destruct Hr as [_ Hr].
    specialize (Hr Hid). discriminate.
  - intros [= <-]. simpl. auto.
  - discriminate.
Qed.

End Notifications.

(** A mixed batch: the two notifications leave no element, the request keeps
    its place. *)
Example mixed_batch_omits_notifications :
  fst (gateway_ctx_mcp default_config (fun _ => failing_world) []
         (post_request (PList [initialized_notification; initialize_request;
                               initialized_notification])))
  = Ok {| status_code := 200; mcp_protocol_version := u "2025-06-18";
          body := BatchBody [RpcResult (PInt 1) (InitializeResult (u "2025-06-18"))] |}.
Proof. vm_compute. reflexivity. Qed.

(** C8, at the input where the code departs from it: a batch that holds only
    a notification is answered 200 with the empty array [[]], not 204. *)
Theorem notification_batch_answered_with_empty_array :
  gateway_ctx_mcp default_config (fun _ => failing_world) []
    (post_request (PList [initialized_notification]))
  = (Ok {| status_code := 200; mcp_protocol_version := u "2025-06-18";
           body := BatchBody [] |}, []).
Proof. vm_compute. reflexivity. Qed.

(** ** Tool threads *)

(** C6, at the input where the code departs from it: the assistant asked for
    two tool calls and only one was answered.  The answer is kept, then the
    user message finds a call still pending and strips [tool_calls] from the
    assistant message: the tool message that stays has no matching call. *)
Theorem partial_tool_answers_leave_orphan :
  _sanitize_messages_for_upstream
    (PList [assistant_two_calls; tool_answer_a; user_follow_up])
  = Ok [[(u "role", PStr (u "assistant")); (u "content", PNone)];
        [(u "role", PStr (u "tool")); (u "tool_call_id", PStr (u "call_a"));
         (u "content", PStr (u "42"))];
        [(u "role", PStr (u "user")); (u "content", PStr (u "thanks"))]]
  /\ tool_threads_ok None
       [[(u "role", PStr (u "assistant")); (u "content", PNone)];
        [(u "role", PStr (u "tool")); (u "tool_call_id", PStr (u "call_a"));
         (u "content", PStr (u "42"))];
        [(u "role", PStr (u "user")); (u "content", PStr (u "thanks"))]] = false.
Proof. split; vm_compute; reflexivity. Qed.

(** When every call is answered the thread is left alone. *)
Example answered_tool_thread_kept :
  _sanitize_messages_for_upstream
    (PList [PDict [(u "role", PStr (u "assistant"));
                   (u "tool_calls", PList [PDict [(u "id", PStr (u "call_a"))]])];
            tool_answer_a; user_follow_up])
  = Ok [[(u "role", PStr (u "assistant"));
         (u "tool_calls", PList [PDict [(u "id", PStr (u "call_a"))]])];
        [(u "role", PStr (u "tool")); (u "tool_call_id", PStr (u "call_a"));
         (u "content", PStr (u "42"))];
        [(u "role", PStr (u "user")); (u "content", PStr (u "thanks"))]].
Proof. vm_compute. reflexivity. Qed.

(** ** Summary sanitization *)

(** C9, at inputs where the code departs from it: with no help-seeking
    phrase in the transcript, a banned phrase written in [state] is returned
    untouched (only [goal] is searched for it), and a [goal] in which cutting
    the phrase joins the rest into the same phrase is returned with it. *)
Theorem banned_phrase_survives_sanitization :
  _has_help_seeking plain_transcript = false
  /\ (exists obj,
         _sanitize_summary plain_transcript summary_with_banned_state = Ok (PDict obj)
         /\ dict_get obj (u "state") = PStr (u "用户寻求经济帮助")
         /\ has_banned_phrase (dict_get obj (u "state")) = true)
  /\ (exists obj,
         _sanitize_summary plain_transcript summary_with_nested_goal = Ok (PDict obj)
         /\ dict_get obj (u "goal") = PStr (u "寻求经济帮助")
         /\ has_banned_phrase (dict_get obj (u "goal")) = true).
Proof.
  split; [vm_compute; reflexivity|].
  split; eexists; (split; [vm_compute; reflexivity|]); split; vm_compute; reflexivity.
Qed.

(** A goal that is not a string makes the pass raise. *)
Example sanitize_summary_number_goal :
  is_ok (_sanitize_summary plain_transcript (PDict [(u "goal", PInt 5)])) = false.
Proof. vm_compute. reflexivity. Qed.

(** ** The theorems at concrete inputs *)

(** The score theorem at the first example candidate: a keyword hit scores
    0.4 + 0.1 * 1.0 + 0.1 * 1.0 = 0.6. *)
Lemma score_final_weighted_sum_witness :
  exists ev,
    score_candidate 200 0 (example_candidate "kw_0" "keyword" "猫咪" "喵" EmptyString 1 0) = Ok ev
    /\ ev_score_final ev = 0.6%float.
Proof.
  destruct (score_candidate 200 0 (example_candidate "kw_0" "keyword" "猫咪" "喵" EmptyString 1 0))
    as [ev|e] eqn:Hev; [|vm_compute in Hev; discriminate].
  exists ev. split; [reflexivity|].
  destruct (@score_final_weighted_sum reference_runtime 200 0 _ ev Hev)
    as (Hfinal & _ & _ & _ & _ & _ & Hboost & _ & _ & Hrec).
  rewrite Hfinal, Hboost by (left; reflexivity).
  destruct (Hrec ltac:(discriminate)) as [Hday _].
  rewrite Hday by (vm_compute; discriminate).
  vm_compute. reflexivity.
Defined.

(** The deduplication theorem at the example candidates. *)
Lemma dedup_completeness_witness :
  exists out,
    _score_and_rank_candidates default_config (fun _ => 200) example_candidates 5 = Ok out
    /\ NoDup (dedupe_key <$> out).
Proof.
  destruct (_score_and_rank_candidates default_config (fun _ => 200) example_candidates 5)
    as [out|e] eqn:Hrun; [|vm_compute in Hrun; discriminate].
  exists out. split; [reflexivity|].
  refine (proj1 (@dedup_completeness reference_runtime default_config (fun _ => 200)
                   example_candidates 5 out _ Hrun)).
  intros i item Hi.
  do 6 (destruct i as [|i]; [injection Hi as <-; vm_compute; discriminate|]).
  discriminate.
Defined.



(* ================================================================== *)
(** * Keyword normalization and derivation *)
(* ================================================================== *)

(** ** Trimming *)

Lemma drop_while_split (p : Z -> bool) (s : pystr) :
  exists pre, s = pre ++ drop_while p s.
Proof.
  induction s as [|c s [pre IH]]; simpl; [exists []; reflexivity|].
  destruct (p c).
  - exists (c :: pre). simpl. f_equal. exact IH.
  - exists []. reflexivity.
Qed.

Lemma drop_while_starts_clean (p : Z -> bool) (s : pystr) :
  starts_clean p (drop_while p s) = true.
Proof.
  induction s as [|c s IH]; simpl; [reflexivity|].
  destruct (p c) eqn:Hc; [exact IH|]. simpl. rewrite Hc. reflexivity.
Qed.

Lemma drop_while_id (p : Z -> bool) (s : pystr) :
  starts_clean p s = true -> drop_while p s = s.
Proof.
  destruct s as [|c s]; simpl; [reflexivity|].
  destruct (p c); [discriminate | reflexivity].
Qed.

Lemma drop_while_In (p : Z -> bool) (s : pystr) c :
  In c (drop_while p s) -> In c s.
Proof.
  destruct (drop_while_split p s) as [pre H]. intros Hc.
  rewrite H. apply in_or_app. right. exact Hc.
Qed.

Lemma strip_by_In (p : Z -> bool) (s : pystr) c :
  In c (strip_by p s) -> In c s.
Proof.
  unfold strip_by, rstrip_by, lstrip_by. intros Hc.
  apply in_rev, drop_while_In, in_rev in Hc.
  apply drop_while_In in Hc. exact Hc.
Qed.

Lemma rstrip_by_In (p : Z -> bool) (s : pystr) c :
  In c (rstrip_by p s) -> In c s.
Proof.
  unfold rstrip_by. intros Hc.
  apply in_rev, drop_while_In, in_rev in Hc. exact Hc.
Qed.

Lemma rstrip_by_split (p : Z -> bool) (s : pystr) :
  exists suf, s = rstrip_by p s ++ suf.
Proof.
  unfold rstrip_by. destruct (drop_while_split p (rev s)) as [pre H].
  exists (rev pre). rewrite <- rev_app_distr, <- H, rev_involutive. reflexivity.
Qed.

Lemma strip_by_trimmed (p : Z -> bool) (s : pystr) : trimmed p (strip_by p s) = true.
Proof.
  unfold trimmed, strip_by, lstrip_by. apply andb_true_iff. split.
  - pose proof (drop_while_starts_clean p s) as Hl.
    destruct (rstrip_by_split p (drop_while p s)) as [suf Hs].
    destruct (rstrip_by p (drop_while p s)) as [|c r]; [reflexivity|].
    rewrite Hs in Hl. exact Hl.
  - unfold rstrip_by. rewrite rev_involutive. apply drop_while_starts_clean.
Qed.

Lemma strip_by_id (p : Z -> bool) (s : pystr) : trimmed p s = true -> strip_by p s = s.
Proof.
  unfold trimmed, strip_by, lstrip_by, rstrip_by. intros H.
  apply andb_true_iff in H as [H1 H2].
  rewrite (drop_while_id p s H1), (drop_while_id p (rev s) H2).
  apply rev_involutive.
Qed.

(** [strip] twice is [strip] once. *)
Lemma strip_by_idempotent (p : Z -> bool) (s : pystr) :
  strip_by p (strip_by p s) = strip_by p s.
Proof. apply strip_by_id, strip_by_trimmed. Qed.

Lemma starts_clean_app (p : Z -> bool) (a b : pystr) :
  a <> [] -> starts_clean p (a ++ b) = starts_clean p a.
Proof. destruct a; [congruence | reflexivity]. Qed.

Lemma trimmed_app (p : Z -> bool) (a m b : pystr) :
  a <> [] -> b <> [] -> trimmed p a = true -> trimmed p b = true ->
  trimmed p (a ++ m ++ b) = true.
Proof.
  unfold trimmed. intros Ha Hb Hta Htb.
  apply andb_true_iff in Hta as [Ha1 _]. apply andb_true_iff in Htb as [_ Hb2].
  apply andb_true_iff. split.
  - rewrite starts_clean_app by exact Ha. exact Ha1.
  - rewrite !rev_app_distr, <- app_assoc, starts_clean_app; [exact Hb2|].
    intros H. apply (f_equal (@rev Z)) in H. rewrite rev_involutive in H. auto.
Qed.

(** ** Replacing one character *)

Lemma str_replace_char (c d : Z) (s : pystr) :
  str_replace [c] [d] s = map (fun x => if x =? c then d else x) s.
Proof.
  unfold str_replace. induction s as [|x s IH]; simpl; [reflexivity|].
  rewrite (Z.eqb_sym c x). destruct (x =? c); simpl; rewrite IH; reflexivity.
Qed.

Lemma str_replace_char_absent (c d : Z) (s : pystr) :
  ~ In c s -> str_replace [c] [d] s = s.
Proof.
  intros H. rewrite str_replace_char.
  induction s as [|x s IH]; simpl; [reflexivity|].
  destruct (Z.eqb_spec x c) as [->|_].
  - exfalso. apply H. left. reflexivity.
  - f_equal. apply IH. intros Hc. apply H. right. exact Hc.
Qed.

Lemma str_replace_char_In (c d : Z) (s : pystr) x :
  In x (str_replace [c] [d] s) -> (In x s /\ x <> c) \/ x = d.
Proof.
  rewrite str_replace_char, in_map_iff. intros (y & Hy & Hin).
  destruct (Z.eqb_spec y c); [right; congruence|].
  left. subst x. auto.
Qed.

(** [s.replace(c, '')] for one character keeps the other characters. *)
Lemma str_remove_char (c : Z) (s : pystr) :
  str_replace [c] [] s = List.filter (fun x => negb (x =? c)) s.
Proof.
  unfold str_replace. induction s as [|x s IH]; simpl; [reflexivity|].
  rewrite (Z.eqb_sym c x). destruct (x =? c); simpl; rewrite IH; reflexivity.
Qed.

(** ** Splitting and joining *)

Lemma split_on_app_sep (sep : Z) (cur p s : pystr) :
  ~ In sep p ->
  split_on sep cur (p ++ sep :: s) = (cur ++ p) :: split_on sep [] s.
Proof.
  revert cur. induction p as [|c p IH]; intros cur Hp; simpl.
  - rewrite Z.eqb_refl, app_nil_r. reflexivity.
  - destruct (Z.eqb_spec c sep) as [->|_]; [exfalso; apply Hp; left; reflexivity|].
    rewrite IH by (intros H; apply Hp; right; exact H).
    rewrite <- app_assoc. reflexivity.
Qed.

Lemma split_on_no_sep (sep : Z) (cur p : pystr) :
  ~ In sep p -> split_on sep cur p = [cur ++ p].
Proof.
  revert cur. induction p as [|c p IH]; intros cur Hp; simpl.
  - rewrite app_nil_r. reflexivity.
  - destruct (Z.eqb_spec c sep) as [->|_]; [exfalso; apply Hp; left; reflexivity|].
    rewrite IH by (intros H; apply Hp; right; exact H).
    rewrite <- app_assoc. reflexivity.
Qed.

(** Splitting a joined list gives the list back, when no element holds the
    separator. *)
Lemma split_on_join (sep : Z) (parts : list pystr) :
  parts <> [] -> Forall (fun p => ~ In sep p) parts ->
  split_on sep [] (str_join [sep] parts) = parts.
Proof.
  induction parts as [|p rest IH]; intros Hne Hall; [congruence|].
  inversion Hall as [|? ? Hp Hrest]; subst.
  destruct rest as [|q rest].
  - simpl. apply split_on_no_sep. exact Hp.
  - change (str_join [sep] (p :: q :: rest)) with (p ++ sep :: str_join [sep] (q :: rest)).
    rewrite split_on_app_sep by exact Hp. simpl app. f_equal.
    apply IH; [discriminate | exact Hrest].
Qed.

Lemma split_on_pieces (sep : Z) (s cur : pystr) :
  ~ In sep cur ->
  Forall (fun piece => ~ In sep piece /\ forall c, In c piece -> In c cur \/ In c s)
         (split_on sep cur s).
Proof.
  revert cur. induction s as [|c s IH]; intros cur Hcur; simpl.
  - constructor; [|constructor]. split; [exact Hcur | auto].
  - destruct (Z.eqb_spec c sep) as [->|Hne].
    + constructor; [split; [exact Hcur | auto]|].
      specialize (IH [] (fun H => H)).
      eapply Forall_impl; [exact IH|]. simpl.
      intros piece [H1 H2]. split; [exact H1|].
      intros x Hx. destruct (H2 x Hx) as [[]|Hs]. right. right. exact Hs.
    + assert (Hcur' : ~ In sep (cur ++ [c])).
      { intros H. apply in_app_or in H as [H|[H|[]]]; [auto | congruence]. }
      specialize (IH (cur ++ [c]) Hcur').
      eapply Forall_impl; [exact IH|]. simpl.
      intros piece [H1 H2]. split; [exact H1|].
      intros x Hx. destruct (H2 x Hx) as [Hc|Hs].
      * apply in_app_or in Hc as [Hc|[Hc|[]]]; [left; exact Hc | right; left; exact Hc].
      * right. right. exact Hs.
Qed.

Lemma str_join_In (sep : pystr) (parts : list pystr) c :
  In c (str_join sep parts) -> In c sep \/ exists p, In p parts /\ In c p.
Proof.
  induction parts as [|p rest IH]; simpl; [intros []|].
  destruct rest as [|q rest].
  - intros H. right. exists p. auto.
  - intros H. apply in_app_or in H as [H|H]; [right; exists p; auto|].
    apply in_app_or in H as [H|H]; [left; exact H|].
    destruct (IH H) as [Hs | (p' & Hp' & Hc)]; [left; exact Hs|].
    right. exists p'. split; [right; exact Hp' | exact Hc].
Qed.

Lemma str_join_nonempty (sep : pystr) (parts : list pystr) p :
  In p parts -> p <> [] -> str_join sep parts <> [].
Proof.
  induction parts as [|q rest IH]; [intros []|].
  intros Hin Hp. destruct rest as [|q' rest].
  - destruct Hin as [->|[]]. exact Hp.
  - change (str_join sep (q :: q' :: rest)) with (q ++ sep ++ str_join sep (q' :: rest)).
    destruct Hin as [->|Hin].
    + destruct p; [congruence | discriminate].
    + intros H. apply app_eq_nil in H as [_ H]. apply app_eq_nil in H as [_ H].
      exact (IH Hin Hp H).
Qed.

(** ** Removing duplicates *)

Lemma str_in_In (s : pystr) (l : list pystr) : str_in s l = true <-> In s l.
Proof.
  unfold str_in. rewrite existsb_exists. split.
  - intros (x & Hx & Heq). apply pystr_eqb_eq in Heq. subst x. exact Hx.
  - intros H. exists s. split; [exact H | apply pystr_eqb_refl].
Qed.

Lemma str_in_not_In (s : pystr) (l : list pystr) : str_in s l = false <-> ~ In s l.
Proof.
  rewrite <- str_in_In. destruct (str_in s l); split; congruence.
Qed.

Lemma uniq_strings_In seen parts x :
  In x (uniq_strings seen parts) -> In x parts /\ ~ In x seen.
Proof.
  revert seen. induction parts as [|p rest IH]; intros seen; simpl; [intros []|].
  destruct (str_in p seen) eqn:Hp.
  - intros H. destruct (IH _ H). auto.
  - intros [->|H].
    + split; [left; reflexivity | apply str_in_not_In; exact Hp].
    + destruct (IH _ H) as [H1 H2]. split; [right; exact H1|].
      intros Hs. apply H2. apply in_or_app. left. exact Hs.
Qed.

Lemma uniq_strings_NoDup seen parts : NoDup (uniq_strings seen parts).
Proof.
  revert seen. induction parts as [|p rest IH]; intros seen; simpl; [constructor|].
  destruct (str_in p seen); [apply IH|].
  constructor; [|apply IH].
  intros H. apply list_elem_of_In, uniq_strings_In in H as [_ H]. apply H.
  apply in_or_app. right. left. reflexivity.
Qed.

Lemma uniq_strings_id seen parts :
  NoDup parts -> (forall x, In x parts -> ~ In x seen) ->
  uniq_strings seen parts = parts.
Proof.
  revert seen. induction parts as [|p rest IH]; intros seen Hnd Hseen; simpl;
    [reflexivity|].
  apply NoDup_cons in Hnd as [Hp Hrest].
  assert (Hps : str_in p seen = false).
  { apply str_in_not_In, Hseen. left. reflexivity. }
  rewrite Hps. f_equal. apply IH; [exact Hrest|].
  intros x Hx Hin. apply in_app_or in Hin as [Hin|[->|[]]].
  - apply (Hseen x); [right; exact Hx | exact Hin].
  - apply Hp, list_elem_of_In. exact Hx.
Qed.

Lemma uniq_strings_head seen p rest :
  ~ In p seen -> exists tail, uniq_strings seen (p :: rest) = p :: tail.
Proof.
  intros H. simpl. apply str_in_not_In in H. rewrite H. eexists. reflexivity.
Qed.

(** ** The canonical form of a normalized keyword list *)

Lemma filter_id {A} (f : A -> bool) (l : list A) :
  Forall (fun x => f x = true) l -> List.filter f l = l.
Proof.
  induction 1 as [|x l Hx _ IH]; simpl; [reflexivity|]. rewrite Hx, IH. reflexivity.
Qed.

Lemma map_id_on {A} (f : A -> A) (l : list A) :
  Forall (fun x => f x = x) l -> map f l = l.
Proof.
  induction 1 as [|x l Hx _ IH]; simpl; [reflexivity|]. rewrite Hx, IH. reflexivity.
Qed.

Lemma str_join_trimmed (parts : list pystr) :
  parts <> [] -> Forall clean_part parts ->
  trimmed py_isspace (str_join [44] parts) = true /\ str_join [44] parts <> [].
Proof.
  induction parts as [|p rest IH]; intros Hne Hall; [congruence|].
  inversion Hall as [|? ? (Hp & Ht & _) Hrest]; subst.
  destruct rest as [|q rest]; [simpl; auto|].
  change (str_join [44] (p :: q :: rest)) with (p ++ [44] ++ str_join [44] (q :: rest)).
  destruct (IH ltac:(discriminate) Hrest) as [IHt IHn].
  split.
  - apply trimmed_app; assumption.
  - destruct p; [congruence | discriminate].
Qed.

(** A list of clean keywords, joined by commas, is a fixed point of the
    normalization. *)
Lemma normalize_kw_join (parts : list pystr) :
  NoDup parts -> Forall clean_part parts ->
  _normalize_kw (str_join (u ",") parts) = str_join (u ",") parts.
Proof.
  intros Hnd Hall. change (u ",") with [44].
  destruct parts as [|p0 rest0] eqn:Hparts; [reflexivity|]. rewrite <- Hparts in *.
  assert (Hne : parts <> []) by (rewrite Hparts; discriminate).
  destruct (str_join_trimmed parts Hne Hall) as [Htrim Hnonempty].
  unfold _normalize_kw, py_strip.
  rewrite (strip_by_id _ _ Htrim).
  destruct (str_join [44] parts) as [|c0 s0] eqn:Hjoin; [congruence|].
  cbn [str_truthy negb]. rewrite <- Hjoin. cbv zeta.
  assert (Hchars : forall c, In c (str_join [44] parts) ->
                             c = 44 \/ ~ In c kw_list_separators).
  { intros c Hc. apply str_join_In in Hc as [[<-|[]] | (p & Hp & Hc)]; [left; reflexivity|].
    right. rewrite List.Forall_forall in Hall. destruct (Hall p Hp) as (_ & _ & H). auto. }
  assert (Habs : forall c, In c [65292; 59; 65307] -> ~ In c (str_join [44] parts)).
  { intros c Hc Hin. destruct (Hchars c Hin) as [->|H].
    - simpl in Hc. intuition discriminate.
    - apply H. simpl in *. intuition. }
  change (u "，") with [65292]. change (u ";") with [59]. change (u "；") with [65307].
  change (u ",") with [44].
  rewrite (str_replace_char_absent 65292) by (apply Habs; simpl; auto).
  rewrite (str_replace_char_absent 59) by (apply Habs; simpl; auto).
  rewrite (str_replace_char_absent 65307) by (apply Habs; simpl; auto).
  rewrite split_on_join; [|exact Hne|].
  2:{ eapply Forall_impl; [exact Hall|]. simpl. intros p (_ & _ & H) Hin.
      apply (H 44 Hin). left. reflexivity. }
  rewrite map_id_on.
  2:{ eapply Forall_impl; [exact Hall|]. simpl. intros p (_ & Ht & _).
      apply strip_by_id. exact Ht. }
  rewrite filter_id.
  2:{ eapply Forall_impl; [exact Hall|]. simpl. intros p (Hp & _).
      destruct p; [congruence | reflexivity]. }
  rewrite uniq_strings_id; [reflexivity | exact Hnd | intros x _ []].
Qed.

(** What the normalization returns is such a list. *)
Lemma normalize_kw_parts (keyword : pystr) :
  exists parts,
    NoDup parts /\ Forall clean_part parts
    /\ _normalize_kw keyword = str_join (u ",") parts
    /\ forall p c, In p parts -> In c p -> In c keyword.
Proof.
  unfold _normalize_kw.
  destruct (negb (str_truthy (py_strip keyword))).
  { exists []. split; [apply NoDup_nil_2|]. split; [apply Forall_nil_2|].
    split; [reflexivity | intros ? ? []]. }
  cbv zeta.
  change (u "，") with [65292]. change (u ";") with [59]. change (u "；") with [65307].
  change (u ",") with [44].
  set (kw := str_replace [65307] [44] (str_replace [59] [44]
               (str_replace [65292] [44] (py_strip keyword)))).
  set (parts := List.filter str_truthy (map py_strip (split_on 44 [] kw))).
  exists (uniq_strings [] parts).
  assert (Hkw : forall c, In c kw -> c = 44 \/ (In c keyword /\ ~ In c kw_list_separators)).
  { intros c Hc. unfold kw in Hc.
    apply str_replace_char_In in Hc as [[Hc H1]|Hc]; [|left; exact Hc].
    apply str_replace_char_In in Hc as [[Hc H2]|Hc]; [|left; exact Hc].
    apply str_replace_char_In in Hc as [[Hc H3]|Hc]; [|left; exact Hc].
    destruct (Z.eq_dec c 44) as [->|H4]; [left; reflexivity|].
    right. split; [apply strip_by_In in Hc; exact Hc|].
    simpl. intuition congruence. }
  assert (Hparts : forall p, In p parts ->
                     clean_part p /\ forall c, In c p -> In c keyword).
  { intros p Hp. unfold parts in Hp.
    apply filter_In in Hp as [Hp Htruthy].
    apply in_map_iff in Hp as (piece & <- & Hpiece).
    pose proof (split_on_pieces 44 kw [] (fun H => H)) as Hall.
    rewrite List.Forall_forall in Hall. destruct (Hall piece Hpiece) as [Hno Hfrom].
    assert (Hc : forall c, In c (py_strip piece) ->
                           In c keyword /\ ~ In c kw_list_separators).
    { intros c Hc. apply strip_by_In in Hc.
      destruct (Hfrom c Hc) as [[]|Hk].
      destruct (Hkw c Hk) as [->|H]; [contradiction | exact H]. }
    split; [|intros c Hin; apply (Hc c Hin)].
    split; [|split].
    - intros H. rewrite H in Htruthy. discriminate.
    - apply strip_by_trimmed.
    - intros c Hin. apply (Hc c Hin). }
  split; [apply uniq_strings_NoDup|].
  split; [|split; [reflexivity|]].
  - apply List.Forall_forall. intros p Hp. apply uniq_strings_In in Hp as [Hp _].
    apply (Hparts p Hp).
  - intros p c Hp Hc. apply uniq_strings_In in Hp as [Hp _].
    apply (Hparts p Hp). exact Hc.
Qed.

(** X1: normalizing a keyword list that is already normalized changes nothing:
    the cache key built from it is stable. *)
Theorem normalize_kw_idempotent (keyword : pystr) :
  _normalize_kw (_normalize_kw keyword) = _normalize_kw keyword.
Proof.
  destruct (normalize_kw_parts keyword) as (parts & Hnd & Hall & -> & _).
  apply normalize_kw_join; assumption.
Qed.

(** ** Snippets *)

Lemma rstrip_by_length (p : Z -> bool) (s : pystr) :
  (length (rstrip_by p s) <= length s)%nat.
Proof.
  destruct (rstrip_by_split p s) as [suf H].
  rewrite H at 2. rewrite length_app. lia.
Qed.

Lemma take_In {A} (n : nat) (l : list A) x : In x (take n l) -> In x l.
Proof.
  revert n. induction l as [|y l IH]; intros [|n]; simpl; try tauto.
  intros [H|H]; [left; exact H | right; eapply IH; exact H].
Qed.

Lemma truncate_ctx_spec (cfg : config) (text : pystr) :
  0 <= CTX_MAX cfg ->
  Z.of_nat (length (_truncate_ctx cfg text)) <= CTX_MAX cfg + 1
  /\ char_in 13 (_truncate_ctx cfg text) = false.
Proof.
  intros Hmax. unfold _truncate_ctx.
  set (t := str_replace [13] [] (py_strip text)).
  assert (Ht : forall c, In c t -> c <> 13).
  { intros c Hc. unfold t in Hc. rewrite str_remove_char in Hc.
    apply filter_In in Hc as [_ Hc]. apply negb_true_iff, Z.eqb_neq in Hc. exact Hc. }
  assert (Hno : forall s, (forall c, In c s -> c <> 13) -> char_in 13 s = false).
  { intros s Hs. unfold char_in. apply not_true_is_false. intros H.
    apply existsb_exists in H as (c & Hc & Heq). apply Z.eqb_eq in Heq.
    apply (Hs c Hc). congruence. }
  destruct (negb (str_truthy t)); [simpl; split; [lia | reflexivity]|].
  destruct (Z.leb_spec (Z.of_nat (length t)) (CTX_MAX cfg)) as [Hle|Hgt].
  - split; [lia | apply Hno, Ht].
  - change (u "…") with [8230]. split.
    + rewrite length_app. simpl length.
      pose proof (rstrip_by_length py_isspace (slice_to t (CTX_MAX cfg))) as Hr.
      unfold slice_to in *. destruct (Z.leb_spec 0 (CTX_MAX cfg)); [|lia].
      rewrite length_take in Hr. lia.
    + apply Hno. intros c Hc. apply in_app_or in Hc as [Hc|[<-|[]]]; [|discriminate].
      apply rstrip_by_In in Hc. unfold slice_to in Hc.
      destruct (0 <=? CTX_MAX cfg); apply Ht; eapply take_In; exact Hc.
Qed.

(** X2: [_truncate_ctx]: the snippet holds no carriage return and runs to at most
    [CTX_MAX] characters, plus one for the ellipsis that marks a cut. *)
Theorem truncate_ctx_bounded (cfg : config) (text : pystr) :
  0 <= CTX_MAX cfg ->
  Z.of_nat (length (_truncate_ctx cfg text)) <= CTX_MAX cfg + 1
  /\ char_in 13 (_truncate_ctx cfg text) = false.
Proof. apply truncate_ctx_spec. Qed.

(** The bound at the default limit of 400 characters. *)
Lemma truncate_ctx_bounded_witness :
  Z.of_nat (length (_truncate_ctx default_config (u "  a long line  "))) <= 400 + 1
  /\ char_in 13 (_truncate_ctx default_config (u "  a long line  ")) = false.
Proof.
  apply (truncate_ctx_bounded default_config (u "  a long line  ")).
  vm_compute. discriminate.
Defined.

(** ** Keywords derived from the text *)

Lemma cjk_not_space (c : Z) : is_cjk c = true -> py_isspace c = false.
Proof.
  unfold is_cjk, in_range, py_isspace. intros H.
  apply andb_true_iff in H as [H1 H2]. apply Z.leb_le in H1, H2.
  repeat match goal with
         | |- context [?a <=? ?b] => destruct (Z.leb_spec a b); try lia
         | |- context [?a =? ?b] => destruct (Z.eqb_spec a b); try lia
         end; reflexivity.
Qed.

Lemma cjk_run_trimmed (s : pystr) : forallb is_cjk s = true -> trimmed py_isspace s = true.
Proof.
  intros H. unfold trimmed. apply andb_true_iff. split.
  - destruct s as [|c s]; [reflexivity|]. simpl in *.
    apply andb_true_iff in H as [H _]. rewrite (cjk_not_space c H). reflexivity.
  - assert (Hr : forallb is_cjk (rev s) = true).
    { apply forallb_forall. intros c Hc. apply in_rev in Hc.
      rewrite forallb_forall in H. apply H. exact Hc. }
    destruct (rev s) as [|c r]; [reflexivity|]. simpl in *.
    apply andb_true_iff in Hr as [Hr _]. rewrite (cjk_not_space c Hr). reflexivity.
Qed.

Lemma cjk_runs_all (cur t : pystr) :
  forallb is_cjk cur = true ->
  Forall (fun run => forallb is_cjk run = true) (cjk_runs cur t).
Proof.
  revert cur. induction t as [|c t IH]; intros cur Hcur; simpl.
  - destruct cur; [constructor | constructor; [exact Hcur | constructor]].
  - destruct (is_cjk c) eqn:Hc.
    + apply IH. rewrite forallb_app, Hcur. simpl. rewrite Hc. reflexivity.
    + destruct cur; [apply IH; reflexivity|].
      constructor; [exact Hcur | apply IH; reflexivity].
Qed.

Lemma derive_loop_spec (k : Z) (seqs cands : list pystr) :
  Forall (fun run => forallb is_cjk run = true) seqs ->
  NoDup cands -> Forall derivable cands ->
  Z.of_nat (length cands) < Z.max k 1 ->
  let out := derive_loop k cands seqs in
  NoDup out /\ Forall derivable out /\ Z.of_nat (length out) <= Z.max k 1.
Proof.
  revert cands. induction seqs as [|s rest IH]; intros cands Hseqs Hnd Hall Hlen;
    cbn [derive_loop].
  - split; [exact Hnd | split; [exact Hall | lia]].
  - inversion Hseqs as [|? ? Hs Hrest]; subst.
    rewrite (strip_by_id py_isspace s (cjk_run_trimmed s Hs) : py_strip s = s).
    destruct (negb (str_truthy s)); [apply IH; assumption|].
    destruct (str_in s _STOP_TOKENS) eqn:Hstop; [apply IH; assumption|].
    destruct (Z.ltb_spec (Z.of_nat (length s)) 2) as [Hshort|Hlong]; [apply IH; assumption|].
    destruct (str_in s filler_words) eqn:Hfill; [apply IH; assumption|].
    destruct (str_in s cands) eqn:Hin.
    + destruct (k <=? Z.of_nat (length cands));
        [split; [exact Hnd | split; [exact Hall | lia]] | apply IH; assumption].
    + assert (Hnd' : NoDup (cands ++ [s])).
      { apply NoDup_app. split; [exact Hnd|]. split; [|apply NoDup_singleton].
        intros x Hx Hxs. apply list_elem_of_singleton in Hxs. subst x.
        apply str_in_not_In in Hin. apply Hin, list_elem_of_In. exact Hx. }
      assert (Hall' : Forall derivable (cands ++ [s])).
      { apply Forall_app. split; [exact Hall|]. constructor; [|constructor].
        repeat split; [lia | exact Hs | exact Hstop | exact Hfill]. }
      destruct (Z.leb_spec k (Z.of_nat (length (cands ++ [s])))) as [Hk|Hk].
      * split; [exact Hnd' | split; [exact Hall'|]].
        rewrite length_app in *. simpl length in *. lia.
      * apply IH; try assumption. lia.
Qed.

Lemma derive_kw_from_text_spec (text : pystr) (k : Z) :
  exists cands,
    _derive_kw_from_text text k = str_join (u ",") cands
    /\ NoDup cands /\ Forall derivable cands
    /\ Z.of_nat (length cands) <= Z.max k 1.
Proof.
  unfold _derive_kw_from_text.
  destruct (negb (str_truthy (py_strip text))).
  { exists []. split; [reflexivity|]. split; [apply NoDup_nil_2|].
    split; [apply Forall_nil_2 | simpl; lia]. }
  pose proof (derive_loop_spec k (cjk_runs [] (py_strip text)) []
                (cjk_runs_all [] _ eq_refl) (NoDup_nil_2 (A := list Z)) (Forall_nil_2 _)) as H.
  specialize (H ltac:(simpl; lia)). cbv zeta in H.
  exists (derive_loop k [] (cjk_runs [] (py_strip text))).
  split; [|exact H].
  destruct (derive_loop k [] (cjk_runs [] (py_strip text))); reflexivity.
Qed.

(** X3: what [_derive_kw_from_text] returns: at most [max(k, 1)] distinct runs of
    CJK ideographs of the text, each at least two ideographs long and neither
    a stop token nor a filler word, joined by commas. *)
Theorem derive_kw_from_text_parts (text : pystr) (k : Z) :
  exists cands,
    _derive_kw_from_text text k = str_join (u ",") cands
    /\ NoDup cands /\ Forall derivable cands
    /\ Z.of_nat (length cands) <= Z.max k 1.
Proof. apply derive_kw_from_text_spec. Qed.

Lemma derivable_clean (s : pystr) : derivable s -> clean_part s.
Proof.
  intros (Hlen & Hcjk & _). split; [|split].
  - destruct s; [simpl in Hlen; lia | discriminate].
  - apply cjk_run_trimmed. exact Hcjk.
  - intros c Hc Hsep. rewrite forallb_forall in Hcjk. specialize (Hcjk c Hc).
    unfold is_cjk, in_range in Hcjk. apply andb_true_iff in Hcjk as [H1 H2].
    apply Z.leb_le in H1, H2. simpl in Hsep. lia.
Qed.

Lemma char_in_false (c : Z) (s : pystr) : char_in c s = false <-> ~ In c s.
Proof.
  unfold char_in. split.
  - intros H Hin. apply not_true_iff_false in H. apply H.
    apply existsb_exists. exists c. split; [exact Hin | apply Z.eqb_refl].
  - intros H. apply not_true_is_false. intros Hex.
    apply existsb_exists in Hex as (x & Hx & Heq). apply Z.eqb_eq in Heq. subst x. auto.
Qed.

Lemma count_char_absent (c : Z) (s : pystr) : ~ In c s -> count_char c s = 0.
Proof.
  intros H. unfold count_char.
  replace (List.filter (Z.eqb c) s) with (@nil Z); [reflexivity|].
  induction s as [|x s IH]; [reflexivity|]. cbn [List.filter].
  destruct (Z.eqb_spec c x) as [->|_]; [exfalso; apply H; left; reflexivity|].
  apply IH. intros Hc. apply H. right. exact Hc.
Qed.

Lemma no_qmark_not_garbled (kw : pystr) :
  char_in _QMARK kw = false -> _looks_garbled_keyword kw = false.
Proof.
  intros H. unfold _looks_garbled_keyword.
  destruct (negb (str_truthy (py_strip kw))); [reflexivity|].
  assert (Hq : count_char _QMARK (py_strip kw) = 0).
  { pose proof (count_char_strip_le _QMARK kw) as Hle.
    pose proof (count_char_nonneg _QMARK (py_strip kw)) as Hge.
    assert (Hz : count_char _QMARK kw = 0); [|lia].
    apply count_char_absent, char_in_false, H. }
  rewrite Hq. reflexivity.
Qed.

Lemma joined_derivable_no_qmark (cands : list pystr) :
  Forall derivable cands -> char_in _QMARK (str_join (u ",") cands) = false.
Proof.
  intros Hall. apply char_in_false. intros Hin.
  apply str_join_In in Hin as [[H|[]] | (p & Hp & Hc)]; [discriminate|].
  rewrite List.Forall_forall in Hall. destruct (Hall p Hp) as (_ & Hcjk & _).
  rewrite forallb_forall in Hcjk. specialize (Hcjk _ Hc). discriminate.
Qed.

(** X4: a keyword derived from the text never looks garbled itself. *)
Theorem derived_keyword_not_garbled (text : pystr) (k : Z) :
  _looks_garbled_keyword (_derive_kw_from_text text k) = false.
Proof.
  destruct (derive_kw_from_text_spec text k) as (cands & -> & _ & Hall & _).
  apply no_qmark_not_garbled, joined_derivable_no_qmark, Hall.
Qed.

(** ** The primary keyword of a tool call *)

(** X5: when the keyword argument is missing, or is garbled and the repair is
    enabled, the primary keyword used for retrieval and for the cache key is
    not empty and holds no question mark. *)
Theorem repaired_primary_keyword (cfg : config) (keyword text : pystr) :
  keyword = [] \/ (GARBLED_KW_REPAIR_ENABLED cfg = true
                   /\ _looks_garbled_keyword keyword = true) ->
  str_truthy (resolve_primary_keyword cfg keyword text) = true
  /\ char_in _QMARK (resolve_primary_keyword cfg keyword text) = false.
Proof.
  intros Hcase. unfold resolve_primary_keyword.
  assert (Hcond : negb (str_truthy keyword)
                  || (GARBLED_KW_REPAIR_ENABLED cfg && _looks_garbled_keyword keyword)
                  = true).
  { destruct Hcase as [->|[-> ->]]; [reflexivity | apply orb_true_r]. }
  rewrite Hcond.
  destruct (derive_kw_from_text_spec text 2) as (cands & Hd & Hnd & Hall & _).
  rewrite Hd.
  destruct cands as [|p rest].
  - simpl str_join. cbn [str_truthy negb]. unfold fallback_keyword_for.
    destruct (_is_emo_chitchat text); vm_compute; auto.
  - assert (Hne : str_truthy (str_join (u ",") (p :: rest)) = true).
    { inversion Hall as [|? ? (Hlen & _) _]; subst.
      destruct (str_join (u ",") (p :: rest)) eqn:Hj; [|reflexivity].
      exfalso. apply (str_join_nonempty (u ",") (p :: rest) p); [left; reflexivity| |exact Hj].
      destruct p; [simpl in Hlen; lia | discriminate]. }
    rewrite Hne. cbn [negb].
    rewrite normalize_kw_join;
      [|exact Hnd | eapply Forall_impl; [exact Hall | apply derivable_clean]].
    split; [exact Hne | apply joined_derivable_no_qmark; exact Hall].
Qed.

(** A keyword that arrived as question marks, repaired from the text. *)
Lemma repaired_primary_keyword_witness :
  str_truthy (resolve_primary_keyword default_config (u "??,???") (u "今天天气很好呀")) = true
  /\ char_in _QMARK (resolve_primary_keyword default_config (u "??,???") (u "今天天气很好呀"))
     = false.
Proof.
  apply (repaired_primary_keyword default_config (u "??,???") (u "今天天气很好呀")).
  right. split; vm_compute; reflexivity.
Defined.

(* ================================================================== *)
(** * Similarity, recency and ranking *)
(* ================================================================== *)

(** ** Jaccard similarity *)

Lemma gset_nonempty_size (a : gset (list Z)) : a <> ∅ -> (0 < size a)%nat.
Proof.
  intros H. destruct (size a) eqn:E; [|lia].
  apply size_empty_iff in E. exfalso. apply H. apply leibniz_equiv. exact E.
Qed.

(** X6: [_jaccard_similarity] lies between 0 and 1, and it is 1 exactly when
    the two token sets are equal. *)
Theorem jaccard_similarity_bounds (a b : gset (list Z)) :
  (0 <= _jaccard_similarity a b)%Q
  /\ (_jaccard_similarity a b <= 1)%Q
  /\ (Qeq (_jaccard_similarity a b) 1 <-> a = b).
Proof.
  unfold _jaccard_similarity.
  destruct (decide (a = ∅)) as [Ha|Ha], (decide (b = ∅)) as [Hb|Hb];
    rewrite ?(bool_decide_eq_true_2 _ Ha), ?(bool_decide_eq_true_2 _ Hb),
      ?(bool_decide_eq_false_2 _ Ha), ?(bool_decide_eq_false_2 _ Hb); cbn [andb orb].
  - subst. split; [discriminate|]. split; [discriminate|]. split; reflexivity.
  - split; [discriminate|]. split; [discriminate|].
    split; [discriminate | intros ->; contradiction].
  - split; [discriminate|]. split; [discriminate|].
    split; [discriminate | intros <-; contradiction].
  - pose proof (gset_nonempty_size a Ha) as Hsa.
    assert (Hsub : a ∩ b ⊆ a ∪ b).
    { intros x Hx. apply elem_of_intersection in Hx as [Hx _].
      apply elem_of_union. left. exact Hx. }
    assert (Hau : (size a <= size (a ∪ b))%nat).
    { apply subseteq_size. intros x Hx. apply elem_of_union. left. exact Hx. }
    assert (Hiu : (size (a ∩ b) <= size (a ∪ b))%nat) by (apply subseteq_size, Hsub).
    destruct (Z.leb_spec (Z.of_nat (size (a ∪ b))) 0) as [Hz|Hpos]; [lia|].
    unfold Qle, Qeq. cbn [Qnum Qden].
    rewrite !Z2Pos.id by lia.
    split; [lia|]. split; [lia|]. split.
    + intros Heq.
      assert (Hsame : a ∩ b = a ∪ b).
      { apply set_subseteq_size_eq; [exact Hsub | lia]. }
      apply leibniz_equiv. apply set_equiv. intros x.
      assert (Hx : x ∈ a ∩ b <-> x ∈ a ∪ b) by (rewrite Hsame; reflexivity).
      rewrite elem_of_intersection, elem_of_union in Hx. tauto.
    + intros <-.
      assert (Hi : a ∩ a = a).
      { apply leibniz_equiv, set_equiv. intros x. rewrite elem_of_intersection. tauto. }
      assert (Hu : a ∪ a = a).
      { apply leibniz_equiv, set_equiv. intros x. rewrite elem_of_union. tauto. }
      rewrite Hi, Hu. lia.
Qed.

(** ** Recency *)

(** X7: of two positive time stamps, the older one never gets the higher
    recency score. *)
Theorem recency_score_monotone (now ts1 ts2 : Z) :
  0 < ts1 -> ts1 <= ts2 ->
  fle (_recency_score now ts1) (_recency_score now ts2) = true.
Proof.
  intros Hpos Hle. unfold _recency_score.
  destruct (Z.eqb_spec ts1 0); [lia|]. destruct (Z.eqb_spec ts2 0); [lia|].
  cbv zeta.
  repeat match goal with
         | |- context [Z.max 0 ?x <=? ?y] => destruct (Z.leb_spec (Z.max 0 x) y)
         end; try lia; vm_compute; reflexivity.
Qed.

(** Evidence written a week before the other, read a month later. *)
Lemma recency_score_monotone_witness :
  fle (_recency_score 3000000 100) (_recency_score 3000000 700000) = true.
Proof. apply (recency_score_monotone 3000000 100 700000); lia. Defined.

(** ** Loops that may raise, when they do not *)

(** Progress of [fold_result]: when the step succeeds on every state that
    satisfies the invariant, and keeps it, the loop returns. *)
Lemma fold_result_total {A B} (f : A -> B -> result A) (Inv : A -> Prop)
    (l : list B) (a0 : A) :
  Inv a0 ->
  (forall a x, x ∈ l -> Inv a -> exists a', f a x = Ok a' /\ Inv a') ->
  exists a, fold_result f l a0 = Ok a /\ Inv a.
Proof.
  revert a0. induction l as [|x l IH]; intros a0 H0 Hstep; simpl.
  - exists a0. auto.
  - destruct (Hstep a0 x ltac:(left) H0) as (a1 & Hf & H1). rewrite Hf. simpl.
    apply IH; [exact H1|].
    intros a y Hy. apply Hstep. right. exact Hy.
Qed.

(** ** Scored records *)

Section Ranking.
Context `{R : PyRuntime}.

Lemma score_candidate_fields now idx item a :
  score_candidate now idx item = Ok a ->
  ev_source_id a = c_source_id item /\ ev_text a = c_text item
  /\ ev_score_final a = candidate_score now item
  /\ exists extra, mapping_entries (py_or (c_metadata item) (PDict [])) = Ok extra
       /\ ev_meta a = dict_update
                        [(u "source_name", PStr (u "anchor_rag"));
                         (u "chunk_id", PStr (c_chunk_id item));
                         (u "source_priority", PInt (_source_priority (c_source_type item)))]
                        extra.
Proof.
  unfold score_candidate. intros H.
  destruct (mapping_entries _) as [extra|e]; simpl in H; [|discriminate].
  injection H as <-. simpl. repeat split. exists extra. auto.
Qed.

(** The records [score_all] returns are those of the candidates, position
    by position. *)
Lemma score_all_lookup clock k candidates scored :
  score_all clock k candidates = Ok scored ->
  length scored = length candidates
  /\ forall i item, candidates !! i = Some item ->
       exists a, scored !! i = Some a
                 /\ score_candidate (clock (k + i)%nat) (k + i)%nat item = Ok a.
Proof.
  revert k scored. induction candidates as [|item rest IH]; intros k scored H; simpl in H.
  - injection H as <-. split; [reflexivity | intros i item Hi; discriminate].
  - destruct (score_candidate (clock k) k item) as [out|e] eqn:Hout; simpl in H;
      [|discriminate].
    destruct (score_all clock (S k) rest) as [outs|e] eqn:Houts; simpl in H;
      [|discriminate].
    injection H as <-. destruct (IH _ _ Houts) as [Hlen Hl].
    split; [simpl; congruence|].
    intros [|i] it Hi; simpl in Hi.
    + injection Hi as <-. exists out. rewrite Nat.add_0_r. auto.
    + destruct (Hl i it Hi) as (a & Ha & Hs). exists a.
      replace (k + S i)%nat with (S k + i)%nat by lia. auto.
Qed.

Lemma score_all_returns clock k candidates :
  Forall plain_metadata candidates ->
  exists scored, score_all clock k candidates = Ok scored.
Proof.
  intros Hall. revert k. induction Hall as [|item rest Hitem _ IH]; intros k; simpl.
  - eexists. reflexivity.
  - destruct (score_candidate_returns (clock k) k item) as [ev Hev].
    { destruct Hitem as [H | (d & H & _)]; [left; exact H | right; eauto]. }
    destruct (IH (S k)) as [outs Houts].
    rewrite Hev, Houts. simpl. eexists. reflexivity.
Qed.

End Ranking.

(** ** Merging, seen from the scores *)

Lemma flt_irrefl (a : float) : flt a a = false.
Proof. unfold flt. destruct (fval a); [apply Z.ltb_irrefl | reflexivity]. Qed.

Lemma merge_duplicate_score kept incoming merged :
  _merge_duplicate kept incoming = Ok merged ->
  (same_record merged kept \/ same_record merged incoming)
  /\ dominates merged kept /\ dominates merged incoming.
Proof.
  intros H. unfold dominates.
  destruct (merge_duplicate_cases _ _ _ H) as [[Hge Hs] | [Hlt Hs]].
  - split; [left; exact Hs|]. destruct Hs as (_ & _ & -> & _).
    split; [apply flt_irrefl | exact Hge].
  - split; [right; exact Hs|]. destruct Hs as (_ & _ & -> & _).
    split; [apply flt_asym; exact Hlt | apply flt_irrefl].
Qed.

Lemma from_records_step pre l ev l' :
  from_records pre l -> merge_or_append l ev l' -> from_records (pre ++ [ev]) l'.
Proof.
  unfold from_records. intros Hl (ev' & Hev' & Hcase).
  assert (Hl' : Forall (fun b => exists a, a ∈ pre ++ [ev] /\ same_record b a) l).
  { eapply Forall_impl; [exact Hl|]. simpl. intros b (a & Ha & Hs).
    exists a. split; [apply elem_of_app; left; exact Ha | exact Hs]. }
  assert (Hnew : exists a, a ∈ pre ++ [ev] /\ same_record ev' a).
  { exists ev. split; [apply elem_of_app; right; left | exact Hev']. }
  destruct Hcase as [-> | (idx & kept & merged & Hk & Hm & ->)].
  - apply Forall_app. split; [exact Hl' | constructor; [exact Hnew | constructor]].
  - apply Forall_insert; [exact Hl'|].
    destruct (merge_duplicate_score _ _ _ Hm) as [[Hs|Hs] _].
    + rewrite Forall_forall in Hl'.
      destruct (Hl' kept (list_elem_of_lookup_2 _ _ _ Hk)) as (a & Ha & Hka).
      exists a. split; [exact Ha | eapply same_record_trans; eauto].
    + destruct Hnew as (a & Ha & Hea).
      exists a. split; [exact Ha | eapply same_record_trans; eauto].
Qed.

Lemma dominated_step pre l ev l' :
  dominated pre l -> is_number (ev_score_final ev) -> merge_or_append l ev l' ->
  dominated (pre ++ [ev]) l'.
Proof.
  unfold dominated. intros (Hnum & Hpre & Hdom) Hev (ev' & Hev' & Hcase).
  assert (Hsc : ev_score_final ev' = ev_score_final ev)
    by (destruct Hev' as (_ & _ & H & _); exact H).
  assert (Hpre' : Forall (fun a => is_number (ev_score_final a)) (pre ++ [ev])).
  { apply Forall_app. split; [exact Hpre | constructor; [exact Hev | constructor]]. }
  destruct Hcase as [-> | (idx & kept & merged & Hk & Hm & ->)].
  - split; [|split; [exact Hpre'|]].
    + apply Forall_app. split; [exact Hnum|]. constructor; [rewrite Hsc; exact Hev | constructor].
    + intros a Ha. apply elem_of_app in Ha as [Ha|Ha].
      * destruct (Hdom a Ha) as (b & Hb & Hba). exists b.
        split; [apply elem_of_app; left; exact Hb | exact Hba].
      * apply list_elem_of_singleton in Ha. subst a. exists ev'.
        split; [apply elem_of_app; right; left|].
        unfold dominates. rewrite Hsc. apply flt_irrefl.
  - destruct (merge_duplicate_score _ _ _ Hm) as (Hsame & Hmk & Hme).
    pose proof (Hnum' := Hnum). rewrite Forall_forall in Hnum'.
    pose proof (Hnum' kept (list_elem_of_lookup_2 _ _ _ Hk)) as Hkn.
    assert (Hmn : is_number (ev_score_final merged)).
    { destruct Hsame as [(_ & _ & -> & _) | (_ & _ & -> & _)];
        [exact Hkn | rewrite Hsc; exact Hev]. }
    assert (Hidx : (idx < length l)%nat) by (eapply lookup_lt_Some; exact Hk).
    split; [apply Forall_insert; assumption|]. split; [exact Hpre'|].
    intros a Ha. apply elem_of_app in Ha as [Ha|Ha].
    + destruct (Hdom a Ha) as (b & Hb & Hba).
      apply list_elem_of_lookup_1 in Hb as [j Hj].
      destruct (decide (j = idx)) as [->|Hne].
      * assert (b = kept) by congruence. subst b.
        exists merged. split.
        -- eapply list_elem_of_lookup_2. apply list_lookup_insert_eq. exact Hidx.
        -- unfold dominates in *.
           assert (Han : is_number (ev_score_final a)).
           { rewrite Forall_forall in Hpre. apply Hpre. exact Ha. }
           eapply flt_ge_trans; [exact Hmn | exact Hkn | exact Han | exact Hmk | exact Hba].
      * exists b. split; [|exact Hba].
        eapply list_elem_of_lookup_2. rewrite list_lookup_insert_ne by (intros Heq; apply Hne; symmetry; exact Heq). exact Hj.
    + apply list_elem_of_singleton in Ha. subst a. exists merged. split.
      * eapply list_elem_of_lookup_2. apply list_lookup_insert_eq. exact Hidx.
      * unfold dominates in *. rewrite <- Hsc. exact Hme.
Qed.

(** ** The two deduplication loops, seen on the kept records *)

Lemma from_records_trans a b c : from_records a b -> from_records b c -> from_records a c.
Proof.
  unfold from_records. intros Hab Hbc.
  eapply Forall_impl; [exact Hbc|]. simpl. intros x (y & Hy & Hxy).
  rewrite Forall_forall in Hab. destruct (Hab y Hy) as (z & Hz & Hyz).
  exists z. split; [exact Hz | eapply same_record_trans; eauto].
Qed.

Lemma slice_to_length {A} (l : list A) (n : Z) :
  0 <= n -> Z.of_nat (length (slice_to l n)) <= n.
Proof.
  intros Hn. unfold slice_to. destruct (Z.leb_spec 0 n); [|lia].
  rewrite length_take. lia.
Qed.

Lemma slice_to_head {A} (x : A) (l : list A) (n : Z) :
  1 <= n -> exists rest, slice_to (x :: l) n = x :: rest.
Proof.
  intros Hn. unfold slice_to. destruct (Z.leb_spec 0 n); [|lia].
  destruct (Z.to_nat n) as [|k] eqn:E; [lia|]. simpl. eexists. reflexivity.
Qed.

Lemma slice_to_sublist {A} (l : list A) (n : Z) : sublist (slice_to l n) l.
Proof. unfold slice_to. destruct (0 <=? n); apply sublist_take. Qed.

Section RankingSteps.
Context `{R : PyRuntime}.

Lemma key_dedupe_step_shape st ev st' :
  key_dedupe_step st ev = Ok st' -> merge_or_append (fst st) ev (fst st').
Proof.
  destruct st as [bsc ki]. unfold key_dedupe_step.
  set (ev2 := set_meta ev (dict_setdefault (ev_meta ev) (u "duplicates") (PList []))).
  intros H. exists ev2. split; [apply setdefault_duplicates_same|].
  destruct (ki !! dedupe_key ev2) as [idx|].
  - destruct (list_item bsc idx) as [kept|e] eqn:Hk; simpl in H; [|discriminate].
    destruct (_merge_duplicate kept ev2) as [merged|e] eqn:Hm; simpl in H; [|discriminate].
    injection H as <-. right. exists idx, kept, merged.
    split; [apply list_item_Ok; exact Hk | auto].
  - injection H as <-. left. reflexivity.
Qed.

Lemma text_dedupe_step_shape st ev st' :
  text_dedupe_step st ev = Ok st' -> merge_or_append (fst st) ev (fst st').
Proof.
  destruct st as [deduped ts]. unfold text_dedupe_step.
  intros H. exists ev. split; [apply same_record_refl|].
  destruct (find_duplicate_idx _ ts 0) as [idx|].
  - destruct (list_item deduped idx) as [kept|e] eqn:Hk; simpl in H; [|discriminate].
    destruct (_merge_duplicate kept ev) as [merged|e] eqn:Hm; simpl in H; [|discriminate].
    injection H as <-. right. exists idx, kept, merged.
    split; [apply list_item_Ok; exact Hk | auto].
  - injection H as <-. left. reflexivity.
Qed.

(** Post-processing returns records of its input, and at most [top_n] of
    them. *)
Lemma postprocess_from (scored : list evidence) (top_n : Z) (out : list evidence) :
  _postprocess_candidates scored top_n = Ok out ->
  from_records scored out /\ (0 <= top_n -> Z.of_nat (length out) <= top_n).
Proof.
  intros Hpost. unfold _postprocess_candidates in Hpost.
  destruct (fold_result key_dedupe_step scored ([], ∅)) as [st1|e] eqn:H1;
    simpl in Hpost; [|discriminate].
  destruct (fold_result text_dedupe_step (fst st1) ([], [])) as [st2|e] eqn:H2;
    simpl in Hpost; [|discriminate].
  injection Hpost as <-.
  assert (I1 : from_records scored (fst st1)).
  { apply (fold_result_inv key_dedupe_step (fun pre st => from_records pre (fst st))
             scored ([], ∅) st1); [constructor | | exact H1].
    intros pre x post a1 a2 _ Hinv Hstep.
    eapply from_records_step; [exact Hinv | eapply key_dedupe_step_shape; exact Hstep]. }
  assert (I2 : from_records (fst st1) (fst st2)).
  { apply (fold_result_inv text_dedupe_step (fun pre st => from_records pre (fst st))
             (fst st1) ([], []) st2); [constructor | | exact H2].
    intros pre x post a1 a2 _ Hinv Hstep.
    eapply from_records_step; [exact Hinv | eapply text_dedupe_step_shape; exact Hstep]. }
  split; [|apply slice_to_length].
  pose proof (from_records_trans _ _ _ I1 I2) as I.
  unfold from_records in *. rewrite Forall_forall in I |- *.
  intros b Hb. apply I.
  eapply elem_of_submseteq; [exact Hb | apply slice_sort_submseteq].
Qed.

(** Post-processing scores that are numbers: the output is in
    non-increasing order of score, and its first record scores at least as
    high as every record of the input. *)
Lemma postprocess_best (scored : list evidence) (top_n : Z) (out : list evidence) :
  Forall (fun a => is_number (ev_score_final a)) scored ->
  1 <= top_n ->
  _postprocess_candidates scored top_n = Ok out ->
  score_desc out
  /\ (scored <> [] ->
      exists first rest, out = first :: rest /\ forall a, a ∈ scored -> dominates first a).
Proof.
  intros Hnum Hn Hpost. unfold _postprocess_candidates in Hpost.
  destruct (fold_result key_dedupe_step scored ([], ∅)) as [st1|e] eqn:H1;
    simpl in Hpost; [|discriminate].
  destruct (fold_result text_dedupe_step (fst st1) ([], [])) as [st2|e] eqn:H2;
    simpl in Hpost; [|discriminate].
  injection Hpost as <-.
  assert (I1 : dominated scored (fst st1)).
  { apply (fold_result_inv key_dedupe_step (fun pre st => dominated pre (fst st))
             scored ([], ∅) st1); [| | exact H1].
    - split; [constructor|]. split; [constructor | intros a Ha; inversion Ha].
    - intros pre x post a1 a2 Hl Hinv Hstep.
      eapply dominated_step; [exact Hinv | | eapply key_dedupe_step_shape; exact Hstep].
      rewrite Forall_forall in Hnum. apply Hnum. rewrite Hl.
      apply elem_of_app. right. left. }
  destruct I1 as (Hnum1 & _ & Hdom1).
  assert (I2 : dominated (fst st1) (fst st2)).
  { apply (fold_result_inv text_dedupe_step (fun pre st => dominated pre (fst st))
             (fst st1) ([], []) st2); [| | exact H2].
    - split; [constructor|]. split; [constructor | intros a Ha; inversion Ha].
    - intros pre x post a1 a2 Hl Hinv Hstep.
      eapply dominated_step; [exact Hinv | | eapply text_dedupe_step_shape; exact Hstep].
      rewrite Forall_forall in Hnum1. apply Hnum1. rewrite Hl.
      apply elem_of_app. right. left. }
  destruct I2 as (Hnum2 & _ & Hdom2).
  set (sorted := sort_desc score_lt (fst st2)).
  assert (Hperm : sorted ≡ₚ fst st2) by apply sort_desc_perm.
  assert (Hsorted : StronglySorted (fun a b => score_lt a b = false) sorted).
  { apply (sort_desc_sorted score_lt (fun e => is_number (ev_score_final e))).
    - intros a b c. unfold score_lt. apply flt_ge_trans.
    - intros a b. unfold score_lt. apply flt_asym.
    - exact Hnum2. }
  split.
  - eapply StronglySorted_sublist; [apply slice_to_sublist | exact Hsorted].
  - intros Hne.
    destruct scored as [|a0 scored']; [congruence|].
    destruct (Hdom1 a0 ltac:(left)) as (b0 & Hb0 & _).
    destruct (Hdom2 b0 Hb0) as (c0 & Hc0 & _).
    rewrite <- Hperm in Hc0.
    destruct sorted as [|first rest] eqn:Hs; [inversion Hc0|].
    destruct (slice_to_head first rest top_n Hn) as [tail Htail].
    exists first, tail. split; [exact Htail|].
    assert (Hfirst : forall c, c ∈ fst st2 -> dominates first c).
    { intros c Hc. rewrite <- Hperm in Hc.
      apply StronglySorted_cons in Hsorted as [Hall _].
      apply elem_of_cons in Hc as [->|Hc]; [apply flt_irrefl|].
      rewrite Forall_forall in Hall. apply (Hall c Hc). }
    assert (Hfn : is_number (ev_score_final first)).
    { rewrite Forall_forall in Hnum2. apply Hnum2. rewrite <- Hperm. left. }
    intros a Ha.
    destruct (Hdom1 a Ha) as (b & Hb & Hba).
    destruct (Hdom2 b Hb) as (c & Hc & Hcb).
    pose proof (Hfirst c Hc) as Hfc.
    rewrite Forall_forall in Hnum, Hnum1, Hnum2.
    unfold dominates in *.
    eapply flt_ge_trans; [exact Hfn | apply (Hnum1 b Hb) | apply (Hnum a Ha) | | exact Hba].
    eapply flt_ge_trans; [exact Hfn | apply (Hnum2 c Hc) | apply (Hnum1 b Hb) | exact Hfc | exact Hcb].
Qed.

End RankingSteps.

(** ** Ranking as a whole *)

Section RankingTheorems.
Context `{R : PyRuntime}.

(** The number of records the ranking may return. *)
Lemma ranking_limit_pos (cfg : config) (top_n : Z) :
  1 <= Z.max 1 (if top_n =? 0 then RETRIEVAL_TOP_N cfg else top_n).
Proof. lia. Qed.

Lemma ranking_candidates_spec (cfg : config) (clock : nat -> Z)
    (candidates : list candidate) (top_n : Z) (out : list evidence) :
  _score_and_rank_candidates cfg clock candidates top_n = Ok out ->
  Z.of_nat (length out) <= Z.max 1 (if top_n =? 0 then RETRIEVAL_TOP_N cfg else top_n)
  /\ forall b, b ∈ out ->
       exists i item,
         candidates !! i = Some item
         /\ ev_source_id b = c_source_id item
         /\ ev_text b = c_text item
         /\ ev_score_final b = candidate_score (clock i) item.
Proof.
  intros Hrun. unfold _score_and_rank_candidates in Hrun.
  destruct (score_all clock 0 candidates) as [scored|e] eqn:Hscored; simpl in Hrun;
    [|discriminate].
  destruct (postprocess_from _ _ _ Hrun) as [Hfrom Hlen].
  split; [apply Hlen; lia|].
  intros b Hb. unfold from_records in Hfrom. rewrite Forall_forall in Hfrom.
  destruct (Hfrom b Hb) as (a & Ha & Hba).
  rewrite sort_desc_perm in Ha.
  apply list_elem_of_lookup_1 in Ha as [i Hi].
  destruct (score_all_lookup _ _ _ _ Hscored) as [Hlen' Hl].
  destruct (candidates !! i) as [item|] eqn:Hitem.
  - destruct (Hl i item Hitem) as (a' & Ha' & Hs). simpl in Hs.
    assert (a' = a) by congruence. subst a'.
    destruct (score_candidate_fields _ _ _ _ Hs) as (H1 & H2 & H3 & _).
    destruct Hba as (G1 & G2 & G3 & _).
    exists i, item. repeat split; congruence.
  - apply lookup_ge_None in Hitem. apply lookup_lt_Some in Hi. lia.
Qed.

(** X8: [_score_and_rank_candidates] invents nothing: it returns at most
    [max(1, top_n or RETRIEVAL_TOP_N)] records, and each of them is one of the
    candidates, with its source id, its text and the score computed for it. *)
Theorem ranking_returns_candidates (cfg : config) (clock : nat -> Z)
    (candidates : list candidate) (top_n : Z) (out : list evidence) :
  _score_and_rank_candidates cfg clock candidates top_n = Ok out ->
  Z.of_nat (length out) <= Z.max 1 (if top_n =? 0 then RETRIEVAL_TOP_N cfg else top_n)
  /\ forall b, b ∈ out ->
       exists i item,
         candidates !! i = Some item
         /\ ev_source_id b = c_source_id item
         /\ ev_text b = c_text item
         /\ ev_score_final b = candidate_score (clock i) item.
Proof. apply ranking_candidates_spec. Qed.

(** X9: when every computed score is a number, the records come back in
    non-increasing order of score, and the first one scores at least as high as
    every candidate: deduplication never loses the best score. *)
Theorem ranking_keeps_best (cfg : config) (clock : nat -> Z)
    (candidates : list candidate) (top_n : Z) (out : list evidence) :
  (forall i item, candidates !! i = Some item ->
                  is_number (candidate_score (clock i) item)) ->
  candidates <> [] ->
  _score_and_rank_candidates cfg clock candidates top_n = Ok out ->
  score_desc out
  /\ exists first rest,
       out = first :: rest
       /\ forall i item, candidates !! i = Some item ->
            flt (ev_score_final first) (candidate_score (clock i) item) = false.
Proof.
  intros Hnum Hne Hrun. unfold _score_and_rank_candidates in Hrun.
  destruct (score_all clock 0 candidates) as [scored|e] eqn:Hscored; simpl in Hrun;
    [|discriminate].
  destruct (score_all_lookup _ _ _ _ Hscored) as [Hlen Hl].
  assert (Hok : Forall (fun a => is_number (ev_score_final a))
                       (sort_desc rank_key_lt scored)).
  { rewrite sort_desc_perm.
    pose proof (score_all_ranked_ok clock 0%nat candidates scored Hnum Hscored) as Hr.
    eapply Forall_impl; [exact Hr|]. intros a [Ha _]. exact Ha. }
  destruct (postprocess_best _ _ _ Hok (ranking_limit_pos cfg top_n) Hrun) as [Hdesc Hbest].
  split; [exact Hdesc|].
  destruct Hbest as (first & rest & Hout & Hdom).
  { intros Hnil. apply (f_equal (@length evidence)) in Hnil.
    rewrite (Permutation_length (sort_desc_perm rank_key_lt scored)) in Hnil.
    simpl in Hnil. destruct candidates; [congruence | simpl in Hlen; lia]. }
  exists first, rest. split; [exact Hout|].
  intros i item Hi. destruct (Hl i item Hi) as (a & Ha & Hs). simpl in Hs.
  destruct (score_candidate_fields _ _ _ _ Hs) as (_ & _ & <- & _).
  apply Hdom. rewrite sort_desc_perm. eapply list_elem_of_lookup_2. exact Ha.
Qed.

End RankingTheorems.

(** The theorem on returned candidates at the example candidates. *)
Lemma ranking_returns_candidates_witness :
  exists out,
    _score_and_rank_candidates default_config (fun _ => 200) example_candidates 2 = Ok out
    /\ Z.of_nat (length out) <= 2.
Proof.
  destruct (_score_and_rank_candidates default_config (fun _ => 200) example_candidates 2)
    as [out|e] eqn:Hrun; [|vm_compute in Hrun; discriminate].
  exists out. split; [reflexivity|].
  exact (proj1 (@ranking_returns_candidates reference_runtime default_config (fun _ => 200)
                  example_candidates 2 out Hrun)).
Defined.

(** The theorem on the best score at the example candidates: the keyword hit
    comes first, with 0.6. *)
Lemma ranking_keeps_best_witness :
  exists out,
    _score_and_rank_candidates default_config (fun _ => 200) example_candidates 2 = Ok out
    /\ score_desc out.
Proof.
  destruct (_score_and_rank_candidates default_config (fun _ => 200) example_candidates 2)
    as [out|e] eqn:Hrun; [|vm_compute in Hrun; discriminate].
  exists out. split; [reflexivity|].
  refine (proj1 (@ranking_keeps_best reference_runtime default_config (fun _ => 200)
                   example_candidates 2 out _ _ Hrun)).
  - intros i item Hi.
    do 6 (destruct i as [|i]; [injection Hi as <-; vm_compute; discriminate|]).
    discriminate.
  - discriminate.
Defined.

(** ** Ranking returns *)

Lemma dict_lookup_update_absent (d e : list (list Z * pyval)) (k : list Z) :
  dict_lookup e k = None -> dict_lookup (dict_update d e) k = dict_lookup d k.
Proof.
  unfold dict_update. revert d. induction e as [|[k' v] e IH]; intros d H; simpl in *.
  - reflexivity.
  - destruct (pystr_eqb k' k) eqn:E; [discriminate|].
    rewrite IH by exact H. apply dict_lookup_set_ne. apply pystr_eqb_neq. exact E.
Qed.

Lemma merge_duplicate_returns kept incoming :
  has_duplicates_list kept -> has_duplicates_list incoming ->
  exists merged, _merge_duplicate kept incoming = Ok merged /\ has_duplicates_list merged.
Proof.
  intros [lk Hk] [li Hi]. unfold _merge_duplicate.
  destruct (flt (ev_score_final kept) (ev_score_final incoming)).
  - rewrite Hi. unfold py_or. destruct (truthy (PList li)); simpl;
      eexists; (split; [reflexivity|]); eexists; simpl; apply dict_get_set_eq.
  - rewrite Hk. unfold py_or. destruct (truthy (PList lk)); simpl;
      eexists; (split; [reflexivity|]); eexists; simpl; apply dict_get_set_eq.
Qed.

Section RankingReturns.
Context `{R : PyRuntime}.

Lemma scored_without_duplicates now idx item a :
  plain_metadata item -> score_candidate now idx item = Ok a ->
  dict_has (ev_meta a) (u "duplicates") = false.
Proof.
  intros Hplain Hs.
  destruct (score_candidate_fields _ _ _ _ Hs) as (_ & _ & _ & extra & Hextra & Hmeta).
  assert (Hno : dict_lookup extra (u "duplicates") = None).
  { unfold py_or in Hextra. destruct Hplain as [Hf | (d & Hd & Hhas)].
    - rewrite Hf in Hextra. injection Hextra as <-. reflexivity.
    - rewrite Hd in Hextra. destruct (truthy (PDict d)); injection Hextra as <-;
        [|reflexivity].
      unfold dict_has in Hhas. destruct (dict_lookup d (u "duplicates")); congruence. }
  unfold dict_has. rewrite Hmeta, dict_lookup_update_absent by exact Hno.
  vm_compute. reflexivity.
Qed.

Lemma setdefault_has_duplicates_list ev :
  dict_has (ev_meta ev) (u "duplicates") = false ->
  has_duplicates_list
    (set_meta ev (dict_setdefault (ev_meta ev) (u "duplicates") (PList []))).
Proof.
  intros H. exists []. simpl. unfold dict_setdefault. rewrite H. apply dict_get_set_eq.
Qed.

(** Step 1 on records that carry no [duplicates] entry of their own. *)
Lemma key_dedupe_returns (scored : list evidence) :
  Forall (fun ev => dict_has (ev_meta ev) (u "duplicates") = false) scored ->
  exists st, fold_result key_dedupe_step scored ([], ∅) = Ok st
             /\ Forall has_duplicates_list (fst st).
Proof.
  intros Hall.
  destruct (fold_result_total key_dedupe_step
              (fun st => Forall has_duplicates_list (fst st)
                         /\ forall key idx, snd st !! key = Some idx ->
                                            (idx < length (fst st))%nat)
              scored ([], ∅)) as (st & Hst & Hinv & _).
  - split; [constructor|]. intros key idx H. simpl in H. rewrite lookup_empty in H.
    discriminate.
  - intros [bsc ki] ev Hev [Hdups Hidx]. simpl in Hdups, Hidx.
    rewrite Forall_forall in Hall. specialize (Hall ev Hev).
    pose proof (setdefault_has_duplicates_list ev Hall) as Hev2.
    unfold key_dedupe_step.
    set (ev2 := set_meta ev (dict_setdefault (ev_meta ev) (u "duplicates") (PList []))) in *.
    destruct (ki !! dedupe_key ev2) as [idx|] eqn:Hki.
    + pose proof (Hidx _ _ Hki) as Hlt.
      destruct (lookup_lt_is_Some_2 bsc idx Hlt) as [kept Hkept].
      unfold list_item. rewrite Hkept. simpl.
      pose proof (Hdups' := Hdups). rewrite Forall_forall in Hdups'.
      destruct (merge_duplicate_returns kept ev2
                  (Hdups' kept (list_elem_of_lookup_2 _ _ _ Hkept)) Hev2)
        as (merged & Hm & Hmd).
      rewrite Hm. simpl. eexists. split; [reflexivity|]. simpl. split.
      * apply Forall_insert; assumption.
      * intros key j Hj. rewrite length_insert. eapply Hidx; eauto.
    + eexists. split; [reflexivity|]. simpl. split.
      * apply Forall_app. split; [exact Hdups | constructor; [exact Hev2 | constructor]].
      * intros key j Hj. rewrite length_app. simpl.
        destruct (decide (key = dedupe_key ev2)) as [->|Hne].
        -- rewrite lookup_insert_eq in Hj. injection Hj as <-. lia.
        -- rewrite lookup_insert_ne in Hj by congruence. specialize (Hidx _ _ Hj). lia.
  - exists st. auto.
Qed.

(** Step 2 on records whose [duplicates] entry is a list. *)
Lemma text_dedupe_returns (bsc : list evidence) :
  Forall has_duplicates_list bsc ->
  exists st, fold_result text_dedupe_step bsc ([], []) = Ok st.
Proof.
  intros Hall.
  destruct (fold_result_total text_dedupe_step
              (fun st => Forall has_duplicates_list (fst st)
                         /\ length (snd st) = length (fst st))
              bsc ([], [])) as (st & Hst & _).
  - split; [constructor | reflexivity].
  - intros [deduped ts] ev Hev [Hdups Hlen]. simpl in Hdups, Hlen.
    rewrite Forall_forall in Hall. specialize (Hall ev Hev).
    unfold text_dedupe_step.
    destruct (find_duplicate_idx _ ts 0) as [idx|] eqn:Hfind.
    + apply find_duplicate_idx_Some in Hfind as (seen & Hseen & _ & _).
      rewrite Nat.sub_0_r in Hseen. apply lookup_lt_Some in Hseen. rewrite Hlen in Hseen.
      destruct (lookup_lt_is_Some_2 deduped idx Hseen) as [kept Hkept].
      unfold list_item. rewrite Hkept. simpl.
      pose proof (Hdups' := Hdups). rewrite Forall_forall in Hdups'.
      destruct (merge_duplicate_returns kept ev
                  (Hdups' kept (list_elem_of_lookup_2 _ _ _ Hkept)) Hall)
        as (merged & Hm & Hmd).
      rewrite Hm. simpl. eexists. split; [reflexivity|]. simpl. split.
      * apply Forall_insert; assumption.
      * rewrite !length_insert. exact Hlen.
    + eexists. split; [reflexivity|]. simpl. split.
      * apply Forall_app. split; [exact Hdups | constructor; [exact Hall | constructor]].
      * rewrite !length_app. simpl. lia.
  - exists st. exact Hst.
Qed.

(** X10: [_score_and_rank_candidates] returns, without an exception, whenever
    the metadata of every candidate is absent or a dictionary without a
    [duplicates] entry. *)
Theorem ranking_returns (cfg : config) (clock : nat -> Z)
    (candidates : list candidate) (top_n : Z) :
  Forall plain_metadata candidates ->
  exists out, _score_and_rank_candidates cfg clock candidates top_n = Ok out.
Proof.
  intros Hplain. unfold _score_and_rank_candidates.
  destruct (score_all_returns clock 0%nat candidates Hplain) as [scored Hscored].
  rewrite Hscored. simpl.
  assert (Hno : Forall (fun ev => dict_has (ev_meta ev) (u "duplicates") = false)
                       (sort_desc rank_key_lt scored)).
  { rewrite sort_desc_perm. apply Forall_forall. intros a Ha.
    apply list_elem_of_lookup_1 in Ha as [i Hi].
    destruct (score_all_lookup _ _ _ _ Hscored) as [Hlen Hl].
    destruct (candidates !! i) as [item|] eqn:Hitem.
    - destruct (Hl i item Hitem) as (a' & Ha' & Hs).
      assert (a' = a) by congruence. subst a'.
      eapply scored_without_duplicates; [|exact Hs].
      rewrite Forall_forall in Hplain. apply Hplain.
      eapply list_elem_of_lookup_2. exact Hitem.
    - apply lookup_ge_None in Hitem. apply lookup_lt_Some in Hi. lia. }
  unfold _postprocess_candidates.
  destruct (key_dedupe_returns _ Hno) as (st1 & H1 & Hdups).
  rewrite H1. simpl.
  destruct (text_dedupe_returns _ Hdups) as (st2 & H2).
  rewrite H2. simpl. eexists. reflexivity.
Qed.

End RankingReturns.

(** The example candidates carry empty metadata. *)
Lemma ranking_returns_witness :
  exists out,
    _score_and_rank_candidates default_config (fun _ => 200) example_candidates 3 = Ok out.
Proof.
  apply (@ranking_returns reference_runtime default_config (fun _ => 200)
           example_candidates 3).
  repeat constructor.
Defined.

(* ================================================================== *)
(** * The context cache *)
(* ================================================================== *)

Lemma cache_get_put_eq (c : list (list Z * cache_entry)) k e :
  cache_get (cache_put c k e) k = Some e.
Proof.
  induction c as [|[k' e'] c IH]; simpl.
  - rewrite pystr_eqb_refl. reflexivity.
  - destruct (pystr_eqb k' k) eqn:E; simpl; rewrite E; [reflexivity | exact IH].
Qed.

Lemma cache_put_length_le (c : list (list Z * cache_entry)) k e :
  (length (cache_put c k e) <= S (length c))%nat.
Proof.
  induction c as [|[k' e'] c IH]; simpl; [lia|].
  destruct (pystr_eqb k' k); simpl; lia.
Qed.

Lemma cache_put_length_hit (c : list (list Z * cache_entry)) k e hit :
  cache_get c k = Some hit -> length (cache_put c k e) = length c.
Proof.
  induction c as [|[k' e'] c IH]; simpl; [discriminate|].
  destruct (pystr_eqb k' k); simpl; [reflexivity|].
  intros H. rewrite IH by exact H. reflexivity.
Qed.

Lemma evict_if_over_within (cfg : config) (c : list (list Z * cache_entry)) :
  Z.of_nat (length c) <= MAX_CACHE_SIZE cfg -> evict_if_over cfg c = c.
Proof.
  intros H. unfold evict_if_over.
  destruct (Z.ltb_spec (MAX_CACHE_SIZE cfg) (Z.of_nat (length c))); [lia | reflexivity].
Qed.

(** The key [oldest_key] picks is the key of an entry. *)
Lemma oldest_key_in (c : list (list Z * cache_entry)) :
  c <> [] -> exists k, oldest_key c = Some k /\ In k (map fst c).
Proof.
  destruct c as [|first rest]; [congruence|]. intros _. unfold oldest_key.
  eexists. split; [reflexivity|].
  assert (G : forall l best, In best (first :: rest) -> incl l (first :: rest) ->
            In (fold_left (fun best kv =>
                             if flt (stored_at (snd kv)) (stored_at (snd best))
                             then kv else best) l best) (first :: rest)).
  { induction l as [|x l IH]; intros best Hb Hl; simpl; [exact Hb|].
    apply IH.
    - destruct (flt _ _); [apply Hl; left; reflexivity | exact Hb].
    - intros y Hy. apply Hl. right. exact Hy. }
  apply in_map. apply G; [left; reflexivity | apply incl_tl, incl_refl].
Qed.

Lemma cache_pop_length (c : list (list Z * cache_entry)) k :
  In k (map fst c) -> (length (cache_pop c k) < length c)%nat.
Proof.
  unfold cache_pop. induction c as [|[k' e'] c IH]; simpl; [intros []|].
  intros [Hk|Hk].
  - subst k'. rewrite pystr_eqb_refl. simpl.
    pose proof (List.filter_length_le (fun ke => negb (pystr_eqb (fst ke) k)) c). lia.
  - specialize (IH Hk). destruct (negb (pystr_eqb k' k)); simpl; lia.
Qed.

(** After a write and the eviction that follows it, the cache is within its
    bound again. *)
Lemma evict_if_over_bound (cfg : config) (c : list (list Z * cache_entry)) :
  Z.of_nat (length c) <= MAX_CACHE_SIZE cfg + 1 ->
  Z.of_nat (length (evict_if_over cfg c)) <= Z.max (MAX_CACHE_SIZE cfg) 0.
Proof.
  intros H. unfold evict_if_over.
  destruct (Z.ltb_spec (MAX_CACHE_SIZE cfg) (Z.of_nat (length c))) as [Hover|Hin]; [|lia].
  destruct c as [|first rest] eqn:Hc; [simpl in *; lia|]. rewrite <- Hc in *.
  destruct (oldest_key_in c ltac:(rewrite Hc; discriminate)) as (k & -> & Hk).
  pose proof (cache_pop_length c k Hk). lia.
Qed.

Section CacheTheorems.
Context `{R : PyRuntime}.

(** What a call that finds a fresh entry returns. *)
Lemma gateway_ctx_call_hit cfg w c arguments hit :
  fresh_hit cfg w c (request_cache_key cfg arguments) = Some hit ->
  let t := snd (gateway_ctx_call cfg w c arguments) in
  content_text t = snippet hit /\ isError t = false /\ r_cache_hit (data t) = true
  /\ exists res,
       fst (gateway_ctx_call cfg w c arguments)
       = cache_put c (request_cache_key cfg arguments)
           {| stored_at := stored_at hit; snippet := snippet hit; cached_result := res |}.
Proof.
  intros Hhit. unfold gateway_ctx_call. unfold request_cache_key in Hhit.
  rewrite Hhit. simpl. repeat split. eexists. reflexivity.
Qed.

(** A call that was answered by the retrieval service: no error and no
    cache hit.  It went through the miss path and wrote its entry. *)
Lemma gateway_ctx_call_answered cfg w c arguments :
  let t := snd (gateway_ctx_call cfg w c arguments) in
  isError t = false -> r_cache_hit (data t) = false ->
  fst (gateway_ctx_call cfg w c arguments)
  = evict_if_over cfg
      (cache_put c (request_cache_key cfg arguments)
         {| stored_at := w_now_write w; snippet := content_text t;
            cached_result := data t |}).
Proof.
  intros t Herr Hhit. subst t.
  destruct (fresh_hit cfg w c (request_cache_key cfg arguments)) as [hit|] eqn:Hfresh.
  - destruct (gateway_ctx_call_hit cfg w c arguments hit Hfresh) as (_ & _ & H & _).
    congruence.
  - pose proof (gateway_ctx_call_miss cfg w c arguments Hfresh) as Hcall.
    cbv zeta in Hcall.
    destruct (retrieval_attempt _ _ _ _ _ _ _) as [[ctx res]|e].
    + destruct Hcall as (-> & _). reflexivity.
    + rewrite Hcall in Herr. discriminate.
Qed.

(** X11: round trip through the cache: a call that was answered by the retrieval
    service while the cache had room, repeated within the TTL, is answered
    from the cache with the same text, whatever the service would answer by
    then.  The entry keeps the time at which it was written: a hit does not
    extend its life. *)
Theorem cache_round_trip (cfg : config) (w1 w2 : world)
    (c0 : list (list Z * cache_entry)) (arguments : list (list Z * pyval)) :
  let t1 := snd (gateway_ctx_call cfg w1 c0 arguments) in
  let c1 := fst (gateway_ctx_call cfg w1 c0 arguments) in
  let t2 := snd (gateway_ctx_call cfg w2 c1 arguments) in
  let c2 := fst (gateway_ctx_call cfg w2 c1 arguments) in
  isError t1 = false -> r_cache_hit (data t1) = false ->
  Z.of_nat (length c0) < MAX_CACHE_SIZE cfg ->
  fle (w_now w2 - w_now_write w1)%float (CACHE_TTL_SECS cfg) = true ->
  content_text t2 = content_text t1
  /\ isError t2 = false
  /\ r_cache_hit (data t2) = true
  /\ option_map stored_at (cache_get c2 (request_cache_key cfg arguments))
     = Some (w_now_write w1).
Proof.
  intros t1 c1 t2 c2 Herr Hmiss Hroom Hfresh.
  pose proof (gateway_ctx_call_answered cfg w1 c0 arguments Herr Hmiss) as Hc1.
  fold c1 t1 in Hc1.
  set (key := request_cache_key cfg arguments) in *.
  set (entry := {| stored_at := w_now_write w1; snippet := content_text t1;
                   cached_result := data t1 |}) in *.
  rewrite evict_if_over_within in Hc1
    by (pose proof (cache_put_length_le c0 key entry); lia).
  assert (Hget : fresh_hit cfg w2 c1 key = Some entry).
  { unfold fresh_hit. rewrite Hc1, cache_get_put_eq. simpl. rewrite Hfresh. reflexivity. }
  destruct (gateway_ctx_call_hit cfg w2 c1 arguments entry Hget) as (H1 & H2 & H3 & res & H4).
  fold t2 in H1, H2, H3. fold c2 key in H4.
  repeat split; [exact H1 | exact H2 | exact H3|].
  rewrite H4, cache_get_put_eq. reflexivity.
Qed.

(** ** The bound on the cache *)

Lemma gateway_ctx_call_bound cfg w c arguments :
  Z.of_nat (length c) <= MAX_CACHE_SIZE cfg ->
  Z.of_nat (length (fst (gateway_ctx_call cfg w c arguments))) <= MAX_CACHE_SIZE cfg.
Proof.
  intros Hc.
  destruct (fresh_hit cfg w c (request_cache_key cfg arguments)) as [hit|] eqn:Hfresh.
  - destruct (gateway_ctx_call_hit cfg w c arguments hit Hfresh) as (_ & _ & _ & res & ->).
    unfold fresh_hit in Hfresh.
    destruct (cache_get c (request_cache_key cfg arguments)) as [h|] eqn:Hget;
      [|discriminate].
    rewrite (cache_put_length_hit _ _ _ h Hget). exact Hc.
  - pose proof (gateway_ctx_call_miss cfg w c arguments Hfresh) as Hcall.
    cbv zeta in Hcall.
    destruct (retrieval_attempt _ _ _ _ _ _ _) as [[ctx res]|e].
    + destruct Hcall as (-> & _). simpl.
      etransitivity; [apply evict_if_over_bound|lia].
      match goal with |- context [cache_put c ?k ?e] =>
        pose proof (cache_put_length_le c k e) end. lia.
    + rewrite Hcall. exact Hc.
Qed.

Lemma handle_jsonrpc_bound cfg w header_pv c msg :
  Z.of_nat (length c) <= MAX_CACHE_SIZE cfg ->
  Z.of_nat (length (h_cache (_handle_jsonrpc cfg w header_pv c msg))) <= MAX_CACHE_SIZE cfg.
Proof.
  intros Hc. unfold _handle_jsonrpc.
  destruct (msg_params msg) as [params|e]; [|exact Hc].
  repeat match goal with
         | |- context [if ?b then _ else _] => destruct b; try exact Hc
         end.
  destruct (call_arguments params) as [arguments|e]; [|exact Hc].
  pose proof (gateway_ctx_call_bound cfg w c arguments Hc) as H.
  destruct (gateway_ctx_call cfg w c arguments) as [c' t]. exact H.
Qed.

Lemma handle_batch_bound cfg worlds header_pv msgs i c pv results :
  Z.of_nat (length c) <= MAX_CACHE_SIZE cfg ->
  Z.of_nat (length (fst (fst (handle_batch cfg worlds header_pv i msgs c pv results))))
  <= MAX_CACHE_SIZE cfg.
Proof.
  revert i c pv results. induction msgs as [|m rest IH]; intros i c pv results Hc; simpl.
  - exact Hc.
  - destruct m; try (apply IH; exact Hc).
    pose proof (handle_jsonrpc_bound cfg (worlds i) header_pv c entries Hc) as Hb.
    destruct (h_response (_handle_jsonrpc cfg (worlds i) header_pv c entries)) as [r|e].
    + apply IH. exact Hb.
    + exact Hb.
Qed.

(** X12: whatever the request, a cache that is within [MAX_CACHE_SIZE] entries
    before it is within that bound after it. *)
Theorem cache_stays_bounded (cfg : config) (worlds : nat -> world)
    (c : list (list Z * cache_entry)) (request : http_request) :
  Z.of_nat (length c) <= MAX_CACHE_SIZE cfg ->
  Z.of_nat (length (snd (gateway_ctx_mcp cfg worlds c request))) <= MAX_CACHE_SIZE cfg.
Proof.
  intros Hc. unfold gateway_ctx_mcp.
  destruct (str_in (req_method request) _); [exact Hc|].
  destruct (req_json request) as [v|]; [|exact Hc].
  destruct v as [| | | | |msgs|d];
    try (pose proof (handle_jsonrpc_bound cfg (worlds 0%nat) (req_header_pv request) c [] Hc)
           as Hb;
         destruct (h_response (_handle_jsonrpc cfg (worlds 0%nat) (req_header_pv request) c []))
           as [[r|]|e]; exact Hb).
  - pose proof (handle_batch_bound cfg worlds (req_header_pv request) msgs 0 c None [] Hc)
      as Hb.
    destruct (handle_batch cfg worlds (req_header_pv request) 0 msgs c None [])
      as [[c' pv] [results|e]]; exact Hb.
  - pose proof (handle_jsonrpc_bound cfg (worlds 0%nat) (req_header_pv request) c d Hc) as Hb.
    destruct (h_response (_handle_jsonrpc cfg (worlds 0%nat) (req_header_pv request) c d))
      as [[r|]|e]; exact Hb.
Qed.

End CacheTheorems.

(** The round trip at [example_arguments]: answered by the service at time
    200, written at 201, asked again at 215 with the service down. *)
Lemma cache_round_trip_witness :
  let c1 := fst (gateway_ctx_call default_config answering_world [] example_arguments) in
  content_text (snd (gateway_ctx_call default_config service_down_later c1 example_arguments))
  = content_text (snd (gateway_ctx_call default_config answering_world [] example_arguments))
  /\ isError (snd (gateway_ctx_call default_config service_down_later c1 example_arguments))
     = false.
Proof.
  cbv zeta.
  destruct (@cache_round_trip reference_runtime default_config answering_world
              service_down_later [] example_arguments) as (H1 & H2 & _);
    try (vm_compute; reflexivity).
  split; [exact H1 | exact H2].
Defined.

(** The bound at a call that writes the first entry. *)
Lemma cache_stays_bounded_witness :
  Z.of_nat (length (snd (gateway_ctx_mcp default_config (fun _ => answering_world) []
                           (post_request (PDict example_call))))) <= 256.
Proof.
  apply (@cache_stays_bounded reference_runtime default_config (fun _ => answering_world) []
           (post_request (PDict example_call))).
  vm_compute. discriminate.
Defined.

(* ================================================================== *)
(** * The JSON-RPC endpoint *)
(* ================================================================== *)

(** ** Protocol versions *)


Section Endpoint.
Context `{R : PyRuntime}.








(** ** Batches *)

Lemma handle_jsonrpc_id cfg w header_pv c msg r :
  h_response (_handle_jsonrpc cfg w header_pv c msg) = Ok r ->
  option_map response_id r = request_id (PDict msg).
Proof.
  unfold _handle_jsonrpc, request_id.
  destruct (msg_params msg) as [params|e]; simpl; [|discriminate].
  assert (Hreply : forall x,
             response_id x = dict_get msg (u "id") ->
             option_map response_id (reply (negb (dict_has msg (u "id"))) x)
             = if dict_has msg (u "id") then Some (dict_get msg (u "id")) else None).
  { intros x Hx. unfold reply. destruct (dict_has msg (u "id")); simpl; congruence. }
  repeat match goal with
         | |- context [if ?b then _ else _] =>
             match b with
             | dict_has _ _ => fail 1
             | _ => destruct b
             end
         end;
    simpl; try (intros [= <-]; apply Hreply; reflexivity).
  destruct (call_arguments params) as [arguments|e]; simpl; [|discriminate].
  destruct (gateway_ctx_call cfg w c arguments) as [c' t]. simpl.
  intros [= <-]. apply Hreply. reflexivity.
Qed.

Lemma omap_cons_list {A B} (f : A -> option B) (x : A) (l : list A) :
  omap f (x :: l) = match f x with Some y => y :: omap f l | None => omap f l end.
Proof. reflexivity. Qed.

Lemma handle_batch_ids cfg worlds header_pv msgs i c pv results c' pv' out :
  handle_batch cfg worlds header_pv i msgs c pv results = (c', pv', Ok out) ->
  map response_id out = map response_id results ++ omap request_id msgs.
Proof.
  revert i c pv results. induction msgs as [|m rest IH]; intros i c pv results H;
    simpl in H.
  - injection H as _ _ <-. simpl. rewrite app_nil_r. reflexivity.
  - rewrite omap_cons_list.
    destruct m; try (rewrite (IH _ _ _ _ H); reflexivity).
    destruct (h_response (_handle_jsonrpc cfg (worlds i) header_pv c entries))
      as [r|e] eqn:Hr; [|discriminate].
    pose proof (handle_jsonrpc_id _ _ _ _ _ _ Hr) as Hid.
    rewrite (IH _ _ _ _ H), <- Hid.
    destruct r as [resp|]; simpl.
    + rewrite map_app. simpl. rewrite <- app_assoc. reflexivity.
    + reflexivity.
Qed.

(** X14: a batch is answered by an array that holds one response for each
    element that is a request with an [id], in the order of the batch and
    carrying that [id]; notifications and elements that are not objects
    leave nothing. *)
Theorem batch_responses_in_order (cfg : config) (worlds : nat -> world)
    (c : list (list Z * cache_entry)) (header_pv : list Z) (msgs : list pyval)
    (resp : http_response) :
  fst (gateway_ctx_mcp cfg worlds c
         {| req_method := u "POST"; req_header_pv := header_pv;
            req_json := Some (PList msgs) |}) = Ok resp ->
  status_code resp = 200
  /\ exists results,
       body resp = BatchBody results
       /\ map response_id results = omap request_id msgs.
Proof.
  unfold gateway_ctx_mcp.
  replace (str_in (u "POST") [u "GET"; u "OPTIONS"]) with false
    by (vm_compute; reflexivity).
  cbn [req_method req_json req_header_pv].
  destruct (handle_batch cfg worlds header_pv 0 msgs c None [])
    as [[c' pv] [results|e]] eqn:Hb; simpl; [|discriminate].
  intros [= <-]. simpl. split; [reflexivity|].
  exists results. split; [reflexivity|].
  apply (handle_batch_ids _ _ _ _ _ _ _ _ _ _ _ Hb).
Qed.

End Endpoint.

(** ** What a call answered by the retrieval service returns *)

Section AnsweredCall.
Context `{R : PyRuntime}.

Lemma retrieval_attempt_shape cfg w text user summaries primary reason ctx res :
  retrieval_attempt cfg w text user summaries primary reason = Ok (ctx, res) ->
  (exists s, ctx = _truncate_ctx cfg s)
  /\ r_ctx res = Some ctx
  /\ r_keyword_primary res = primary
  /\ exists cands evidence,
       _score_and_rank_candidates cfg (w_clock w) cands (RETRIEVAL_TOP_N cfg) = Ok evidence
       /\ r_evidence res = Some evidence
       /\ r_used_evidence_ids res = Some (List.filter str_truthy (map ev_id evidence)).
Proof.
  unfold retrieval_attempt. intros H.
  destruct (_call_dify_anchor cfg w primary user) as [dify|e]; simpl in H; [|discriminate].
  match type of H with
  | mbind _ ?second = _ => destruct second as [[[[[[fk ft] uk] ctx'] outs'] ms]|e] eqn:Hsecond
  end; simpl in H; [|discriminate].
  assert (Hctx : exists s, ctx' = _truncate_ctx cfg s).
  { destruct (negb (str_truthy (_truncate_ctx cfg (picked_text (_extract_outputs dify))))).
    - destruct (_ && _).
      + destruct (_call_dify_anchor cfg w _ user) as [dify2|e]; simpl in Hsecond;
          [|discriminate].
        destruct (str_truthy (_truncate_ctx cfg (picked_text (_extract_outputs dify2))));
          injection Hsecond as _ _ _ <- _ _; eexists; reflexivity.
      + injection Hsecond as _ _ _ <- _ _. eexists. reflexivity.
    - injection Hsecond as _ _ _ <- _ _. eexists. reflexivity. }
  destruct (_build_summary_candidates (w_now_ts w) summaries text) as [su|e]; simpl in H;
    [|discriminate].
  match type of H with
  | mbind _ (_score_and_rank_candidates cfg (w_clock w) ?cands _) = _ =>
      destruct (_score_and_rank_candidates cfg (w_clock w) cands (RETRIEVAL_TOP_N cfg))
        as [evidence|e] eqn:Hrank; simpl in H; [|discriminate];
      injection H as <- <-; simpl;
      split; [exact Hctx|]; split; [reflexivity|]; split; [reflexivity|];
      exists cands, evidence; auto
  end.
Qed.

(** X15: a call that was answered by the retrieval service (no error, no cache
    hit) returns a snippet of at most [CTX_MAX + 1] characters and at most
    [max(1, RETRIEVAL_TOP_N)] evidence records; the ids listed in
    [used_evidence_ids] are those of the evidence, and [ctx] is the text
    returned. *)
Theorem answered_call_is_bounded (cfg : config) (w : world)
    (c : list (list Z * cache_entry)) (arguments : list (list Z * pyval)) :
  let t := snd (gateway_ctx_call cfg w c arguments) in
  0 <= CTX_MAX cfg ->
  isError t = false -> r_cache_hit (data t) = false ->
  Z.of_nat (length (content_text t)) <= CTX_MAX cfg + 1
  /\ r_ctx (data t) = Some (content_text t)
  /\ exists evidence,
       r_evidence (data t) = Some evidence
       /\ Z.of_nat (length evidence) <= Z.max 1 (RETRIEVAL_TOP_N cfg)
       /\ r_used_evidence_ids (data t) = Some (List.filter str_truthy (map ev_id evidence)).
Proof.
  intros t Hmax Herr Hhit. subst t.
  destruct (fresh_hit cfg w c (request_cache_key cfg arguments)) as [hit|] eqn:Hfresh.
  { destruct (gateway_ctx_call_hit cfg w c arguments hit Hfresh) as (_ & _ & H & _).
    congruence. }
  pose proof (gateway_ctx_call_miss cfg w c arguments Hfresh) as Hcall.
  cbv zeta in Hcall.
  destruct (retrieval_attempt _ _ _ _ _ _ _) as [[ctx res]|e] eqn:Hatt.
  2:{ rewrite Hcall in Herr. discriminate. }
  destruct Hcall as (-> & _). simpl.
  destruct (retrieval_attempt_shape _ _ _ _ _ _ _ _ _ Hatt)
    as ((s & ->) & Hctx & _ & cands & evidence & Hrank & Hev & Hids).
  split; [apply truncate_ctx_spec; exact Hmax|]. split; [exact Hctx|].
  exists evidence. split; [exact Hev|]. split; [|exact Hids].
  destruct (ranking_candidates_spec _ _ _ _ _ Hrank) as [Hlen _].
  destruct (RETRIEVAL_TOP_N cfg =? 0) eqn:E; [|exact Hlen].
  apply Z.eqb_eq in E. rewrite E in *. exact Hlen.
Qed.

End AnsweredCall.

(** The bounds at [example_arguments], answered by the service. *)
Lemma answered_call_is_bounded_witness :
  Z.of_nat (length (content_text
                      (snd (gateway_ctx_call default_config answering_world []
                              example_arguments)))) <= 400 + 1
  /\ exists evidence,
       r_evidence (data (snd (gateway_ctx_call default_config answering_world []
                                example_arguments))) = Some evidence
       /\ Z.of_nat (length evidence) <= 3.
Proof.
  destruct (@answered_call_is_bounded reference_runtime default_config answering_world []
              example_arguments) as (H1 & _ & evidence & H2 & H3 & _);
    [vm_compute; discriminate | vm_compute; reflexivity | vm_compute; reflexivity |].
  split; [exact H1|]. exists evidence. split; [exact H2 | exact H3].
Defined.


(** A batch of a notification, a request and a string. *)
Lemma batch_responses_in_order_witness :
  exists resp,
    fst (gateway_ctx_mcp default_config (fun _ => failing_world) []
           {| req_method := u "POST"; req_header_pv := [];
              req_json := Some (PList [initialized_notification; initialize_request;
                                       PStr (u "noise")]) |}) = Ok resp
    /\ exists results,
         body resp = BatchBody results
         /\ map response_id results = [PInt 1].
Proof.
  eexists. split; [vm_compute; reflexivity|].
  refine (proj2 (@batch_responses_in_order reference_runtime default_config
                   (fun _ => failing_world) [] []
                   [initialized_notification; initialize_request; PStr (u "noise")] _ _)).
  vm_compute. reflexivity.
Defined.

(* ================================================================== *)
(** * The chat proxy *)
(* ================================================================== *)

(** ** Sanitization leaves the other messages alone *)

Lemma dict_lookup_pop_ne (d : list (list Z * pyval)) (k k' : list Z) :
  k <> k' -> dict_lookup (dict_pop d k) k' = dict_lookup d k'.
Proof.
  intros Hne. unfold dict_pop. induction d as [|[k0 v0] d IH]; simpl; [reflexivity|].
  destruct (pystr_eqb k0 k) eqn:E; simpl.
  - apply pystr_eqb_eq in E. subst k0.
    apply pystr_eqb_neq in Hne. rewrite Hne. exact IH.
  - destruct (pystr_eqb k0 k'); [reflexivity | exact IH].
Qed.

Lemma assistant_not_bystander (m : list (list Z * pyval)) :
  val_is_str (dict_get m (u "role")) (u "assistant") = true -> bystander m = false.
Proof.
  unfold bystander, get_stripped. intros H.
  destruct (dict_get m (u "role")) as [| | | |s| |]; try discriminate.
  simpl in H. apply pystr_eqb_eq in H. subst s. vm_compute. reflexivity.
Qed.

Lemma strip_first_assistant_bystanders (l : list (list (list Z * pyval))) :
  List.filter bystander (strip_first_assistant l) = List.filter bystander l.
Proof.
  induction l as [|m l IH]; simpl; [reflexivity|].
  destruct (val_is_str (dict_get m (u "role")) (u "assistant")) eqn:E.
  - simpl. rewrite (assistant_not_bystander m E).
    assert (E' : val_is_str
                   (dict_get (dict_pop (dict_pop m (u "tool_calls")) (u "function_call"))
                      (u "role")) (u "assistant") = true).
    { unfold dict_get in *.
      rewrite !dict_lookup_pop_ne by (vm_compute; discriminate). exact E. }
    rewrite (assistant_not_bystander _ E'). reflexivity.
  - simpl. rewrite IH. reflexivity.
Qed.

Lemma filter_rev {A} (f : A -> bool) (l : list A) :
  List.filter f (rev l) = rev (List.filter f l).
Proof.
  induction l as [|x l IH]; simpl; [reflexivity|].
  rewrite List.filter_app, IH. simpl. destruct (f x); simpl;
    [reflexivity | rewrite app_nil_r; reflexivity].
Qed.

Lemma strip_last_assistant_bystanders (l : list (list (list Z * pyval))) :
  List.filter bystander (strip_last_assistant_tool_fields l) = List.filter bystander l.
Proof.
  unfold strip_last_assistant_tool_fields.
  rewrite filter_rev, strip_first_assistant_bystanders, <- filter_rev, rev_involutive.
  reflexivity.
Qed.

Lemma dict_messages_app (a b : list pyval) :
  dict_messages (a ++ b) = dict_messages a ++ dict_messages b.
Proof.
  unfold dict_messages. induction a as [|x a IH]; [reflexivity|].
  rewrite <- app_comm_cons, !omap_cons_list, IH. destruct (as_dict x); reflexivity.
Qed.

Lemma sanitize_step_bystanders st m st' :
  sanitize_step st m = Ok st' ->
  List.filter bystander (fst st')
  = List.filter bystander (fst st) ++ List.filter bystander (dict_messages [m]).
Proof.
  destruct st as [cleaned pending]. unfold sanitize_step.
  destruct m as [| | | | | |m]; try (intros [= <-]; simpl; rewrite app_nil_r; reflexivity).
  change (dict_messages [PDict m]) with [m].
  destruct (get_stripped m (u "role")) as [role|e] eqn:Hrole; simpl; [|discriminate].
  assert (Hby : bystander m
                = negb (pystr_eqb role (u "tool")) && negb (pystr_eqb role (u "assistant"))).
  { unfold bystander. rewrite Hrole. reflexivity. }
  destruct (pystr_eqb role (u "tool")) eqn:Htool.
  - destruct (get_stripped m (u "tool_call_id")) as [tcid|e]; simpl; [|discriminate].
    simpl in Hby.
    destruct (_ && _); intros [= <-]; simpl;
      rewrite ?List.filter_app; simpl; rewrite Hby, ?app_nil_r; reflexivity.
  - simpl in Hby.
    set (st0 := if bool_decide (pending ≠ ∅)
                then (strip_last_assistant_tool_fields cleaned, ∅)
                else (cleaned, pending)).
    assert (H0 : List.filter bystander (fst st0) = List.filter bystander cleaned).
    { unfold st0. destruct (bool_decide _); simpl;
        [apply strip_last_assistant_bystanders | reflexivity]. }
    destruct st0 as [cleaned0 pending0]. simpl in H0.
    destruct (pystr_eqb role (u "assistant")) eqn:Hass; simpl in Hby |- *.
    + destruct (dict_has_value m (u "tool_calls")).
      * destruct (match py_or _ _ with PList tc => tool_call_ids tc | _ => Ok [] end)
          as [ids|e]; simpl; [|discriminate].
        intros [= <-]. simpl. rewrite List.filter_app, H0. simpl. rewrite Hby. reflexivity.
      * destruct (dict_has_value m (u "function_call")).
        -- destruct (is_blank_content _); intros [= <-]; simpl;
             rewrite ?List.filter_app, H0; simpl; rewrite Hby, ?app_nil_r; reflexivity.
        -- intros [= <-]. simpl. rewrite List.filter_app, H0. simpl. rewrite Hby.
           reflexivity.
    + intros [= <-]. simpl. rewrite List.filter_app, H0. simpl. rewrite Hby. reflexivity.
Qed.

Lemma sanitize_bystanders_spec (messages : list pyval)
    (out : list (list (list Z * pyval))) :
  _sanitize_messages_for_upstream (PList messages) = Ok out ->
  List.filter bystander out = List.filter bystander (dict_messages messages).
Proof.
  unfold _sanitize_messages_for_upstream.
  destruct (fold_result sanitize_step messages ([], ∅)) as [[cleaned pending]|e] eqn:Hfold;
    simpl; [|discriminate].
  intros [= <-].
  assert (Hinv : List.filter bystander cleaned
                 = List.filter bystander (dict_messages messages)).
  { apply (fold_result_inv sanitize_step
             (fun pre st => List.filter bystander (fst st)
                            = List.filter bystander (dict_messages pre))
             messages ([], ∅) (cleaned, pending)); [reflexivity | | exact Hfold].
    intros pre x post a1 a2 _ Hinv Hstep.
    rewrite (sanitize_step_bystanders _ _ _ Hstep), Hinv, dict_messages_app,
      List.filter_app. reflexivity. }
  destruct (bool_decide _); [rewrite strip_last_assistant_bystanders|]; exact Hinv.
Qed.

(** X16: [_sanitize_messages_for_upstream] never drops, changes or reorders a
    message whose role is neither "tool" nor "assistant": those of the output
    are those of the input. *)
Theorem sanitize_keeps_bystanders (messages : list pyval)
    (out : list (list (list Z * pyval))) :
  _sanitize_messages_for_upstream (PList messages) = Ok out ->
  List.filter bystander out = List.filter bystander (dict_messages messages).
Proof. apply sanitize_bystanders_spec. Qed.

(** The theorem on the thread of the partially answered tool calls: the user
    message is kept. *)
Lemma sanitize_keeps_bystanders_witness :
  exists out,
    _sanitize_messages_for_upstream
      (PList [assistant_two_calls; tool_answer_a; user_follow_up]) = Ok out
    /\ List.filter bystander out
       = [[(u "role", PStr (u "user")); (u "content", PStr (u "thanks"))]].
Proof.
  destruct (_sanitize_messages_for_upstream
              (PList [assistant_two_calls; tool_answer_a; user_follow_up]))
    as [out|e] eqn:Hrun; [|vm_compute in Hrun; discriminate].
  exists out. split; [reflexivity|].
  rewrite (sanitize_keeps_bystanders _ out Hrun). vm_compute. reflexivity.
Defined.

(** ** The user text read after sanitization *)

Section UserText.
Context `{L : PyLibrary}.

Lemma user_is_bystander (m : list (list Z * pyval)) :
  is_user_message m = true -> bystander m = true.
Proof.
  unfold is_user_message, bystander, get_stripped. intros H.
  destruct (dict_get m (u "role")) as [| | | |s| |]; try discriminate.
  simpl in H. apply pystr_eqb_eq in H. subst s. vm_compute. reflexivity.
Qed.

Lemma filter_user_bystander (l : list (list (list Z * pyval))) :
  List.filter is_user_message (List.filter bystander l) = List.filter is_user_message l.
Proof.
  induction l as [|m l IH]; simpl; [reflexivity|].
  destruct (bystander m) eqn:Hb; simpl.
  - rewrite IH. reflexivity.
  - destruct (is_user_message m) eqn:Hu; [|exact IH].
    rewrite (user_is_bystander m Hu) in Hb. discriminate.
Qed.

Lemma last_user_loop_cons (d : list (list Z * pyval)) (rest : list pyval) :
  last_user_loop (PDict d :: rest)
  = if is_user_message d
    then Ok (match dict_get d (u "content") with
             | PStr c => c
             | c => json_dumps c
             end)
    else last_user_loop rest.
Proof. reflexivity. Qed.

(** On dictionaries the loop depends on the user messages only. *)
Lemma last_user_loop_filter (l : list (list (list Z * pyval))) :
  last_user_loop (map PDict l)
  = last_user_loop (map PDict (List.filter is_user_message l)).
Proof.
  induction l as [|m l IH]; [reflexivity|].
  cbn [map List.filter]. rewrite last_user_loop_cons.
  destruct (is_user_message m) eqn:Hu.
  - cbn [map]. rewrite last_user_loop_cons, Hu. reflexivity.
  - exact IH.
Qed.

Lemma last_user_loop_dicts (l : list pyval) (t : list Z) :
  last_user_loop l = Ok t -> last_user_loop (map PDict (dict_messages l)) = Ok t.
Proof.
  unfold dict_messages. induction l as [|m l IH]; [auto|].
  rewrite omap_cons_list.
  destruct m as [| | | | | |d]; try discriminate.
  cbn [as_dict map]. rewrite !last_user_loop_cons.
  destruct (is_user_message d); [auto | exact IH].
Qed.

Lemma dict_messages_rev (l : list pyval) : dict_messages (rev l) = rev (dict_messages l).
Proof.
  induction l as [|m l IH]; [reflexivity|].
  simpl rev. rewrite dict_messages_app, IH.
  unfold dict_messages at 2 3. rewrite !omap_cons_list.
  destruct (as_dict m); simpl; [reflexivity | rewrite app_nil_r; reflexivity].
Qed.

Lemma last_user_loop_app_other (l : list pyval) (d : list (list Z * pyval)) :
  is_user_message d = false ->
  last_user_loop (l ++ [PDict d]) = last_user_loop l.
Proof.
  intros Hd. induction l as [|m l IH].
  - cbn [app]. rewrite last_user_loop_cons, Hd. reflexivity.
  - destruct m as [| | | | | |dm]; try reflexivity.
    rewrite <- app_comm_cons, !last_user_loop_cons.
    destruct (is_user_message dm); [reflexivity | exact IH].
Qed.

Lemma last_user_text_inject (messages : list pyval) (blocks : list (list Z)) :
  _last_user_text (_inject_system messages blocks) = _last_user_text messages.
Proof.
  unfold _inject_system, _last_user_text.
  destruct (List.filter _ blocks) as [|b bs]; [reflexivity|].
  simpl rev. apply last_user_loop_app_other. vm_compute. reflexivity.
Qed.

(** X17: the text of the last user message, which the proxy stores and sends to
    the retrieval gateway, is the same whether it is read from the request,
    from the sanitized messages or from the messages with the system blocks
    put in front. *)
Theorem user_text_survives_preparation (messages : list pyval)
    (system_blocks : list (list Z)) (out : list (list (list Z * pyval))) (t : list Z) :
  _sanitize_messages_for_upstream (PList messages) = Ok out ->
  _last_user_text messages = Ok t ->
  _last_user_text (map PDict out) = Ok t
  /\ _last_user_text (_inject_system (map PDict out) system_blocks) = Ok t.
Proof.
  intros Hsan Hlast.
  assert (H : _last_user_text (map PDict out) = Ok t).
  { unfold _last_user_text in *.
    apply last_user_loop_dicts in Hlast. rewrite dict_messages_rev in Hlast.
    rewrite <- map_rev, last_user_loop_filter, filter_rev.
    rewrite last_user_loop_filter, filter_rev in Hlast.
    rewrite <- filter_user_bystander, (sanitize_bystanders_spec _ _ Hsan),
      filter_user_bystander. exact Hlast. }
  split; [exact H|]. rewrite last_user_text_inject. exact H.
Qed.

End UserText.

(** The theorem on the thread of the partially answered tool calls. *)
Lemma user_text_survives_preparation_witness :
  exists out,
    _sanitize_messages_for_upstream
      (PList [assistant_two_calls; tool_answer_a; user_follow_up]) = Ok out
    /\ _last_user_text (map PDict out) = Ok (u "thanks").
Proof.
  destruct (_sanitize_messages_for_upstream
              (PList [assistant_two_calls; tool_answer_a; user_follow_up]))
    as [out|e] eqn:Hrun; [|vm_compute in Hrun; discriminate].
  exists out. split; [reflexivity|].
  refine (proj1 (@user_text_survives_preparation reference_library
                   [assistant_two_calls; tool_answer_a; user_follow_up] []
                   out (u "thanks") Hrun _)).
  vm_compute. reflexivity.
Defined.

(** ** The upstream address *)

Lemma is_prefix_app (p s : list Z) : is_prefix p (p ++ s) = true.
Proof. induction p as [|a p IH]; simpl; [reflexivity|]. rewrite Z.eqb_refl. exact IH. Qed.

Lemma is_prefix_split (p s : list Z) : is_prefix p s = true -> exists r, s = p ++ r.
Proof.
  revert s. induction p as [|a p IH]; intros s H; simpl in *.
  - exists s. reflexivity.
  - destruct s as [|b s]; [discriminate|].
    apply andb_true_iff in H as [Hab H]. apply Z.eqb_eq in Hab. subst b.
    destruct (IH s H) as [r ->]. exists r. reflexivity.
Qed.

Lemma ends_with_app (suffix b : list Z) : ends_with suffix (b ++ suffix) = true.
Proof. unfold ends_with. rewrite rev_app_distr. apply is_prefix_app. Qed.

Lemma ends_with_split (suffix s : list Z) :
  ends_with suffix s = true -> exists b, s = b ++ suffix.
Proof.
  unfold ends_with. intros H. apply is_prefix_split in H as [r Hr].
  exists (rev r). apply (f_equal (@rev Z)) in Hr.
  rewrite rev_involutive, rev_app_distr, rev_involutive in Hr. exact Hr.
Qed.

(** X18: [_build_upstream_url] always returns an address that ends in
    [/chat/completions], and an address it has returned is returned as it is:
    the suffix is never added twice. *)
Theorem build_upstream_url_fixed (upstream_base : list Z) :
  ends_with (u "/chat/completions") (_build_upstream_url upstream_base) = true
  /\ _build_upstream_url (_build_upstream_url upstream_base)
     = _build_upstream_url upstream_base.
Proof.
  set (cc := u "/chat/completions").
  set (slash := fun c : Z => char_in c (u "/")).
  set (base0 := rstrip_by slash (py_strip upstream_base)).
  set (base := if negb (str_truthy base0) then u "https://api.openai.com" else base0).
  assert (Hbase : base <> [] /\ starts_clean py_isspace base = true).
  { unfold base. destruct base0 as [|c r] eqn:Hb0; simpl.
    - split; [discriminate | reflexivity].
    - split; [discriminate|].
      destruct (rstrip_by_split slash (py_strip upstream_base)) as [suf Hs].
      fold base0 in Hs. rewrite Hb0 in Hs.
      pose proof (strip_by_trimmed py_isspace upstream_base) as Ht.
      unfold trimmed in Ht. apply andb_true_iff in Ht as [Ht _].
      unfold py_strip in Hs. rewrite Hs in Ht. exact Ht. }
  destruct Hbase as [Hne Hclean].
  assert (Hx : exists x, _build_upstream_url upstream_base = x
                         /\ ends_with cc x = true /\ starts_clean py_isspace x = true).
  { unfold _build_upstream_url. fold slash base0 base cc.
    destruct (ends_with cc base) eqn:E1; [eexists; split; [reflexivity|]; auto|].
    destruct (ends_with (u "/v1") base).
    - eexists. split; [reflexivity|]. split; [apply ends_with_app|].
      rewrite starts_clean_app by exact Hne. exact Hclean.
    - eexists. split; [reflexivity|]. split.
      + change (u "/v1/chat/completions") with (u "/v1" ++ cc).
        rewrite app_assoc. apply ends_with_app.
      + rewrite starts_clean_app by exact Hne. exact Hclean. }
  destruct Hx as (x & -> & Hends & Hstart).
  split; [exact Hends|].
  destruct (ends_with_split _ _ Hends) as [b Hb].
  assert (Hrev : exists r, rev x = 115 :: r).
  { rewrite Hb, rev_app_distr. eexists. reflexivity. }
  destruct Hrev as [r Hr].
  assert (Htrim : trimmed py_isspace x = true).
  { unfold trimmed. rewrite Hstart, Hr. reflexivity. }
  unfold _build_upstream_url.
  rewrite (strip_by_id py_isspace x Htrim : py_strip x = x).
  assert (Hrs : rstrip_by (fun c : Z => char_in c (u "/")) x = x).
  { unfold rstrip_by. rewrite (drop_while_id _ (rev x)) by (rewrite Hr; reflexivity).
    apply rev_involutive. }
  rewrite Hrs.
  assert (Htruthy : str_truthy x = true).
  { rewrite Hb. destruct b; reflexivity. }
  rewrite Htruthy. cbn [negb]. fold cc. rewrite Hends. reflexivity.
Qed.

(** ** The placeholder for empty tool-call replies *)

Lemma dict_set_set (d : list (list Z * pyval)) k v v' :
  dict_set (dict_set d k v) k v' = dict_set d k v'.
Proof.
  induction d as [|[k0 v0] d IH]; simpl.
  - rewrite pystr_eqb_refl. reflexivity.
  - destruct (pystr_eqb k0 k) eqn:E; simpl; rewrite E; [reflexivity|].
    rewrite IH. reflexivity.
Qed.

Lemma dict_set_truthy (d : list (list Z * pyval)) k v : truthy (PDict (dict_set d k v)) = true.
Proof.
  destruct d as [|[k0 v0] d]; simpl; [reflexivity|].
  destruct (pystr_eqb k0 k); reflexivity.
Qed.

(** When the reply is changed at all, this is what it was and what it
    becomes. *)
Lemma tool_empty_content_compat_cases (pcfg : proxy_config) (data : pyval) :
  _apply_tool_empty_content_compat pcfg data = data
  \/ exists d first rest c0 msg,
       data = PDict d
       /\ TOOL_EMPTY_CONTENT_COMPAT pcfg = true
       /\ dict_get d (u "choices") = PList (first :: rest)
       /\ c0 = match first with PDict c => c | _ => [] end
       /\ dict_get c0 (u "message") = PDict msg
       /\ val_is_str (dict_get c0 (u "finish_reason")) (u "tool_calls") = true
       /\ truthy (dict_get msg (u "tool_calls")) = true
       /\ _apply_tool_empty_content_compat pcfg data
          = PDict (dict_set d (u "choices")
                     (PList (PDict (dict_set c0 (u "message")
                                      (PDict (dict_set msg (u "content")
                                                (PStr (TOOL_EMPTY_CONTENT_PLACEHOLDER pcfg)))))
                             :: rest))).
Proof.
  unfold _apply_tool_empty_content_compat.
  destruct (TOOL_EMPTY_CONTENT_COMPAT pcfg) eqn:Hc; [|left; reflexivity].
  cbn [negb].
  destruct data as [| | | | | |d]; try (left; reflexivity).
  destruct (py_or (dict_get d (u "choices")) (PList [])) as [| | | | |choices|] eqn:Hch;
    try (left; reflexivity).
  destruct choices as [|first rest]; [left; reflexivity|].
  assert (Hchoices : dict_get d (u "choices") = PList (first :: rest)).
  { unfold py_or in Hch. destruct (truthy (dict_get d (u "choices"))); [exact Hch|].
    discriminate. }
  cbv zeta.
  destruct (dict_get (match first with PDict c => c | _ => [] end) (u "message"))
    as [| | | | | |msg] eqn:Hmsg; try (left; reflexivity).
  destruct (negb (truthy (PDict msg))); [left; reflexivity|].
  destruct (val_is_str _ (u "tool_calls")) eqn:Hfin; [|left; reflexivity].
  destruct (truthy (dict_get msg (u "tool_calls"))) eqn:Htc; [|left; reflexivity].
  destruct (is_blank_str (dict_get msg (u "content"))); [|left; reflexivity].
  right. exists d, first, rest, (match first with PDict c => c | _ => [] end), msg.
  simpl. auto 10.
Qed.

Lemma tool_empty_content_compat_apply (pcfg : proxy_config) d first rest msg :
  TOOL_EMPTY_CONTENT_COMPAT pcfg = true ->
  dict_get d (u "choices") = PList (first :: rest) ->
  dict_get (match first with PDict c => c | _ => [] end) (u "message") = PDict msg ->
  truthy (PDict msg) = true ->
  val_is_str (dict_get (match first with PDict c => c | _ => [] end) (u "finish_reason"))
    (u "tool_calls") = true ->
  truthy (dict_get msg (u "tool_calls")) = true ->
  _apply_tool_empty_content_compat pcfg (PDict d)
  = if is_blank_str (dict_get msg (u "content"))
    then PDict (dict_set d (u "choices")
                  (PList (PDict (dict_set (match first with PDict c => c | _ => [] end)
                                   (u "message")
                                   (PDict (dict_set msg (u "content")
                                             (PStr (TOOL_EMPTY_CONTENT_PLACEHOLDER pcfg)))))
                          :: rest)))
    else PDict d.
Proof.
  intros Hc Hch Hmsg Htr Hfin Htc. unfold _apply_tool_empty_content_compat.
  rewrite Hc, Hch. unfold py_or. replace (truthy (PList (first :: rest))) with true
    by reflexivity.
  cbv zeta. rewrite Hmsg, Htr, Hfin, Htc. reflexivity.
Qed.

(** X19: [_apply_tool_empty_content_compat] applied to a reply it has already
    treated changes nothing more, and it never touches a member of the reply
    other than [choices]. *)
Theorem tool_empty_content_compat_stable (pcfg : proxy_config) (data : pyval) :
  _apply_tool_empty_content_compat pcfg (_apply_tool_empty_content_compat pcfg data)
  = _apply_tool_empty_content_compat pcfg data
  /\ forall d d' k,
       data = PDict d -> _apply_tool_empty_content_compat pcfg data = PDict d' ->
       k <> u "choices" -> dict_lookup d' k = dict_lookup d k.
Proof.
  destruct (tool_empty_content_compat_cases pcfg data)
    as [Hid | (d & first & rest & c0 & msg & -> & Hc & Hch & Hc0 & Hmsg & Hfin & Htc & Hout)].
  - split; [rewrite Hid; exact Hid|].
    intros d d' k -> Hd' _. rewrite Hid in Hd'. injection Hd' as <-. reflexivity.
  - split.
    + rewrite Hout.
      rewrite (tool_empty_content_compat_apply pcfg _ _ rest
                 (dict_set msg (u "content") (PStr (TOOL_EMPTY_CONTENT_PLACEHOLDER pcfg)))
                 Hc (dict_get_set_eq _ _ _)).
      * destruct (is_blank_str _); [|reflexivity].
        rewrite !dict_set_set. reflexivity.
      * apply dict_get_set_eq.
      * apply dict_set_truthy.
      * rewrite dict_get_set_ne by (vm_compute; discriminate). exact Hfin.
      * rewrite dict_get_set_ne by (vm_compute; discriminate). exact Htc.
    + intros d0 d' k [= <-] Hd' Hk. rewrite Hout in Hd'. injection Hd' as <-.
      apply dict_lookup_set_ne. congruence.
Qed.

(* ================================================================== *)
(** * The summarizer *)
(* ================================================================== *)

(** ** Mojibake repair *)

Lemma strip_ctrl_no_ctrl (s : list Z) : _ctrl_char_count (_strip_ctrl s) = 0.
Proof.
  unfold _ctrl_char_count, count_if, _strip_ctrl.
  induction s as [|c s IH]; simpl; [reflexivity|].
  destruct (is_c1_ctrl c) eqn:E; simpl; [exact IH|]. rewrite E. exact IH.
Qed.

Lemma cjk_not_ctrl (c : Z) : is_cjk c = true -> is_c1_ctrl c = false.
Proof.
  unfold is_cjk, is_c1_ctrl, in_range. intros H.
  apply andb_true_iff in H as [H1 _]. apply Z.leb_le in H1.
  apply andb_false_iff. right. apply Z.leb_gt. lia.
Qed.

Lemma strip_ctrl_cjk (s : list Z) : _count_cjk_chars (_strip_ctrl s) = _count_cjk_chars s.
Proof.
  unfold _count_cjk_chars, count_if, _strip_ctrl.
  induction s as [|c s IH]; simpl; [reflexivity|].
  destruct (is_cjk c) eqn:Ec.
  - rewrite (cjk_not_ctrl c Ec). simpl. rewrite Ec. simpl length. lia.
  - destruct (is_c1_ctrl c); simpl; [exact IH|]. rewrite Ec. exact IH.
Qed.

Lemma strip_ctrl_idempotent (s : list Z) : _strip_ctrl (_strip_ctrl s) = _strip_ctrl s.
Proof.
  unfold _strip_ctrl. induction s as [|c s IH]; simpl; [reflexivity|].
  destruct (is_c1_ctrl c) eqn:E; simpl; [exact IH|]. rewrite E. simpl. f_equal. exact IH.
Qed.

(** A key that is greater has at least as many CJK characters. *)
Lemma tuple_gt_head (a b : list Z) x y :
  tuple_gt (x :: a) (y :: b) = true -> y <= x.
Proof.
  simpl. destruct (Z.eqb_spec x y); [lia|]. rewrite Z.ltb_lt. lia.
Qed.

Lemma repair_select_cjk (candidates : list (list Z)) (best : list Z) :
  _count_cjk_chars best <= _count_cjk_chars (repair_select best candidates).
Proof.
  unfold repair_select. revert best.
  induction candidates as [|cand rest IH]; intros best; cbn [fold_left]; [lia|].
  destruct (tuple_gt (repair_ordering_key (_strip_ctrl cand)) (repair_ordering_key best))
    eqn:E; [|apply IH].
  etransitivity; [|apply IH].
  unfold repair_ordering_key in E. apply tuple_gt_head in E. exact E.
Qed.

Section RepairTheorems.
Context `{R : PyRuntime}.

(** X20: whatever the codecs produce, the text [_maybe_repair_mojibake_text]
    returns holds no C1 control character, and it has at least as many CJK
    ideographs as the text it was given. *)
Theorem repair_result_is_clean (text : list Z) :
  _ctrl_char_count (_maybe_repair_mojibake_text text) = 0
  /\ _count_cjk_chars text <= _count_cjk_chars (_maybe_repair_mojibake_text text).
Proof.
  unfold _maybe_repair_mojibake_text.
  destruct text as [|c0 t0] eqn:Ht; [split; [reflexivity | apply Z.le_refl]|].
  rewrite <- Ht. cbn [str_truthy negb].
  replace (negb (str_truthy text)) with false by (rewrite Ht; reflexivity).
  destruct (_ && _).
  { split; [apply strip_ctrl_no_ctrl | rewrite strip_ctrl_cjk; lia]. }
  cbv zeta.
  destruct (negb (_looks_mojibake_text text)).
  { split; [apply strip_ctrl_no_ctrl | rewrite strip_ctrl_cjk; lia]. }
  split; [apply strip_ctrl_no_ctrl|].
  rewrite strip_ctrl_cjk.
  etransitivity; [|apply repair_select_cjk].
  rewrite strip_ctrl_cjk. lia.
Qed.

(** A text that does not look like mojibake comes back unchanged. *)
Lemma repair_text_identity (t : list Z) :
  _looks_mojibake_text t = false -> _maybe_repair_mojibake_text t = t.
Proof.
  intros H. unfold _looks_mojibake_text in H. apply orb_false_iff in H as [Hs Hc].
  apply Z.ltb_ge in Hs, Hc.
  assert (Hctrl : forall c, In c t -> ~ (128 <= c <= 159)).
  { intros c Hin Hrange. unfold _ctrl_char_count, count_if in Hc.
    assert (Hf : In c (List.filter is_c1_ctrl t)).
    { apply filter_In. split; [exact Hin|]. unfold is_c1_ctrl, in_range.
      apply andb_true_iff. split; apply Z.leb_le; lia. }
    destruct (List.filter is_c1_ctrl t); [destruct Hf | simpl in Hc; lia]. }
  unfold _maybe_repair_mojibake_text.
  destruct (negb (str_truthy t)); [reflexivity|].
  destruct (_ && _); [apply strip_ctrl_id; exact Hctrl|].
  cbv zeta.
  replace (_looks_mojibake_text t) with false.
  - apply strip_ctrl_id. exact Hctrl.
  - symmetry. unfold _looks_mojibake_text. apply orb_false_iff.
    split; apply Z.ltb_ge; assumption.
Qed.

(** Induction on values, through lists and dictionaries. *)
Lemma pyval_nested_ind (P : pyval -> Prop) :
  P PNone -> (forall b, P (PBool b)) -> (forall z, P (PInt z)) -> (forall f, P (PFloat f)) ->
  (forall s, P (PStr s)) ->
  (forall items, Forall P items -> P (PList items)) ->
  (forall entries, Forall (fun kv => P (snd kv)) entries -> P (PDict entries)) ->
  forall v, P v.
Proof.
  intros HN HB HI HF HS HL HD.
  fix IH 1. intros [| b | z | f | s | items | entries].
  - exact HN.
  - apply HB.
  - apply HI.
  - apply HF.
  - apply HS.
  - apply HL. induction items as [|x items IHitems]; constructor; [apply IH | exact IHitems].
  - apply HD. induction entries as [|[k x] entries IHe]; constructor;
      [apply IH | exact IHe].
Qed.

(** X21: [_repair_mojibake_in_obj] leaves alone every object in which no string
    looks like mojibake: all its strings, at any depth, are free of the
    mojibake markers and of C1 control characters. *)
Theorem repair_obj_identity (obj : pyval) :
  all_strings (fun s => negb (_looks_mojibake_text s)) obj = true ->
  _repair_mojibake_in_obj obj = obj.
Proof.
  induction obj as [| | | | s | items IH | entries IH] using pyval_nested_ind;
    intros H; simpl in *; try reflexivity.
  - f_equal. apply repair_text_identity. apply negb_true_iff. exact H.
  - f_equal. induction IH as [|x items Hx _ IHitems]; simpl in *; [reflexivity|].
    apply andb_true_iff in H as [H1 H2]. rewrite (Hx H1), (IHitems H2). reflexivity.
  - f_equal. induction IH as [|[k x] entries Hx _ IHe]; simpl in *; [reflexivity|].
    apply andb_true_iff in H as [H1 H2]. rewrite (Hx H1), (IHe H2). reflexivity.
Qed.

End RepairTheorems.

(** The identity at the default summary. *)
Lemma repair_obj_identity_witness :
  _repair_mojibake_in_obj _default_summary_schema = _default_summary_schema.
Proof.
  apply (@repair_obj_identity reference_runtime _default_summary_schema).
  vm_compute. reflexivity.
Defined.

(** ** Debug events *)

Lemma last_drop_lt {A} (l : list A) (n : nat) :
  (n < length l)%nat -> last (drop n l) = last l.
Proof.
  revert n. induction l as [|a l IH]; intros n Hn; [simpl in Hn; lia|].
  destruct n as [|n]; [reflexivity|].
  simpl in Hn. change (drop (S n) (a :: l)) with (drop n l).
  rewrite IH by lia. destruct l; [simpl in Hn; lia | reflexivity].
Qed.

Lemma sublist_In {A} (l k : list A) (x : A) : sublist l k -> In x l -> In x k.
Proof.
  intros Hs Hx. apply list_elem_of_In.
  eapply elem_of_submseteq; [apply list_elem_of_In; exact Hx|].
  apply sublist_submseteq. exact Hs.
Qed.

Lemma deque_append_length {A} (maxlen : nat) (q : list A) (x : A) :
  (1 <= maxlen)%nat ->
  (length (deque_append maxlen q x) <= maxlen)%nat
  /\ last (deque_append maxlen q x) = Some x.
Proof.
  intros Hm. unfold deque_append. split.
  - rewrite length_drop. lia.
  - rewrite last_drop_lt; [apply last_snoc|].
    rewrite length_app. simpl. lia.
Qed.

(** X22: the buffer of debug events never grows beyond 200 entries, and an event
    that is a dictionary (or nothing at all) is found at its end, stamped. *)
Theorem debug_events_stay_bounded (now_iso : list Z)
    (events : list (list (list Z * pyval))) (event : pyval) :
  (length events <= DEBUG_EVENTS_MAXLEN)%nat ->
  (length (_push_debug_event now_iso events event) <= DEBUG_EVENTS_MAXLEN)%nat
  /\ forall entries,
       py_or event (PDict []) = PDict entries ->
       last (_push_debug_event now_iso events event)
       = Some (dict_update [(u "ts", PStr now_iso)] entries).
Proof.
  intros Hlen. unfold _push_debug_event.
  destruct (mapping_entries (py_or event (PDict []))) as [entries|e] eqn:Hm.
  - destruct (deque_append_length DEBUG_EVENTS_MAXLEN events
                (dict_update [(u "ts", PStr now_iso)] entries)) as [H1 H2].
    { unfold DEBUG_EVENTS_MAXLEN. lia. }
    split; [exact H1|].
    intros entries' He. rewrite He in Hm. injection Hm as <-. exact H2.
  - split; [exact Hlen|]. intros entries He. rewrite He in Hm. discriminate.
Qed.

(** A first event pushed into the empty buffer. *)
Lemma debug_events_stay_bounded_witness :
  (length (_push_debug_event (u "2026-01-01T00:00:00+00:00") []
             (PDict [(u "stage", PStr (u "run_s4.before_persist"))])) <= 200)%nat.
Proof.
  apply (debug_events_stay_bounded (u "2026-01-01T00:00:00+00:00") []
           (PDict [(u "stage", PStr (u "run_s4.before_persist"))])).
  vm_compute. lia.
Defined.

Lemma sublist_filter {A} (f : A -> bool) (l : list A) : sublist (List.filter f l) l.
Proof.
  induction l as [|x l IH]; simpl; [constructor|].
  destruct (f x); [apply sublist_skip | apply sublist_cons]; exact IH.
Qed.

(** X23: [get_recent_debug_events] returns the newest of the events visible to
    the session, in the order of the buffer: all of them when [limit] is zero
    or negative, otherwise the last [limit] of them (all when there are
    fewer).  With a session id that is not empty the visible events are
    those of that session or of no session, otherwise every event. *)
Theorem recent_debug_events_window (events : list (list (list Z * pyval)))
    (session_id : option (list Z)) (limit : Z) :
  let visible := match session_id with
                 | Some sid => if str_truthy sid
                               then List.filter (event_visible sid) events else events
                 | None => events
                 end in
  let out := get_recent_debug_events events session_id limit in
  sublist out events
  /\ (exists older, visible = older ++ out)
  /\ Z.of_nat (length out)
     = (if 0 <? limit then Z.min limit (Z.of_nat (length visible))
        else Z.of_nat (length visible))
  /\ (limit <= 0 -> out = visible)
  /\ (0 < limit -> Z.of_nat (length out) <= limit)
  /\ (forall sid, session_id = Some sid -> str_truthy sid = true ->
      forallb (event_visible sid) out = true).
Proof.
  cbv zeta. unfold get_recent_debug_events.
  set (items := match session_id with
                | Some sid => if str_truthy sid
                              then List.filter (event_visible sid) events else events
                | None => events
                end).
  assert (Hitems : sublist items events).
  { unfold items. destruct session_id as [sid|]; [|reflexivity].
    destruct (str_truthy sid); [apply sublist_filter | reflexivity]. }
  assert (Hvis : forall sid, session_id = Some sid -> str_truthy sid = true ->
                             forallb (event_visible sid) items = true).
  { intros sid -> Ht. unfold items. rewrite Ht. apply forallb_forall.
    intros x Hx. apply filter_In in Hx as [_ Hx]. exact Hx. }
  destruct (Z.ltb_spec 0 limit) as [Hpos|Hnon].
  - unfold take_last. split; [|split; [|split; [|split; [|split]]]].
    + etransitivity; [apply sublist_drop | exact Hitems].
    + exists (take (length items - Z.to_nat limit) items). symmetry. apply take_drop.
    + rewrite length_drop. lia.
    + intros Hle. lia.
    + intros _. rewrite length_drop. lia.
    + intros sid Hs Ht. specialize (Hvis sid Hs Ht).
      rewrite forallb_forall in Hvis |- *. intros x Hx. apply Hvis.
      eapply sublist_In; [apply sublist_drop | exact Hx].
  - split; [exact Hitems|]. split; [exists []; reflexivity|].
    split; [reflexivity|]. split; [reflexivity|]. split; [lia | exact Hvis].
Qed.

(** ** The window of user turns *)

Lemma ordered_user_turns_spec (rows : list (option Z)) (seen : list Z) :
  NoDup (ordered_user_turns seen rows)
  /\ forall ut, In ut (ordered_user_turns seen rows) -> In (Some ut) rows /\ ~ In ut seen.
Proof.
  revert seen. induction rows as [|[ut|] rows IH]; intros seen; simpl.
  - split; [constructor | intros ut []].
  - destruct (existsb (Z.eqb ut) seen) eqn:E.
    + destruct (IH seen) as [H1 H2]. split; [exact H1|].
      intros x Hx. destruct (H2 x Hx). auto.
    + destruct (IH (ut :: seen)) as [H1 H2]. split.
      * constructor; [|exact H1]. intros Hin. apply list_elem_of_In in Hin.
        destruct (H2 ut Hin) as [_ Hn]. apply Hn. left. reflexivity.
      * intros x [<-|Hx].
        -- split; [left; reflexivity|]. intros Hin.
           apply not_true_iff_false in E. apply E. apply existsb_exists.
           exists ut. split; [exact Hin | apply Z.eqb_refl].
        -- destruct (H2 x Hx) as [Hr Hn]. split; [right; exact Hr|].
           intros Hin. apply Hn. right. exact Hin.
  - destruct (IH seen) as [H1 H2]. split; [exact H1|].
    intros x Hx. destruct (H2 x Hx). auto.
Qed.

Lemma slice_from_sublist {A} (l : list A) (start : Z) : sublist (slice_from l start) l.
Proof. unfold slice_from. destruct (0 <=? start); apply sublist_drop. Qed.

(** X24: [_resolve_scope_user_turns] returns distinct user turns, each one the
    [user_turn] of a row of the query, and for a window of at least one turn no
    more turns than the window. *)
Theorem scope_user_turns_window (user_turn_rows : list (option Z)) (window_user_turn : Z) :
  let out := _resolve_scope_user_turns user_turn_rows window_user_turn in
  NoDup out
  /\ (forall ut, In ut out -> In (Some ut) user_turn_rows)
  /\ (1 <= window_user_turn -> Z.of_nat (length out) <= window_user_turn).
Proof.
  cbv zeta. unfold _resolve_scope_user_turns.
  destruct (ordered_user_turns_spec (rev user_turn_rows) []) as [Hnd Hin].
  destruct (ordered_user_turns [] (rev user_turn_rows)) as [|o os] eqn:Ho.
  { split; [constructor|]. split; [intros ut [] | simpl; lia]. }
  pose proof (slice_from_sublist (o :: os) (- window_user_turn)) as Hsub.
  split; [eapply sublist_NoDup; [exact Hnd | exact Hsub]|]. split.
  - intros ut Hut. apply in_rev. apply (Hin ut).
    eapply sublist_In; [exact Hsub | exact Hut].
  - intros Hw. unfold slice_from.
    destruct (Z.leb_spec 0 (- window_user_turn)); [lia|].
    rewrite length_drop. lia.
Qed.

(** ** Transcripts and explicit requests *)

Lemma str_contains_prefix (p s : list Z) : str_contains p (p ++ s) = true.
Proof.
  destruct (p ++ s) eqn:E; simpl.
  - destruct p; [reflexivity | discriminate].
  - rewrite <- E. rewrite is_prefix_app. reflexivity.
Qed.

Lemma str_contains_app_r (p a s : list Z) :
  str_contains p s = true -> str_contains p (a ++ s) = true.
Proof.
  intros H. induction a as [|c a IH]; [exact H|].
  simpl. rewrite IH. apply orb_true_r.
Qed.

Lemma str_contains_split (p s : list Z) :
  str_contains p s = true -> exists a b, s = a ++ p ++ b.
Proof.
  induction s as [|c s IH]; simpl.
  - rewrite orb_false_r. intros H. apply is_prefix_split in H as [r Hr].
    exists [], r. exact Hr.
  - intros H. apply orb_true_iff in H as [H|H].
    + apply is_prefix_split in H as [r Hr]. exists [], r. exact Hr.
    + destruct (IH H) as (a & b & ->). exists (c :: a), b. reflexivity.
Qed.

Lemma str_contains_app_l (p s b : list Z) :
  str_contains p s = true -> str_contains p (s ++ b) = true.
Proof.
  intros H. apply str_contains_split in H as (a & r & ->).
  rewrite <- !app_assoc. apply str_contains_app_r, str_contains_prefix.
Qed.

Lemma str_contains_join (p : list Z) (sep : list Z) (parts : list (list Z)) part :
  In part parts -> str_contains p part = true ->
  str_contains p (str_join sep parts) = true.
Proof.
  induction parts as [|q rest IH]; [intros []|].
  intros Hin Hp. destruct rest as [|q' rest].
  - destruct Hin as [->|[]]. exact Hp.
  - change (str_join sep (q :: q' :: rest)) with (q ++ sep ++ str_join sep (q' :: rest)).
    destruct Hin as [->|Hin].
    + apply str_contains_app_l. exact Hp.
    + apply str_contains_app_r, str_contains_app_r, IH; assumption.
Qed.

(** X25: a request for help written in any message of the window is seen in the
    transcript: [_has_help_seeking] answers true for the rendered transcript
    as soon as one message holds one of the hint phrases. *)
Theorem explicit_request_is_detected `{R : PyRuntime}
    (msgs : list (pyval * pyval)) (role : pyval) (content hint : list Z) :
  In (role, PStr content) msgs ->
  In hint HELP_SEEKING_HINTS ->
  str_contains hint content = true ->
  _has_help_seeking (_render_transcript msgs) = true.
Proof.
  intros Hmsg Hhint Hc. unfold _has_help_seeking. apply existsb_exists.
  exists hint. split; [exact Hhint|].
  unfold _render_transcript.
  apply (str_contains_join hint [10] _ (py_str role ++ u ": " ++ py_str (PStr content))).
  - apply in_map_iff. exists (role, PStr content). auto.
  - apply str_contains_app_r, str_contains_app_r. exact Hc.
Qed.

(** A user who asks to borrow money, in the second message. *)
Lemma explicit_request_is_detected_witness :
  _has_help_seeking
    (_render_transcript [(PStr (u "assistant"), PStr (u "怎么了？"));
                         (PStr (u "user"), PStr (u "能不能借我一点钱"))]) = true.
Proof.
  apply (@explicit_request_is_detected reference_runtime _ (PStr (u "user"))
           (u "能不能借我一点钱") (u "借我")).
  - right. left. reflexivity.
  - right. left. reflexivity.
  - vm_compute. reflexivity.
Defined.

(** ** The shape of a sanitized summary *)

Section SanitizedShape.
Context `{R : PyRuntime}.

Lemma dict_get_setdefault_cases (P : pyval -> Prop) (d : list (list Z * pyval)) k v :
  (dict_has d k = true -> P (dict_get d k)) -> P v ->
  P (dict_get (dict_setdefault d k v) k).
Proof.
  intros Hd Hv. unfold dict_setdefault. destruct (dict_has d k) eqn:E.
  - apply Hd. reflexivity.
  - rewrite dict_get_set_eq. exact Hv.
Qed.

Lemma dict_has_setdefault (d : list (list Z * pyval)) k v :
  dict_has (dict_setdefault d k v) k = true.
Proof.
  unfold dict_setdefault. destruct (dict_has d k) eqn:E; [exact E|].
  unfold dict_has. rewrite dict_lookup_set_eq. reflexivity.
Qed.

Lemma coerce_list_field_eq (obj : list (list Z * pyval)) k :
  is_list_value (dict_get (coerce_list_field obj k) k).
Proof.
  unfold coerce_list_field.
  destruct (dict_get obj k) eqn:E;
    try (rewrite dict_get_set_eq; eexists; reflexivity).
  rewrite E. eexists. reflexivity.
Qed.

Lemma coerce_list_field_ne (obj : list (list Z * pyval)) k k' :
  k <> k' -> dict_get (coerce_list_field obj k) k' = dict_get obj k'.
Proof.
  intros Hne. unfold coerce_list_field.
  destruct (dict_get obj k); try reflexivity; apply dict_get_set_ne; exact Hne.
Qed.

Lemma searchable_or_empty (v : pyval) :
  searchable v -> exists s, py_or v (PStr []) = PStr s.
Proof.
  intros [Hf|[s ->]]; unfold py_or.
  - rewrite Hf. exists []. reflexivity.
  - destruct (truthy (PStr s)); eexists; reflexivity.
Qed.

Lemma strip_phrase_returns (key : list Z) (obj : list (list Z * pyval)) (p : list Z) :
  searchable (dict_get obj key) ->
  exists obj', strip_phrase key obj p = Ok obj'
               /\ searchable (dict_get obj' key)
               /\ forall k', key <> k' -> dict_get obj' k' = dict_get obj k'.
Proof.
  intros Hs. unfold strip_phrase.
  destruct (searchable_or_empty _ Hs) as [s ->]. simpl.
  destruct (str_contains p s).
  - eexists. split; [reflexivity|]. split.
    + rewrite dict_get_set_eq. right. eexists. reflexivity.
    + intros k' Hne. apply dict_get_set_ne. exact Hne.
  - exists obj. split; [reflexivity|]. split; [exact Hs | reflexivity].
Qed.

Lemma strip_phrases_return (key : list Z) (phrases : list (list Z))
    (obj : list (list Z * pyval)) :
  searchable (dict_get obj key) ->
  exists obj', fold_result (strip_phrase key) phrases obj = Ok obj'
               /\ searchable (dict_get obj' key)
               /\ forall k', key <> k' -> dict_get obj' k' = dict_get obj k'.
Proof.
  intros Hs.
  destruct (fold_result_total (strip_phrase key)
              (fun o => searchable (dict_get o key)
                        /\ forall k', key <> k' -> dict_get o k' = dict_get obj k')
              phrases obj) as (obj' & Hf & H1 & H2).
  - split; [exact Hs | reflexivity].
  - intros a p _ [Ha Hframe].
    destruct (strip_phrase_returns key a p Ha) as (a' & Hr & Hs' & Hfr).
    exists a'. split; [exact Hr|]. split; [exact Hs'|].
    intros k' Hne. rewrite Hfr by exact Hne. apply Hframe. exact Hne.
  - exists obj'. auto.
Qed.

Lemma fill_if_empty_eq (obj : list (list Z * pyval)) key dflt :
  str_truthy dflt = true -> truthy (dict_get (fill_if_empty obj key dflt) key) = true.
Proof.
  intros Hd. unfold fill_if_empty. destruct (truthy (dict_get obj key)) eqn:E.
  - exact E.
  - rewrite dict_get_set_eq. exact Hd.
Qed.

Lemma fill_if_empty_ne (obj : list (list Z * pyval)) key key' dflt :
  key <> key' -> dict_get (fill_if_empty obj key dflt) key' = dict_get obj key'.
Proof.
  intros Hne. unfold fill_if_empty. destruct (truthy (dict_get obj key)).
  - reflexivity.
  - apply dict_get_set_ne. exact Hne.
Qed.

Lemma fill_if_empty_keeps (obj : list (list Z * pyval)) key dflt :
  truthy (dict_get obj key) = true -> fill_if_empty obj key dflt = obj.
Proof. intros H. unfold fill_if_empty. rewrite H. reflexivity. Qed.

End SanitizedShape.

Ltac distinct_keys := vm_compute; discriminate.

(** X26: [_sanitize_summary] returns, and what it returns has the shape the callers
    read, whenever [goal] and [state] of the reply are strings or values that
    count as false (absent, [None], an empty list): [goal] and [state] are not
    empty, and [open_loops], [constraints] and [tone_notes] are lists. *)
Theorem sanitized_summary_shape `{R : PyRuntime} (transcript : list Z)
    (d : list (list Z * pyval)) :
  searchable (dict_get d (u "goal")) ->
  searchable (dict_get d (u "state")) ->
  exists out, _sanitize_summary transcript (PDict d) = Ok (PDict out)
              /\ summary_shape out.
Proof.
  intros Hg Hs.
  unfold _sanitize_summary.
  set (o1 := dict_setdefault d (u "goal") (PStr [])).
  set (o2 := dict_setdefault o1 (u "state") (PStr [])).
  set (o3 := dict_setdefault o2 (u "open_loops") (PList [])).
  set (o4 := dict_setdefault o3 (u "constraints") (PList [])).
  set (o5 := dict_setdefault o4 (u "tone_notes") (PList [])).
  set (o6 := coerce_list_field o5 (u "open_loops")).
  set (o7 := coerce_list_field o6 (u "constraints")).
  set (o8 := coerce_list_field o7 (u "tone_notes")).
  cbv zeta.
  assert (Hgoal : searchable (dict_get o8 (u "goal"))).
  { unfold o8, o7, o6, o5, o4, o3, o2.
    rewrite !coerce_list_field_ne by distinct_keys.
    rewrite !dict_get_setdefault_ne by distinct_keys.
    unfold o1. apply dict_get_setdefault_cases; [intros _; exact Hg|].
    left. reflexivity. }
  assert (Hstate : searchable (dict_get o8 (u "state"))).
  { unfold o8, o7, o6, o5, o4, o3.
    rewrite !coerce_list_field_ne by distinct_keys.
    rewrite !dict_get_setdefault_ne by distinct_keys.
    unfold o2. apply dict_get_setdefault_cases; [intros _|left; reflexivity].
    unfold o1. rewrite dict_get_setdefault_ne by distinct_keys. exact Hs. }
  assert (Hloops : is_list_value (dict_get o8 (u "open_loops"))).
  { unfold o8, o7. rewrite !coerce_list_field_ne by distinct_keys.
    apply coerce_list_field_eq. }
  assert (Hcons : is_list_value (dict_get o8 (u "constraints"))).
  { unfold o8. rewrite !coerce_list_field_ne by distinct_keys.
    apply coerce_list_field_eq. }
  assert (Htone : is_list_value (dict_get o8 (u "tone_notes"))).
  { apply coerce_list_field_eq. }
  clearbody o8. clear o1 o2 o3 o4 o5 o6 o7 Hg Hs.
  assert (Hmid : exists o9,
             (if _has_help_seeking transcript then Ok o8
              else
                obj ← fold_result (strip_phrase (u "goal")) bad_goal_phrases o8;
                obj0 ← fold_result (strip_phrase (u "state")) bad_state_phrases obj;
                Ok (dict_set obj0 (u "open_loops")
                      (PList match dict_get obj0 (u "open_loops") with
                             | PList l => map clean_loop_item l
                             | _ => []
                             end))) = Ok o9
             /\ is_list_value (dict_get o9 (u "open_loops"))
             /\ is_list_value (dict_get o9 (u "constraints"))
             /\ is_list_value (dict_get o9 (u "tone_notes"))).
  { destruct (_has_help_seeking transcript).
    - exists o8. auto.
    - destruct (strip_phrases_return (u "goal") bad_goal_phrases o8 Hgoal)
        as (oa & -> & _ & Hfa).
      assert (Hstate' : searchable (dict_get oa (u "state"))).
      { rewrite Hfa by distinct_keys. exact Hstate. }
      destruct (strip_phrases_return (u "state") bad_state_phrases oa Hstate')
        as (ob & Hob & _ & Hfb).
      cbn [mbind result_bind]. rewrite Hob. cbn [mbind result_bind].
      eexists. split; [reflexivity|]. split; [|split].
      + rewrite dict_get_set_eq. eexists. reflexivity.
      + rewrite dict_get_set_ne, Hfb, Hfa by distinct_keys. exact Hcons.
      + rewrite dict_get_set_ne, Hfb, Hfa by distinct_keys. exact Htone. }
  destruct Hmid as (o9 & -> & H1 & H2 & H3). cbn [mbind result_bind].
  eexists. split; [reflexivity|]. unfold summary_shape.
  split; [|split; [|split; [|split]]].
  - rewrite fill_if_empty_ne by distinct_keys. apply fill_if_empty_eq. reflexivity.
  - apply fill_if_empty_eq. reflexivity.
  - rewrite !fill_if_empty_ne by distinct_keys. exact H1.
  - rewrite !fill_if_empty_ne by distinct_keys. exact H2.
  - rewrite !fill_if_empty_ne by distinct_keys. exact H3.
Qed.

(** A reply that gives only a goal, and a number where a list is expected. *)
Lemma sanitized_summary_shape_witness :
  exists out,
    _sanitize_summary (u "user: 今天去散步")
      (PDict [(u "goal", PStr (u "散步")); (u "tone_notes", PInt 3)]) = Ok (PDict out)
    /\ summary_shape out.
Proof.
  apply (@sanitized_summary_shape reference_runtime (u "user: 今天去散步")
           [(u "goal", PStr (u "散步")); (u "tone_notes", PInt 3)]).
  - right. eexists. vm_compute. reflexivity.
  - left. vm_compute. reflexivity.
Defined.

(* ================================================================== *)
(** * The migration and its way back *)
(* ================================================================== *)

Ltac step_operation :=
  match goal with
  | |- context [add_column ?s ?t ?c] => destruct (add_column s t c) as [?s|]
  | |- context [create_index ?s ?n ?t ?c ?q] => destruct (create_index s n t c q) as [?s|]
  | |- context [drop_index ?s ?n ?t] => destruct (drop_index s n t) as [?s|]
  | |- context [drop_column ?s ?t ?c] => destruct (drop_column s t c) as [?s|]
  end;
  cbn [mbind option_bind for_each]; [|reflexivity].

Lemma upgrade_performs (s : db_schema) :
  upgrade s = for_each perform upgrade_operations s.
Proof.
  unfold upgrade, upgrade_operations.
  cbn [app concat map for_each perform mbind option_bind].
  repeat step_operation. reflexivity.
Qed.

Lemma downgrade_performs (s : db_schema) :
  downgrade s = for_each perform (rev (map undo upgrade_operations)) s.
Proof.
  unfold downgrade, upgrade_operations.
  cbn [app concat map rev undo col_name for_each perform mbind option_bind].
  repeat step_operation. reflexivity.
Qed.

Lemma for_each_app {A B} (body : A -> B -> option A) (l1 l2 : list B) (a : A) :
  for_each body (l1 ++ l2) a = a' ← for_each body l1 a; for_each body l2 a'.
Proof.
  revert a. induction l1 as [|x l1 IH]; intros a; [reflexivity|].
  cbn [app for_each]. destruct (body a x) as [a'|]; [|reflexivity].
  cbn [mbind option_bind]. apply IH.
Qed.

Lemma no_index_covers (s : db_schema) (table column : list Z)
    (cols : gmap (list Z) sa_column) :
  indexes_valid s -> sc_tables s !! table = Some cols -> cols !! column = None ->
  existsb (fun kv => index_covers table column (snd kv)) (map_to_list (sc_indexes s)) = false.
Proof.
  intros Hv Ht Hc. apply not_true_iff_false. intros H.
  apply existsb_exists in H as ([n ix] & Hin & Hcov).
  apply list_elem_of_In, elem_of_map_to_list in Hin.
  destruct (Hv n ix Hin) as (cols0 & Ht0 & Hall).
  unfold index_covers in Hcov. cbn [snd] in Hcov.
  apply andb_true_iff in Hcov as [H1 H2].
  apply bool_decide_eq_true in H1, H2. rewrite H1, Ht in Ht0. injection Ht0 as <-.
  destruct (Hall column H2) as [x Hx]. rewrite Hc in Hx. discriminate.
Qed.

Lemma add_column_undone (s s' : db_schema) (table : list Z) (column : sa_column) :
  indexes_valid s -> add_column s table column = Some s' ->
  drop_column s' table (col_name column) = Some s /\ indexes_valid s'.
Proof.
  intros Hv Hadd. unfold add_column in Hadd.
  destruct (sc_tables s !! table) as [cols|] eqn:Ht; [|discriminate].
  cbn [mbind option_bind] in Hadd.
  destruct (cols !! col_name column) eqn:Hc; [discriminate|].
  injection Hadd as <-.
  assert (Hv' : indexes_valid
                  {| sc_tables := <[table := <[col_name column := column]> cols]> (sc_tables s);
                     sc_indexes := sc_indexes s |}).
  { intros n ix Hix. destruct (Hv n ix Hix) as (cols0 & Ht0 & Hall).
    unfold index_valid. cbn [sc_tables sc_indexes] in *.
    destruct (decide (table = ix_table ix)) as [Heq|Hne].
    - rewrite <- Heq in *. rewrite lookup_insert_eq. eexists. split; [reflexivity|].
      intros c Hcin. apply lookup_insert_is_Some'. right.
      rewrite Ht in Ht0. injection Ht0 as <-. apply Hall. exact Hcin.
    - rewrite lookup_insert_ne by exact Hne. exists cols0. auto. }
  split; [|exact Hv'].
  unfold drop_column. cbn [sc_tables sc_indexes].
  rewrite lookup_insert_eq. cbn [mbind option_bind].
  rewrite lookup_insert_eq.
  rewrite (no_index_covers s table (col_name column) cols Hv Ht Hc).
  rewrite insert_insert_eq, delete_insert_id by exact Hc.
  rewrite insert_id by exact Ht. destruct s. reflexivity.
Qed.

Lemma create_index_undone (s s' : db_schema) (name table : list Z)
    (columns : list (list Z)) (unique : bool) :
  indexes_valid s -> create_index s name table columns unique = Some s' ->
  drop_index s' name table = Some s /\ indexes_valid s'.
Proof.
  intros Hv Hc. unfold create_index in Hc.
  destruct (sc_tables s !! table) as [cols|] eqn:Ht; [|discriminate].
  cbn [mbind option_bind] in Hc.
  destruct (sc_indexes s !! name) eqn:Hn; [discriminate|].
  destruct (forallb _ columns) eqn:Hall; [|discriminate].
  injection Hc as <-. split.
  - unfold drop_index. cbn [sc_tables sc_indexes].
    rewrite lookup_insert_eq. cbn [mbind option_bind ix_table].
    rewrite bool_decide_eq_true_2 by reflexivity.
    rewrite delete_insert_id by exact Hn. destruct s. reflexivity.
  - intros n ix Hix. cbn [sc_indexes] in Hix. unfold index_valid. cbn [sc_tables].
    destruct (decide (name = n)) as [<-|Hne].
    + rewrite lookup_insert_eq in Hix. injection Hix as <-. cbn [ix_table ix_columns].
      exists cols. split; [exact Ht|]. intros c Hcin.
      rewrite forallb_forall in Hall. apply list_elem_of_In in Hcin.
      specialize (Hall c Hcin). apply bool_decide_eq_true in Hall. exact Hall.
    + rewrite lookup_insert_ne in Hix by exact Hne. exact (Hv n ix Hix).
Qed.

Lemma addition_undone (s s' : db_schema) (o : operation) :
  is_addition o = true -> indexes_valid s -> perform s o = Some s' ->
  perform s' (undo o) = Some s /\ indexes_valid s'.
Proof.
  destruct o; try discriminate; intros _ Hv Hp; cbn [perform undo] in *.
  - apply add_column_undone; assumption.
  - eapply create_index_undone; eassumption.
Qed.

Lemma additions_undone (ops : list operation) (s s' : db_schema) :
  forallb is_addition ops = true -> indexes_valid s ->
  for_each perform ops s = Some s' ->
  for_each perform (rev (map undo ops)) s' = Some s /\ indexes_valid s'.
Proof.
  revert s. induction ops as [|o ops IH]; intros s Hadd Hv Hrun.
  - injection Hrun as <-. auto.
  - cbn [forallb] in Hadd. apply andb_true_iff in Hadd as [Ho Hops].
    cbn [for_each] in Hrun.
    destruct (perform s o) as [s1|] eqn:Hp; [|discriminate].
    cbn [mbind option_bind] in Hrun.
    destruct (addition_undone s s1 o Ho Hv Hp) as [Hback Hv1].
    destruct (IH s1 Hops Hv1 Hrun) as [Hrest Hv'].
    split; [|exact Hv'].
    cbn [map rev]. rewrite for_each_app, Hrest. cbn [mbind option_bind for_each].
    rewrite Hback. reflexivity.
Qed.

(** X27: the way back of the migration is exact: on a database whose indexes
    stand on existing columns, when [upgrade] goes through, [downgrade] goes
    through on its result and gives the database back as it was; and after
    [upgrade] every index, the new ones included, stands on existing columns. *)
Theorem downgrade_undoes_upgrade (s s' : db_schema) :
  indexes_valid s -> upgrade s = Some s' ->
  downgrade s' = Some s /\ indexes_valid s'.
Proof.
  intros Hv Hup. rewrite upgrade_performs in Hup. rewrite downgrade_performs.
  apply additions_undone; [reflexivity | exact Hv | exact Hup].
Qed.

Lemma schema_before_valid : indexes_valid schema_before.
Proof.
  intros n ix Hix. unfold schema_before in Hix. cbn [sc_indexes] in Hix.
  destruct (decide (u "ix_messages_session_id" = n)) as [<-|Hne].
  - rewrite lookup_insert_eq in Hix. injection Hix as <-.
    unfold index_valid, schema_before. cbn [sc_tables ix_table ix_columns].
    rewrite lookup_insert_eq. eexists. split; [reflexivity|].
    intros c Hc. apply list_elem_of_singleton in Hc as ->.
    rewrite lookup_insert_eq. eexists. reflexivity.
  - rewrite lookup_insert_ne, lookup_empty in Hix by exact Hne. discriminate.
Qed.

(** The migration on a database with the three tables, and back. *)
Lemma downgrade_undoes_upgrade_witness :
  exists s', upgrade schema_before = Some s' /\ downgrade s' = Some schema_before.
Proof.
  destruct (upgrade schema_before) as [s'|] eqn:Hup.
  - exists s'. split; [reflexivity|].
    apply (downgrade_undoes_upgrade schema_before s' schema_before_valid Hup).
  - exfalso. vm_compute in Hup. discriminate.
Defined.
